(** * cryodrgn: the [clean] command and the [TrainDir] test fixture

    A shallow embedding of [cryodrgn/commands_utils/clean.py] and of the
    [TrainDir] class of [tests/conftest.py], with the properties of the
    retention rule, the directory classifier, the scan driver and the
    fixture's epoch checks.

    Python values are modelled as follows.
    - [int] is [Z]; [str] is [string], each character standing for the
      code point of the same number (the Latin-1 range);
    - a raised exception is the [Raise] case of [result];
    - a set of integers is a [gset Z];
    - the file system, the interactive input and everything the program
      does to the outside (opening a file, removing a file, printing,
      prompting) live in a [world], threaded through a state-and-exception
      monad [M].

    The file system is taken as the source reads it: a directory is the
    list of its entries, a path is the list of its components, and
    ancestry is the lexical one of [Path.parents]; links and [..] are not
    resolved.  [os.remove] of a file that exists succeeds. *)

From Stdlib Require Import ZArith String Ascii List Bool Lia.
From stdpp Require Import base decidable list strings gmap pretty sorting.
From Equations Require Import Equations.
Import ListNotations.

Local Open Scope string_scope.
Local Open Scope list_scope.
Local Open Scope Z_scope.

Set Warnings "-register-all".

(** ** Exceptions and results *)

Module Py.

(** The exception classes that the modelled code can meet. *)
Inductive exn : Type :=
| EOFError
| BufferError
| UnpicklingError
| ImportError
| ModuleNotFoundError
| IndexError
| KeyError
| AttributeError
| TypeError
| ValueError
| UnicodeDecodeError
| ZeroDivisionError
| YAMLError
| OSError
| FileNotFoundError
| AssertionError.

#[global] Instance exn_eq_dec : EqDecision exn.
Proof. solve_decision. Defined.

(** The direct base class of an exception class, among the classes
    above ([None] stands for a base outside of them, such as
    [Exception]). *)
Definition base_class (e : exn) : option exn :=
  match e with
  | ModuleNotFoundError => Some ImportError
  | UnicodeDecodeError => Some ValueError
  | FileNotFoundError => Some OSError
  | _ => None
  end.

(** [issubclass e c]: the class hierarchy above is one level deep. *)
Definition issubclass (e c : exn) : bool :=
  bool_decide (e = c) || bool_decide (base_class e = Some c).

(** What an [except (c1, ..., cn)] clause catches. *)
Definition caught_by (classes : list exn) (e : exn) : bool :=
  existsb (issubclass e) classes.

Inductive result (A : Type) : Type :=
| Ok (a : A)
| Raise (e : exn).
Arguments Ok {A} a.
Arguments Raise {A} e.

#[global] Instance result_eq_dec {A} `{EqDecision A} : EqDecision (result A).
Proof. solve_decision. Defined.

Definition is_ok {A} (r : result A) : bool :=
  match r with Ok _ => true | Raise _ => false end.

(** ** Strings *)

(** [s.split(sep)] for a one-character separator: never empty. *)
Fixpoint str_split (sep : ascii) (s : string) : list string :=
  match s with
  | EmptyString => [EmptyString]
  | String c s' =>
      if Ascii.eqb c sep then EmptyString :: str_split sep s'
      else match str_split sep s' with
           | [] => [String c EmptyString]
           | t :: ts => String c t :: ts
           end
  end.

(** [l[i]] on a list, for [i >= 0]. *)
Definition list_index {A} (l : list A) (i : nat) : result A :=
  match nth_error l i with
  | Some x => Ok x
  | None => Raise IndexError
  end.

(** [s[:n]] *)
Definition str_take (n : nat) (s : string) : string := substring 0 n s.

(** [needle in s] for two strings. *)
Fixpoint str_contains (needle s : string) : bool :=
  String.prefix needle s
  || match s with
     | EmptyString => false
     | String _ s' => str_contains needle s'
     end.

(** [sep.join(l)] *)
Fixpoint str_join (sep : string) (l : list string) : string :=
  match l with
  | [] => EmptyString
  | [s] => s
  | s :: rest => s +:+ sep +:+ str_join sep rest
  end.

(** [s.ljust(width, " ")] *)
Definition str_ljust (width : Z) (s : string) : string :=
  s +:+ String.concat EmptyString
         (repeat " " (Z.to_nat (width - Z.of_nat (String.length s)))).

Definition is_ascii_digit (c : ascii) : bool :=
  let n := nat_of_ascii c in (48 <=? n)%nat && (n <=? 57)%nat.

(** The code points below 256 with a Unicode numeric value: the ten
    decimal digits, the superscripts two, three and one, and the
    fractions one quarter, one half and three quarters. *)
Definition char_isnumeric (c : ascii) : bool :=
  let n := nat_of_ascii c in
  is_ascii_digit c
  || (n =? 178)%nat || (n =? 179)%nat || (n =? 185)%nat
  || (n =? 188)%nat || (n =? 189)%nat || (n =? 190)%nat.

Fixpoint str_forall (p : ascii -> bool) (s : string) : bool :=
  match s with
  | EmptyString => true
  | String c s' => p c && str_forall p s'
  end.

(** [s.isnumeric()]: at least one character, all of them numeric. *)
Definition isnumeric (s : string) : bool :=
  negb (String.eqb s EmptyString) && str_forall char_isnumeric s.

Definition digit_value (c : ascii) : Z := Z.of_nat (nat_of_ascii c) - 48.

Fixpoint decimal_value (acc : Z) (s : string) : Z :=
  match s with
  | EmptyString => acc
  | String c s' => decimal_value (10 * acc + digit_value c) s'
  end.

(** [int(s)], on the strings for which [s.isnumeric()] holds (the
    source calls [int] only behind that test): a string of decimal
    digits has its value, and a superscript or a fraction is refused
    with [ValueError].  The strings are parts of file names, far shorter
    than the length at which [int] starts to refuse decimal digits. *)
Definition int_of_str (s : string) : result Z :=
  if negb (String.eqb s EmptyString) && str_forall is_ascii_digit s
  then Ok (decimal_value 0 s)
  else Raise ValueError.

(** [a % b] on integers: the sign of the result follows [b]. *)
Definition int_mod (a b : Z) : result Z :=
  if b =? 0 then Raise ZeroDivisionError else Ok (a mod b).

(** [str(n)] for an integer. *)
Definition str_of_int (n : Z) : string := pretty n.

End Py.
Export Py.

(** ** Values, the file system and the world *)

Module World.

(** The values that [yaml.safe_load] builds, restricted to [None],
    booleans, integers, strings, lists and mappings. *)
Inductive pyval : Type :=
| PNone
| PBool (b : bool)
| PInt (z : Z)
| PStr (s : string)
| PList (items : list pyval)
| PDict (kvs : list (pyval * pyval)).

(** [bool(v)] *)
Definition truthy (v : pyval) : bool :=
  match v with
  | PNone => false
  | PBool b => b
  | PInt z => negb (z =? 0)
  | PStr s => negb (String.eqb s EmptyString)
  | PList items => match items with [] => false | _ => true end
  | PDict kvs => match kvs with [] => false | _ => true end
  end.

(** [v == s] for a string [s] *)
Definition eq_str (s : string) (v : pyval) : bool :=
  match v with PStr s' => String.eqb s' s | _ => false end.

(** [v == i] for an integer [i]: [True == 1] and [False == 0]. *)
Definition eq_int (i : Z) (v : pyval) : bool :=
  match v with
  | PInt z => z =? i
  | PBool b => (if b then 1 else 0) =? i
  | _ => false
  end.

(** [s in v] for a string [s]: substring of a string, element of a
    list, key of a mapping; the other values are not containers. *)
Definition contains_str (s : string) (v : pyval) : result bool :=
  match v with
  | PStr s' => Ok (str_contains s s')
  | PList items => Ok (existsb (eq_str s) items)
  | PDict kvs => Ok (existsb (fun kv => eq_str s (fst kv)) kvs)
  | PNone | PBool _ | PInt _ => Raise TypeError
  end.

(** [v[s]] for a string [s] *)
Definition getitem_str (v : pyval) (s : string) : result pyval :=
  match v with
  | PDict kvs =>
      match find (fun kv => eq_str s (fst kv)) kvs with
      | Some kv => Ok (snd kv)
      | None => Raise KeyError
      end
  | _ => Raise TypeError
  end.

(** [v[i]] for an integer [i >= 0] *)
Definition getitem_int (v : pyval) (i : nat) : result pyval :=
  match v with
  | PList items => list_index items i
  | PStr s =>
      match String.get i s with
      | Some c => Ok (PStr (String c EmptyString))
      | None => Raise IndexError
      end
  | PDict kvs =>
      match find (fun kv => eq_int (Z.of_nat i) (fst kv)) kvs with
      | Some kv => Ok (snd kv)
      | None => Raise KeyError
      end
  | PNone | PBool _ | PInt _ => Raise TypeError
  end.

(** [v in names] for a set of strings: [v] is hashed first. *)
Definition in_str_set (v : pyval) (names : list string) : result bool :=
  match v with
  | PList _ | PDict _ => Raise TypeError
  | PStr s => Ok (existsb (String.eqb s) names)
  | PNone | PBool _ | PInt _ => Ok false
  end.

(** What a directory entry is. A regular file carries what
    [open] followed by [yaml.safe_load] gives on it: the value built,
    or the exception raised. *)
Inductive node : Type :=
| File (load : result pyval)
| Dir
| Special.

Record dirent : Type := { d_name : string; d_node : node }.

(** A path is the list of its components; [[]] is [Path()]. *)
Definition path : Type := list string.

(** What the program does to the outside.  [EvScan d cfg] is not an
    action of the source: it records, in [main], what
    [check_open_config] answered for [d]. *)
Inductive event : Type :=
| EvOpen (p : path)
| EvRemove (p : path)
| EvPrint (line : string)
| EvInput (prompt answer : string)
| EvScan (d : path) (cfg : pyval).

(** [w_iterdir] gives the entries of each directory in the order that
    the operating system lists them, [w_glob] what [Path().glob] yields
    for each pattern, [w_stdin] the lines still to be read by [input],
    [w_trace] what has been done so far, the latest event first. *)
Record world : Type := {
  w_iterdir : path -> list dirent;
  w_glob : string -> result (list path);
  w_cwd : path;
  w_stdin : list string;
  w_trace : list event
}.

Definition lookup_entry (name : string) (l : list dirent) : option node :=
  d_node <$> find (fun e => String.eqb (d_name e) name) l.

(** [p.name] *)
Definition path_name (p : path) : string := default EmptyString (last p).

(** [p.parent], with [p.name] *)
Fixpoint path_split (p : path) : option (path * string) :=
  match p with
  | [] => None
  | [name] => Some ([], name)
  | c :: p' =>
      match path_split p' with
      | Some (d, name) => Some (c :: d, name)
      | None => None
      end
  end.

(** [str(p)] *)
Definition path_str (p : path) : string :=
  match p with
  | [] => "."
  | c :: rest =>
      if String.eqb c "/" then "/" +:+ str_join "/" rest else str_join "/" p
  end.

Fixpoint proper_prefixes (p : path) : list path :=
  match p with
  | [] => []
  | c :: p' => [] :: map (cons c) (proper_prefixes p')
  end.

(** [p.parents]: the logical ancestors, the nearest first, down to
    [Path()] for the relative paths that [Path().glob] yields. *)
Definition parents (p : path) : list path := rev (proper_prefixes p).

(** What is at [p]: [None] when nothing is. *)

Definition stat (w : world) (p : path) : option node :=
  match path_split p with
  | Some (d, name) => lookup_entry name (w_iterdir w d)
  | None => Some Dir
  end.

(** The listing without the entry called [name]. *)
Definition remove_entry (name : string) (l : list dirent) : list dirent :=
  filter (fun e => String.eqb (d_name e) name = false) l.

(** The world once [name] has been removed from [d]. *)
Definition unlink (w : world) (d : path) (name : string) : world :=
  {| w_iterdir := fun q =>
       if decide (q = d) then remove_entry name (w_iterdir w d)
       else w_iterdir w q;
     w_glob := w_glob w;
     w_cwd := w_cwd w;
     w_stdin := w_stdin w;
     w_trace := EvRemove (d ++ [name]) :: w_trace w |}.

(** The world with one more event on its trace. *)
Definition log (e : event) (w : world) : world :=
  {| w_iterdir := w_iterdir w;
     w_glob := w_glob w;
     w_cwd := w_cwd w;
     w_stdin := w_stdin w;
     w_trace := e :: w_trace w |}.

(** *** The monad of the modelled program *)

Definition M (A : Type) : Type := world -> world * result A.

Definition ret {A} (a : A) : M A := fun w => (w, Ok a).

Definition raise {A} (e : exn) : M A := fun w => (w, Raise e).

Definition lift {A} (r : result A) : M A := fun w => (w, r).

Definition bind {A B} (m : M A) (k : A -> M B) : M B := fun w =>
  match m w with
  | (w', Ok a) => k a w'
  | (w', Raise e) => (w', Raise e)
  end.

Declare Scope py_scope.
Delimit Scope py_scope with py.
Notation "x <- m ;; k" := (bind m (fun x => k))
  (at level 100, m at next level, right associativity) : py_scope.
Notation "m ;;; k" := (bind m (fun _ => k))
  (at level 100, right associativity) : py_scope.

(** [for x in l: s = body(x, s)], with the variables that the body
    updates threaded as [s]. *)
Fixpoint for_in {A S} (l : list A) (body : A -> S -> M S) (s : S) : M S :=
  match l with
  | [] => ret s
  | x :: rest => bind (body x s) (for_in rest body)
  end.

(** [d.iterdir()] *)
Definition iterdir (d : path) : M (list path) := fun w =>
  (w, Ok (map (fun e => d ++ [d_name e]) (w_iterdir w d))).

(** [p.is_file()], [p.is_dir()] *)
Definition is_file (p : path) : M bool := fun w =>
  (w, Ok match stat w p with Some (File _) => true | _ => false end).

Definition is_dir (p : path) : M bool := fun w =>
  (w, Ok match stat w p with Some Dir => true | _ => false end).

(** [os.remove(p)] *)
Definition os_remove (p : path) : M unit := fun w =>
  match path_split p with
  | Some (d, name) =>
      match lookup_entry name (w_iterdir w d) with
      | Some (File _) | Some Special => (unlink w d name, Ok tt)
      | Some Dir => (w, Raise OSError)
      | None => (w, Raise FileNotFoundError)
      end
  | None => (w, Raise OSError)
  end.

(** [print(line)] *)
Definition print (line : string) : M unit := fun w =>
  (log (EvPrint line) w, Ok tt).

(** [input(prompt)] *)
Definition input (prompt : string) : M string := fun w =>
  match w_stdin w with
  | [] => (w, Raise EOFError)
  | answer :: rest =>
      ({| w_iterdir := w_iterdir w;
          w_glob := w_glob w;
          w_cwd := w_cwd w;
          w_stdin := rest;
          w_trace := EvInput prompt answer :: w_trace w |}, Ok answer)
  end.

End World.
Export World.

(** ** [cryodrgn/commands_utils/clean.py] *)

Module Clean.

Local Open Scope py_scope.

Definition NORMAL_EXCEPTIONS : list exn :=
  [EOFError; BufferError; UnpicklingError; ImportError; IndexError;
   AttributeError].

(** The parsed command line. *)
Record Namespace : Type := {
  outglobs : list string;
  every_n_epochs : Z;
  force : bool;
  verbose : Z;
  dry_run : bool
}.

(** What [clean_dir] receives as [args]: [main] passes the namespace on
    one path and the integer [args.every_n_epochs] on the other. *)
Inductive pyargs : Type :=
| ArgsNamespace (ns : Namespace)
| ArgsInt (n : Z).

(** [args.every_n_epochs], [args.dry_run] *)
Definition get_every_n_epochs (args : pyargs) : result Z :=
  match args with
  | ArgsNamespace ns => Ok (every_n_epochs ns)
  | ArgsInt _ => Raise AttributeError
  end.

Definition get_dry_run (args : pyargs) : result bool :=
  match args with
  | ArgsNamespace ns => Ok (dry_run ns)
  | ArgsInt _ => Raise AttributeError
  end.

(** [p.name.split(".")[1]] *)
Definition second_token (p : path) : result string :=
  list_index (str_split "." (path_name p)) 1.

(** The set comprehension of [clean_dir]: one step for each entry of
    [d.iterdir()]. *)
Definition analysis_step (out_dir : path) (acc : gset Z) : M (gset Z) :=
  isd <- is_dir out_dir ;;
  if negb isd then ret acc else
  if negb (String.eqb (str_take 8 (path_name out_dir)) "analyze.")
  then ret acc else
  tok <- lift (second_token out_dir) ;;
  if negb (isnumeric tok) then ret acc else
  tok' <- lift (second_token out_dir) ;;
  e <- lift (int_of_str tok') ;;
  ret ({[ e ]} ∪ acc).

Definition analysis_epochs (d : path) : M (gset Z) :=
  out_dirs <- iterdir d ;;
  for_in out_dirs analysis_step ∅.

(** [d.glob(f"{out_lbl}.*")]: the entries of [d] whose name starts with
    the label and a dot. *)
Definition glob_label (d : path) (out_lbl : string) : M (list path) :=
  entries <- iterdir d ;;
  ret (filter (fun p => String.prefix (out_lbl +:+ ".") (path_name p) = true)
         entries).

(** The parenthesised conjunction of the [if] in the inner loop,
    evaluated from left to right:
    [epoch.isnumeric() and (int(epoch) % args.every_n_epochs) != 0
     and int(epoch) not in analysis_epochs]. *)
Definition outside_retention (args : pyargs) (analysis : gset Z)
    (epoch : string) : result bool :=
  if negb (isnumeric epoch) then Ok false else
  match int_of_str epoch with
  | Raise e => Raise e
  | Ok e =>
  match get_every_n_epochs args with
  | Raise e => Raise e
  | Ok n =>
  match int_mod e n with
  | Raise e => Raise e
  | Ok r =>
      if r =? 0 then Ok false else Ok (bool_decide (e ∉ analysis))
  end end end.

(** The whole condition: [out_fl.is_file() and (...)]. *)
Definition must_remove (args : pyargs) (analysis : gset Z)
    (out_fl : path) (epoch : string) : M bool :=
  isf <- is_file out_fl ;;
  if isf then lift (outside_retention args analysis epoch) else ret false.

(** The body of the inner loop; [rmv_count] is the variable it updates. *)
Definition clean_file (args : pyargs) (analysis : gset Z)
    (out_fl : path) (rmv_count : Z) : M Z :=
  epoch <- lift (second_token out_fl) ;;
  go <- must_remove args analysis out_fl epoch ;;
  if go then
    let rmv_count := rmv_count + 1 in
    dry <- lift (get_dry_run args) ;;
    (if negb dry then os_remove out_fl else ret tt) ;;;
    ret rmv_count
  else ret rmv_count.

Definition out_labels : list string := ["weights"; "z"; "pose"; "reconstruct"].

Definition TAB : string := String (ascii_of_nat 9) EmptyString.

Definition DQUOTE : string := String (ascii_of_nat 34) EmptyString.

Definition clean_dir (d : path) (args : pyargs) : M unit :=
  analysis <- analysis_epochs d ;;
  rmv_count <-
    for_in out_labels
      (fun out_lbl rmv_count =>
         out_fls <- glob_label d out_lbl ;;
         for_in out_fls (clean_file args analysis) rmv_count)
      0 ;;
  dry <- lift (get_dry_run args) ;;
  if dry then
    print (TAB +:+ "Would remove " +:+ str_of_int rmv_count +:+ " files!")
  else
    print (TAB +:+ "Removed " +:+ str_of_int rmv_count +:+ " files!").

(** [try: body except classes: handler] *)
Definition try_except {A} (body : M A) (classes : list exn)
    (handler : M A) : M A := fun w =>
  match body w with
  | (w', Raise e) => if caught_by classes e then handler w' else (w', Raise e)
  | (w', Ok a) => (w', Ok a)
  end.

(** [with open(p, "r") as f: yaml.safe_load(f)] *)
Definition load_yaml (p : path) : M pyval := fun w =>
  match stat w p with
  | Some (File load) => (log (EvOpen p) w, load)
  | Some Dir | Some Special => (w, Raise OSError)
  | None => (w, Raise FileNotFoundError)
  end.

(** [{p.name for p in d.iterdir() if p.is_file()}] *)
Definition dir_files_step (p : path) (acc : gset string) : M (gset string) :=
  isf <- is_file p ;;
  if isf then ret ({[ path_name p ]} ∪ acc) else ret acc.

(** The loop over [product(["config", "configs"], [".yaml", ".yml"])],
    left at the first name found in [dir_files]. *)
Fixpoint first_config (candidates : list (string * string))
    (dir_files : gset string) : option string :=
  match candidates with
  | [] => None
  | (cfg_lbl, cfg_ext) :: rest =>
      if decide (str_join EmptyString [cfg_lbl; cfg_ext] ∈ dir_files)
      then Some (str_join EmptyString [cfg_lbl; cfg_ext])
      else first_config rest dir_files
  end.

Definition config_candidates : list (string * string) :=
  list_prod ["config"; "configs"] [".yaml"; ".yml"].

Definition cryodrgn_cmds : list string :=
  ["abinit_homo"; "abinit_het"; "train_nn"; "train_vae"].

(** The condition under which [cfg] is replaced by [dict()], its four
    disjuncts evaluated from left to right. *)
Definition not_cryodrgn (cfg : pyval) : result bool :=
  match contains_str "cmd" cfg with
  | Raise e => Raise e
  | Ok false => Ok true
  | Ok true =>
  match getitem_str cfg "cmd" with
  | Raise e => Raise e
  | Ok cmd =>
  match getitem_int cmd 0 with
  | Raise e => Raise e
  | Ok cmd0 =>
  match contains_str "cryodrgn" cmd0 with
  | Raise e => Raise e
  | Ok false => Ok true
  | Ok true =>
  match getitem_int cmd 1 with
  | Raise e => Raise e
  | Ok cmd1 =>
  match in_str_set cmd1 cryodrgn_cmds with
  | Raise e => Raise e
  | Ok false => Ok true
  | Ok true =>
  match contains_str "dataset_args" cfg with
  | Raise e => Raise e
  | Ok b => Ok (negb b)
  end end end end end end end.

Definition check_open_config (d : path) : M pyval :=
  entries <- iterdir d ;;
  dir_files <- for_in entries dir_files_step ∅ ;;
  match first_config config_candidates dir_files with
  | None => ret PNone
  | Some config =>
      loaded <-
        try_except
          (cfg <- load_yaml (d ++ [config]) ;; ret (cfg, false))
          NORMAL_EXCEPTIONS
          (ret (PNone, true)) ;;
      let '(cfg, corrupted) := loaded in
      if negb corrupted then
        bad <- lift (not_cryodrgn cfg) ;;
        if bad then ret (PDict []) else ret cfg
      else ret cfg
  end.

(** [s.replace(old, new)] for a non-empty [old]; [skip] counts the
    characters of a match still to be dropped. *)
Fixpoint str_replace_from (old new : string) (skip : nat) (s : string)
    : string :=
  match s with
  | EmptyString => EmptyString
  | String c s' =>
      match skip with
      | S k => str_replace_from old new k s'
      | O =>
          if String.prefix old s
          then new +:+ str_replace_from old new (String.length old - 1) s'
          else String c (str_replace_from old new 0 s')
      end
  end.

Definition str_replace (old new s : string) : string :=
  str_replace_from old new 0 s.

Definition _prompt_dir (d : path) (cfg : pyval) (maxlen : Z)
    (args : Namespace) : M unit :=
  let msg := "is a cryoDRGN directory" in
  let msg := if negb (truthy cfg) then str_replace "is a" "is not a" msg
             else msg in
  (if (truthy cfg && dry_run args)
      || (negb (truthy cfg) && (0 <? verbose args))
   then print (str_join EmptyString
                 [str_ljust (maxlen + 2)
                    (str_join EmptyString ["`"; path_str d; "`"]); msg])
   else ret tt) ;;;
  if truthy cfg then
    if force args || dry_run args then clean_dir d (ArgsNamespace args)
    else
      let prompt_msg :=
        ", enter 1) " +:+ DQUOTE +:+ "(s)kip" +:+ DQUOTE
        +:+ " or 2) any other key to clean:" in
      prompt <- input (str_join EmptyString
                         ["`"; path_str d; " "; msg; prompt_msg]) ;;
      if negb (existsb (String.eqb prompt) ["s"; "skip"])
      then clean_dir d (ArgsNamespace args)
      else ret tt
  else ret tt.

(** [Path().glob(outglob)], [os.getcwd()] *)
Definition glob (outglob : string) : M (list path) := fun w =>
  (w, w_glob w outglob).

Definition getcwd : M path := fun w => (w, Ok (w_cwd w)).

(** The order of [sorted] on paths: the lists of components, compared
    from the left, each component by the code points of its characters. *)
Fixpoint path_leb (p q : path) : bool :=
  match p, q with
  | [], _ => true
  | _ :: _, [] => false
  | a :: p', b :: q' =>
      match String.compare a b with
      | Lt => true
      | Gt => false
      | Eq => path_leb p' q'
      end
  end.

Definition path_le (p q : path) : Prop := path_leb p q = true.

#[global] Instance path_le_dec p q : Decision (path_le p q).
Proof. unfold path_le. apply _. Defined.

(** [sorted(set(l))] *)
Definition sorted_set (l : list path) : list path :=
  merge_sort path_le (remove_dups l).

(** [max(l, key=key)]: the first of the elements with the largest key. *)
Definition max_by {A} (key : A -> Z) (l : list A) : result A :=
  match l with
  | [] => Raise ValueError
  | x :: rest =>
      Ok (fold_left (fun best y => if key best <? key y then y else best)
            rest x)
  end.

(** [len(str(d))] *)
Definition path_len (d : path) : Z := Z.of_nat (String.length (path_str d)).

(** The generator under [set(...)] in [main]. *)
Definition collect_dirs (outglobs : list string) : M (list path) :=
  for_in outglobs
    (fun outglob acc =>
       ps <- glob outglob ;;
       for_in ps
         (fun p acc =>
            isd <- is_dir p ;;
            if isd then ret (acc ++ [p]) else ret acc)
         acc)
    [].

(** [[p for p in scan_dirs if cur_dir not in p.parents]] *)
Definition drop_descendants (cur_dir : path) (scan_dirs : list path)
    : list path :=
  filter (fun p => cur_dir ∉ parents p) scan_dirs.

(** The trace keeps what [check_open_config] answered for each
    directory. *)
Definition record_scan (d : path) (cfg : pyval) : M unit := fun w =>
  (log (EvScan d cfg) w, Ok tt).

(** One turn of the [while] loop, up to the test of [cfg]. *)
Definition scan_one (cur_dir : path) (maxlen : Z) (args : Namespace)
    : M pyval :=
  cfg <- check_open_config cur_dir ;;
  record_scan cur_dir cfg ;;;
  _prompt_dir cur_dir cfg maxlen args ;;;
  ret cfg.

Definition next_scan_dirs (cur_dir : path) (cfg : pyval)
    (scan_dirs : list path) : list path :=
  if truthy cfg then drop_descendants cur_dir scan_dirs else scan_dirs.

Equations? scan_loop (args : Namespace) (maxlen : Z) (scan_dirs : list path)
    (w : world) : world * result unit by wf (length scan_dirs) lt :=
  scan_loop args maxlen [] w := (w, Ok tt);
  scan_loop args maxlen (cur_dir :: rest) w
    with scan_one cur_dir maxlen args w => {
    | (w', Raise e) := (w', Raise e);
    | (w', Ok cfg) := scan_loop args maxlen (next_scan_dirs cur_dir cfg rest) w'
    }.
Proof.
  unfold next_scan_dirs, drop_descendants.
  destruct (truthy cfg); simpl; [|lia].
  pose proof (length_filter (fun p => cur_dir ∉ parents p) rest). lia.
Qed.

Definition main (args : Namespace) : M unit :=
  match outglobs args with
  | [] =>
      cwd <- getcwd ;;
      clean_dir cwd (ArgsInt (every_n_epochs args))
  | _ :: _ =>
      found <- collect_dirs (outglobs args) ;;
      let scan_dirs := sorted_set found in
      longest <- lift (max_by path_len scan_dirs) ;;
      let maxlen := path_len longest in
      scan_loop args maxlen scan_dirs
  end.

End Clean.

(** ** [tests/conftest.py]: the [TrainDir] fixture *)

Module Conftest.

(** The fields of a [TrainDir] object. *)
Record TrainDir : Type := {
  dataset : string;
  train_cmd : string;
  epochs : Z;
  out_lbl : string;
  outdir : string;
  orig_cache : string;
  particles : string;
  poses : string
}.

(** The world of the fixture: [fx_listdir] is [os.listdir],
    [fx_exec] is what launching a command line does to the files and
    what it writes to its standard output and error, [fx_launched] the
    command lines launched so far, the latest first. *)
Record fxworld : Type := {
  fx_listdir : string -> list string;
  fx_exec : string -> (string -> list string)
            -> (string * string) * (string -> list string);
  fx_launched : list string
}.

(** [cryodrgn.utils.run_command(cmd)] *)
Definition run_command (cmd : string) (w : fxworld)
    : fxworld * (string * string) :=
  let '(outs, listdir') := fx_exec w cmd (fx_listdir w) in
  ({| fx_listdir := listdir';
      fx_exec := fx_exec w;
      fx_launched := cmd :: fx_launched w |}, outs).

(** [os.path.join(a, b)] *)
Definition os_path_join (a b : string) : string :=
  if String.prefix "/" b then b
  else if String.eqb a EmptyString
          || String.eqb (substring (String.length a - 1) 1 a) "/"
       then a +:+ b
       else a +:+ "/" +:+ b.

(** [self.out_files] *)
Definition out_files (self : TrainDir) (w : fxworld) : list string :=
  fx_listdir w (outdir self).

(** [name in out_files] *)
Definition listed (name : string) (files : list string) : bool :=
  existsb (String.eqb name) files.

(** [bool(epoch)] for an optional integer *)
Definition epoch_truthy (epoch : option Z) : bool :=
  match epoch with
  | None => false
  | Some e => negb (e =? 0)
  end.

Definition epoch_cleaned (self : TrainDir) (epoch : option Z) (w : fxworld)
    : result bool :=
  if epoch_truthy epoch
     && negb (match epoch with
              | Some e => (0 <=? e) && (e <? epochs self)
              | None => false
              end)
  then Raise ValueError
  else
    let cleaned := true in
    let out_files := out_files self w in
    let epoch_lbl :=
      match epoch with
      | Some e => if epoch_truthy epoch then "." +:+ str_of_int e
                  else EmptyString
      | None => EmptyString
      end in
    let cleaned :=
      if listed ("weights" +:+ epoch_lbl +:+ ".pkl") out_files then false
      else cleaned in
    let cleaned :=
      if String.eqb (train_cmd self) "train_nn" then
        if listed ("reconstruct" +:+ epoch_lbl +:+ ".mrc") out_files
        then false else cleaned
      else if String.eqb (train_cmd self) "train_vae" then
        if listed ("z" +:+ epoch_lbl +:+ ".pkl") out_files
        then false else cleaned
      else cleaned in
    Ok cleaned.

(** [list(range(n))] *)
Definition range (n : Z) : list Z := seqZ 0 n.

(** [any(f(x) for x in l)]: stops at the first true answer. *)
Fixpoint any_of {A} (f : A -> result bool) (l : list A) : result bool :=
  match l with
  | [] => Ok false
  | x :: rest =>
      match f x with
      | Raise e => Raise e
      | Ok true => Ok true
      | Ok false => any_of f rest
      end
  end.

Definition all_files_present (self : TrainDir) (w : fxworld) : result bool :=
  match any_of (fun epoch => epoch_cleaned self epoch w)
          (map Some (range (epochs self)) ++ [None]) with
  | Raise e => Raise e
  | Ok b => Ok (negb b)
  end.

Definition set_epochs (self : TrainDir) (n : Z) : TrainDir :=
  {| dataset := dataset self;
     train_cmd := train_cmd self;
     epochs := n;
     out_lbl := out_lbl self;
     outdir := outdir self;
     orig_cache := orig_cache self;
     particles := particles self;
     poses := poses self |}.

(** The method returns the object and the world as it leaves them,
    with [Ok tt] or the exception raised. *)
Definition train_load_epoch (self : TrainDir) (load_epoch train_epochs : Z)
    (w : fxworld) : TrainDir * fxworld * result unit :=
  if negb ((0 <=? load_epoch) && (load_epoch <? epochs self))
  then (self, w, Raise ValueError)
  else
    let cmd :=
      "cryodrgn " +:+ train_cmd self +:+ " " +:+ particles self
      +:+ " -o " +:+ outdir self +:+ " "
      +:+ "--poses " +:+ poses self +:+ " --no-amp -n="
      +:+ str_of_int train_epochs +:+ " "
      +:+ "--load "
      +:+ os_path_join (outdir self)
            ("weights." +:+ str_of_int load_epoch +:+ ".pkl")
      +:+ " " in
    let cmd :=
      if String.eqb (train_cmd self) "train_vae"
      then cmd +:+ "--zdim=8 --tdim=16 --tlayers=1 "
      else if String.eqb (train_cmd self) "train_nn"
      then cmd +:+ "--dim=16 --layers=2 "
      else cmd in
    let '(w, (out, err)) := run_command cmd w in
    if negb (str_contains ") Finished in " out)
    then (self, w, Raise AssertionError)
    else
      let self := set_epochs self train_epochs in
      match all_files_present self w with
      | Raise e => (self, w, Raise e)
      | Ok false => (self, w, Raise AssertionError)
      | Ok true => (self, w, Ok tt)
      end.

(** *** The constructor, [replace_files] and [parse_request] *)

(** What [os.listdir] answers for each directory. *)
Definition listing : Type := string -> list string.

(** The environment of the fixture: the directory of the test data
    ([DATA_DIR], computed from [__file__] when the module is loaded),
    [os.path.abspath], and what [os.makedirs] and [shutil.copy] do to
    the listings, or the exception that they raise. *)
Record fxos : Type := {
  DATA_DIR : string;
  os_path_abspath : string -> string;
  os_makedirs : string -> listing -> result listing;
  shutil_copy : string -> string -> listing -> result listing
}.

Definition set_listdir (w : fxworld) (l : listing) : fxworld :=
  {| fx_listdir := l;
     fx_exec := fx_exec w;
     fx_launched := fx_launched w |}.

(** [for x in l: body(x)], on the listings. *)
Fixpoint for_each {A} (l : list A) (body : A -> listing -> result listing)
    (s : listing) : listing * result unit :=
  match l with
  | [] => (s, Ok tt)
  | x :: rest =>
      match body x s with
      | Ok s' => for_each rest body s'
      | Raise e => (s, Raise e)
      end
  end.

(** [bool(seed)] for an optional integer, [bool(out_lbl)] for an
    optional string *)
Definition seed_truthy (seed : option Z) : bool :=
  match seed with
  | None => false
  | Some n => negb (n =? 0)
  end.

Definition lbl_truthy (out_lbl : option string) : bool :=
  match out_lbl with
  | None => false
  | Some s => negb (String.eqb s EmptyString)
  end.

(** [TrainDir(dataset, train_cmd, epochs, seed, out_lbl)]: the object
    built, or the exception raised, with the world as it is left. *)
Definition __init__ (os : fxos) (dataset train_cmd : string) (epochs : Z)
    (seed : option Z) (out_lbl : option string) (w : fxworld)
    : fxworld * result TrainDir :=
  let out_lbl :=
    match out_lbl with
    | Some s => if lbl_truthy out_lbl then s
                else str_join "_" [dataset; train_cmd]
    | None => str_join "_" [dataset; train_cmd]
    end in
  let outdir := os_path_abspath os out_lbl in
  let orig_cache := os_path_join outdir "orig_cache" in
  match
    (if String.eqb dataset "toy" then
       Ok (os_path_join (DATA_DIR os) "toy_projections.mrcs",
           os_path_join (DATA_DIR os) "toy_angles.pkl")
     else if String.eqb dataset "hand" then
       Ok (os_path_join (DATA_DIR os) "hand.mrcs",
           os_path_join (DATA_DIR os) "hand_rot.pkl")
     else Raise ValueError)
  with
  | Raise e => (w, Raise e)
  | Ok (particles, poses) =>
      let self :=
        {| dataset := dataset; train_cmd := train_cmd; epochs := epochs;
           out_lbl := out_lbl; outdir := outdir; orig_cache := orig_cache;
           particles := particles; poses := poses |} in
      let cmd :=
        "cryodrgn " +:+ train_cmd +:+ " " +:+ particles
        +:+ " -o " +:+ outdir +:+ " "
        +:+ "--poses " +:+ poses +:+ " --no-amp -n="
        +:+ str_of_int epochs +:+ " " in
      let cmd :=
        if String.eqb train_cmd "train_vae"
        then cmd +:+ "--zdim=8 --tdim=16 --tlayers=1 "
        else if String.eqb train_cmd "train_nn"
        then cmd +:+ "--dim=16 --layers=2 "
        else cmd in
      let cmd :=
        match seed with
        | Some n => if seed_truthy seed
                    then cmd +:+ " --seed=" +:+ str_of_int n else cmd
        | None => cmd
        end in
      let '(w, (out, err)) := run_command cmd w in
      if negb (str_contains ") Finished in " out)
      then (w, Raise AssertionError)
      else
        match all_files_present self w with
        | Raise e => (w, Raise e)
        | Ok false => (w, Raise AssertionError)
        | Ok true =>
            let orig_files := out_files self w in
            match os_makedirs os orig_cache (fx_listdir w) with
            | Raise e => (w, Raise e)
            | Ok l =>
                let '(l, r) :=
                  for_each orig_files
                    (fun orig_file =>
                       shutil_copy os (os_path_join outdir orig_file)
                         (os_path_join orig_cache orig_file))
                    l in
                (set_listdir w l,
                 match r with Ok _ => Ok self | Raise e => Raise e end)
            end
        end
  end.

Definition replace_files (os : fxos) (self : TrainDir) (w : fxworld)
    : fxworld * result unit :=
  let '(l, r) :=
    for_each (fx_listdir w (orig_cache self))
      (fun orig_file =>
         shutil_copy os (os_path_join (orig_cache self) orig_file)
           (os_path_join (outdir self) orig_file))
      (fx_listdir w) in
  (set_listdir w l, r).

(** The values of a request are arbitrary objects; the code only
    applies [str] to them, and builds the strings, the integer and the
    [None] of the defaults. *)
Class PyAny (V : Type) : Type := {
  py_str : V -> string;
  of_str : string -> V;
  of_int : Z -> V;
  py_None : V
}.

(** A [dict] with strings for keys, in insertion order. *)
Definition pydict (V : Type) : Type := list (string * V).

(** [d[k]] where [k in d] *)
Definition dict_get {V} (d : pydict V) (k : string) : option V :=
  snd <$> find (fun kv => String.eqb (fst kv) k) d.

(** [d[k] = v] *)
Fixpoint dict_set {V} (d : pydict V) (k : string) (v : V) : pydict V :=
  match d with
  | [] => [(k, v)]
  | (k', v') :: rest =>
      if String.eqb k' k then (k, v) :: rest
      else (k', v') :: dict_set rest k v
  end.

(** [d.values()] *)
Definition dict_values {V} (d : pydict V) : list V := map snd d.

Definition parse_request {V} `{PyAny V} (req : pydict V) : pydict V :=
  let train_args : pydict V := [] in
  let train_args :=
    match dict_get req "dataset" with
    | Some v => dict_set train_args "dataset" v
    | None => dict_set train_args "dataset" (of_str "hand")
    end in
  let train_args :=
    match dict_get req "train_cmd" with
    | Some v => dict_set train_args "train_cmd" v
    | None => dict_set train_args "train_cmd" (of_str "train_nn")
    end in
  let train_args :=
    match dict_get req "epochs" with
    | Some v => dict_set train_args "epochs" v
    | None => dict_set train_args "epochs" (of_int 10)
    end in
  let train_args :=
    match dict_get req "seed" with
    | Some v => dict_set train_args "seed" v
    | None => dict_set train_args "seed" py_None
    end in
  let train_args :=
    dict_set train_args "out_lbl"
      (of_str (str_join "_" (map py_str (dict_values train_args)))) in
  train_args.

End Conftest.

Export Clean.
Export Conftest.

(** * Auxiliary definitions

    The notions in which the properties are stated, the closed forms of
    the loops that the proofs go through, the claims that the code does
    not meet, worded as the specification words them, and the inputs of
    the examples. *)

(** ** Paths and listings *)

(** [d / name] *)
Definition child (d : path) (name : string) : path := d ++ [name].

Definition paths (d : path) (ns : list string) : list path := map (child d) ns.

Definition names (l : list dirent) : list string := map d_name l.

(** [anc] is a logical ancestor of [p]: [p] extends it by at least one
    component. *)
Definition descendant (anc p : path) : Prop := ∃ rest, rest ≠ [] ∧ p = anc ++ rest.

(** The directory that a path names in a file system without links,
    as [os.path.normpath] computes it: a [..] component undoes the
    component before it, unless there is none or it is [..] itself. *)
Definition resolve_step (seen : path) (c : string) : path :=
  if String.eqb c ".." then
    match last seen with
    | Some x => if String.eqb x ".." then seen ++ [c] else removelast seen
    | None => seen ++ [c]
    end
  else seen ++ [c].

Definition resolve (p : path) : path := fold_left resolve_step p [].

(** The entries left when the names in [doomed] are gone. *)
Definition survivors (doomed : list string) (l : list dirent) : list dirent :=
  filter (fun e => d_name e ∉ doomed) l.

(** The world after [os.remove] of each name of [doomed] in [d], in
    that order. *)
Definition unlink_all (w : world) (d : path) (doomed : list string) : world :=
  fold_left (fun w n => unlink w d n) doomed w.

(** ** The retention rule *)

(** The second dot-delimited token of [name] is numeric and [int] gives
    it the value [z]. *)
Definition epoch_of (name : string) (z : Z) : Prop :=
  ∃ tok, list_index (str_split "." name) 1 = Ok tok
         ∧ isnumeric tok = true ∧ int_of_str tok = Ok z.

(** [z] is an analysis epoch of the listing [l]: some subdirectory
    whose name starts with [analyze.] has [z] for second token. *)
Definition in_analysis_set (l : list dirent) (z : Z) : Prop :=
  ∃ sub, sub ∈ l ∧ d_node sub = Dir
         ∧ str_take 8 (d_name sub) = "analyze."
         ∧ epoch_of (d_name sub) z.

Definition is_regular (e : dirent) : Prop := ∃ load, d_node e = File load.

(** [name] matches [<label>.*] for one of the four labels. *)
Definition has_label (name : string) : Prop :=
  ∃ lbl, lbl ∈ out_labels ∧ String.prefix (lbl +:+ ".") name = true.

(** The entry [e] of the listing [l] falls outside of what the
    modulus [n] retains. *)
Definition outside_rule (n : Z) (l : list dirent) (e : dirent) : Prop :=
  is_regular e ∧ has_label (d_name e)
  ∧ ∃ z, epoch_of (d_name e) z ∧ z mod n ≠ 0 ∧ ¬ in_analysis_set l z.

(** Every second token that [isnumeric] accepts is accepted by [int]
    too: it is a decimal numeral. *)
Definition decimal_epochs (l : list dirent) : bool :=
  forallb
    (fun e =>
       match list_index (str_split "." (d_name e)) 1 with
       | Ok tok => implb (isnumeric tok) (is_ok (int_of_str tok))
       | Raise _ => true
       end) l.

Definition with_dry_run (b : bool) (ns_ : Namespace) : Namespace :=
  {| outglobs := outglobs ns_;
     every_n_epochs := every_n_epochs ns_;
     force := force ns_;
     verbose := verbose ns_;
     dry_run := b |}.

(** The two lines that [clean_dir] prints. *)
Definition removed_line (k : Z) : string :=
  TAB +:+ "Removed " +:+ str_of_int k +:+ " files!".

Definition would_remove_line (k : Z) : string :=
  TAB +:+ "Would remove " +:+ str_of_int k +:+ " files!".

(** ** Closed forms of the loops of [clean_dir]

    [clean_dir] is proved equal to these, and the properties are then
    read off them. *)

(** What the condition of the inner loop gives for the name [n], in a
    directory that lists [l]. *)
Definition fate (args : pyargs) (analysis : gset Z) (l : list dirent)
    (n : string) : result bool :=
  match list_index (str_split "." n) 1 with
  | Raise e => Raise e
  | Ok epoch =>
      match lookup_entry n l with
      | Some (File _) => outside_retention args analysis epoch
      | _ => Ok false
      end
  end.

(** The names removed by a pass over [ns], in order, and the exception
    that stops the pass, if one does. *)
Fixpoint plan (phi : string -> result bool) (ns : list string)
    : list string * option exn :=
  match ns with
  | [] => ([], None)
  | n :: rest =>
      match phi n with
      | Raise e => ([], Some e)
      | Ok false => plan phi rest
      | Ok true => let '(doomed, o) := plan phi rest in (n :: doomed, o)
      end
  end.

(** The value of [rmv_count] after a pass that started with [c]. *)
Definition tally (c : Z) (p : list string * option exn) : result Z :=
  match snd p with
  | None => Ok (c + Z.of_nat (length (fst p)))
  | Some e => Raise e
  end.

(** The names that [d.glob] yields for one label, and for all of them
    in turn. *)
Definition snap (lbl : string) (l : list dirent) : list string :=
  filter (fun n => String.prefix (lbl +:+ ".") n = true) (names l).

Definition schedule (labels : list string) (l : list dirent) : list string :=
  flat_map (fun lbl => snap lbl l) labels.

(** No name matches two labels. *)
Definition exclusive (labels : list string) : Prop :=
  ∀ l1 l2 n, l1 ∈ labels → l2 ∈ labels →
    String.prefix (l1 +:+ ".") n = true → String.prefix (l2 +:+ ".") n = true →
    l1 = l2.

Definition doomed_plan (args : pyargs) (A : gset Z) (l : list dirent)
    : list string * option exn :=
  plan (fate args A l) (schedule out_labels l).

(** The set comprehension, one name at a time. *)
Definition analysis_pick (l : list dirent) (n : string) (acc : gset Z)
    : result (gset Z) :=
  match lookup_entry n l with
  | Some Dir =>
      if String.eqb (str_take 8 n) "analyze." then
        match list_index (str_split "." n) 1 with
        | Raise e => Raise e
        | Ok tok =>
            if isnumeric tok then
              match int_of_str tok with
              | Raise e => Raise e
              | Ok z => Ok ({[ z ]} ∪ acc)
              end
            else Ok acc
        end
      else Ok acc
  | _ => Ok acc
  end.

Fixpoint analysis_fold (l : list dirent) (ns : list string) (acc : gset Z)
    : result (gset Z) :=
  match ns with
  | [] => Ok acc
  | n :: rest =>
      match analysis_pick l n acc with
      | Raise e => Raise e
      | Ok acc' => analysis_fold l rest acc'
      end
  end.

Definition analysis_of (l : list dirent) : result (gset Z) :=
  analysis_fold l (names l) ∅.

(** ** The classifier *)

(** The candidate names, in the order in which they are tried. *)
Definition priority : list string :=
  ["config.yaml"; "config.yml"; "configs.yaml"; "configs.yml"].

Definition cand_name (p : string * string) : string :=
  str_join EmptyString [p.1; p.2].

(** [name] is a regular file of the listing. *)
Definition regular (l : list dirent) (name : string) : Prop :=
  ∃ load, lookup_entry name l = Some (File load).

(** [c] is the first candidate that is a regular file. *)
Definition selected (l : list dirent) (c : string) : Prop :=
  ∃ i, priority !! i = Some c ∧ regular l c
       ∧ ∀ j c', (j < i)%nat → priority !! j = Some c' → ¬ regular l c'.

(** What [check_open_config] returns, from what loading the selected
    file gives. *)
Definition config_outcome (load : result pyval) : result pyval :=
  match load with
  | Raise e => if caught_by NORMAL_EXCEPTIONS e then Ok PNone else Raise e
  | Ok v =>
      match not_cryodrgn v with
      | Raise e => Raise e
      | Ok true => Ok (PDict [])
      | Ok false => Ok v
      end
  end.

(** A non-empty mapping. *)
Definition recognized (cfg : pyval) : Prop := ∃ kv kvs, cfg = PDict (kv :: kvs).

(** The failures of parsing and of decoding a YAML file that no class
    of [NORMAL_EXCEPTIONS] covers: [yaml.YAMLError] from the parser,
    [ValueError] and [UnicodeDecodeError] from decoding the bytes and
    the scalars. *)
Definition parse_failure (e : exn) : bool :=
  issubclass e YAMLError || issubclass e ValueError.

(** The set [dir_files], one name at a time. *)
Fixpoint file_names (l : list dirent) (ns : list string) (acc : gset string)
    : gset string :=
  match ns with
  | [] => acc
  | n :: rest =>
      file_names l rest
        (match lookup_entry n l with
         | Some (File _) => {[ n ]} ∪ acc
         | _ => acc
         end)
  end.

(** ** Traces *)

Definition is_open (ev : event) : Prop := ∃ p, ev = EvOpen p.

Definition is_scan (ev : event) : Prop := ∃ d cfg, ev = EvScan d cfg.

Definition no_scan (t : list event) : Prop := Forall (fun ev => ¬ is_scan ev) t.

(** The text with which [_prompt_dir] asks about [d]. *)
Definition prompt_of (d : path) : string :=
  str_join EmptyString
    ["`"; path_str d; " "; "is a cryoDRGN directory";
     ", enter 1) " +:+ DQUOTE +:+ "(s)kip" +:+ DQUOTE
     +:+ " or 2) any other key to clean:"].

(** The events of cleaning [d]: removals of entries of [d], the prompt
    about [d], and printed lines. *)
Definition clean_event (d : path) (ev : event) : Prop :=
  match ev with
  | EvRemove p => ∃ n, p = child d n
  | EvInput prompt _ => prompt = prompt_of d
  | EvPrint _ => True
  | EvOpen _ | EvScan _ _ => False
  end.

Definition quiet_event (ev : event) : Prop :=
  match ev with
  | EvPrint _ => True
  | _ => False
  end.

(** [w'] is [w] with more events, all of them in [P]. *)
Definition extends (P : event → Prop) (w w' : world) : Prop :=
  ∃ new, w_trace w' = new ++ w_trace w ∧ Forall P new.

(** The events that must be accounted for by a classification. *)
Definition accountable (ev : event) : Prop :=
  match ev with
  | EvRemove _ | EvInput _ _ => True
  | _ => False
  end.

(** The latest classification before [ev] is that of the directory on
    which [ev] acts, and it recognized the directory. *)
Definition justified (ev : event) (older : list event) : Prop :=
  ∃ d cfg quiet rest,
    older = quiet ++ EvScan d cfg :: rest
    ∧ no_scan quiet ∧ recognized cfg ∧ clean_event d ev.

(** Every accountable event of [t] is justified by what precedes it in
    [t] and in [ctx]. *)
Fixpoint safe_in (ctx : list event) (t : list event) : Prop :=
  match t with
  | [] => True
  | ev :: older =>
      (accountable ev → justified ev (older ++ ctx)) ∧ safe_in ctx older
  end.

(** The classifications of a trace, the latest first. *)
Fixpoint scans (t : list event) : list (path * pyval) :=
  match t with
  | [] => []
  | EvScan d cfg :: older => (d, cfg) :: scans older
  | _ :: older => scans older
  end.

(** No directory is classified after an ancestor of it was recognized. *)
Definition ordered (l : list (path * pyval)) : Prop :=
  ∀ l1 x l2 y l3, l = l1 ++ x :: l2 ++ y :: l3 →
    truthy y.2 = true → ¬ descendant y.1 x.1.

(** The events of one turn of the loop of [main], on [cur]. *)
Definition turn_shape (cur : path) (new : list event) (r : result pyval) : Prop :=
  (Forall is_open new ∧ ∃ e, r = Raise e)
  ∨ ∃ cfg pre post,
      new = pre ++ EvScan cur cfg :: post
      ∧ Forall is_open post
      ∧ Forall (clean_event cur) pre
      ∧ (truthy cfg = false → Forall quiet_event pre)
      ∧ (truthy cfg = true → recognized cfg)
      ∧ (∀ v, r = Ok v → v = cfg).

Definition is_dir_at (w : world) (p : path) : Prop :=
  match stat w p with Some Dir => true | _ => false end = true.

#[local] Instance is_dir_at_dec w p : Decision (is_dir_at w p).
Proof. unfold is_dir_at. apply _. Defined.

(** ** The fixture *)

(** The files that the training tool writes for epoch 0. *)
Definition epoch0_files : list string :=
  ["weights.0.pkl"; "reconstruct.0.mrc"; "z.0.pkl"].

(** ** Three claims, as the specification words them *)

(** The analysis epoch set: the integers [z] for which a subdirectory
    named [analyze.z] exists. *)
Definition stated_analysis_set (l : list dirent) (z : Z) : Prop :=
  ∃ sub, sub ∈ l ∧ d_node sub = Dir
         ∧ d_name sub = "analyze." +:+ str_of_int z.

(** A checkpoint file is deleted if and only if its epoch is not evenly
    divisible by [N] and is not in the analysis epoch set. *)
Definition retention_as_stated (w : world) (d : path) (ns_ : Namespace)
    : Prop :=
  ∀ e z, e ∈ w_iterdir w d → is_regular e → has_label (d_name e) →
    epoch_of (d_name e) z →
    e ∉ w_iterdir (clean_dir d (ArgsNamespace ns_) w).1 d
    ↔ ¬ (every_n_epochs ns_ | z) ∧ ¬ stated_analysis_set (w_iterdir w d) z.

(** Classification returns an empty mapping, and no exception escapes. *)
Definition absorbed_as_stated (w : world) (d : path) : Prop :=
  ∃ w', check_open_config d w = (w', Ok (PDict [])).




(** ** Inputs of the examples *)

Definition ex_file (name : string) : dirent :=
  {| d_name := name; d_node := File (Ok PNone) |}.

Definition ex_config (name : string) (load : result pyval) : dirent :=
  {| d_name := name; d_node := File load |}.

Definition ex_subdir (name : string) : dirent :=
  {| d_name := name; d_node := Dir |}.

(** A world whose directory [run] holds the given entries. *)
Definition ex_world (entries : list dirent) : world :=
  {| w_iterdir := fun p => if decide (p = ["run"]) then entries else [];
     w_glob := fun _ => Ok [];
     w_cwd := ["/"; "home"];
     w_stdin := [];
     w_trace := [] |}.

Definition ex_args (n : Z) (dry : bool) : Namespace :=
  {| outglobs := []; every_n_epochs := n; force := true; verbose := 0;
     dry_run := dry |}.

(** [weights.0.pkl] to [weights.9.pkl] *)
Definition ex_ten_epochs : list dirent :=
  map (fun e => ex_file ("weights." +:+ str_of_int e +:+ ".pkl")) (seqZ 0 10).

Definition ex_mixed : world :=
  ex_world [ex_file "weights.4.pkl"; ex_file "weights.5.pkl";
            ex_file "z.7.pkl"; ex_file "pose.8.pkl"; ex_subdir "analyze.7"].

Definition ex_good_config : pyval :=
  PDict [(PStr "cmd", PList [PStr "/usr/bin/cryodrgn"; PStr "train_nn"]);
         (PStr "dataset_args", PDict [(PStr "particles", PStr "hand.mrcs")])].

(** A directory with two candidates that are regular files, and a
    subdirectory that bears the name of the first candidate. *)
Definition ex_two_configs : list dirent :=
  [ex_config "configs.yaml" (Ok ex_good_config);
   ex_config "config.yml" (Raise EOFError);
   ex_subdir "config.yaml"].

(** Two output directories, one inside the other, and a directory
    whose configuration is an empty mapping. *)
Definition ex_tree (p : path) : list dirent :=
  if decide (p = []) then [ex_subdir "a"; ex_subdir "b"; ex_file "notes.txt"]
  else if decide (p = ["a"]) then
    [ex_config "config.yaml" (Ok ex_good_config); ex_file "weights.1.pkl";
     ex_file "weights.5.pkl"; ex_subdir "sub"]
  else if decide (p = ["a"; "sub"]) then
    [ex_config "config.yaml" (Ok ex_good_config); ex_file "weights.2.pkl"]
  else if decide (p = ["b"]) then
    [ex_config "configs.yml" (Ok (PDict [])); ex_file "weights.2.pkl"]
  else [].

Definition ex_scan_world (answers : list string) : world :=
  {| w_iterdir := ex_tree;
     w_glob := fun g =>
       if String.eqb g "**" then Ok [[]; ["b"]; ["a"]; ["a"; "sub"]]
       else if String.eqb g "*.txt" then Ok [["notes.txt"]]
       else Ok [];
     w_cwd := ["/"; "home"];
     w_stdin := answers;
     w_trace := [] |}.

Definition ex_scan_args (globs : list string) (f : bool) : Namespace :=
  {| outglobs := globs; every_n_epochs := 5; force := f; verbose := 1;
     dry_run := false |}.

(** The same tree, in which a path with [..] components lists the
    directory that it names, and two patterns without wildcards:
    [Path().glob] yields the path of such a pattern as it is written. *)
Definition ex_alias_world : world :=
  {| w_iterdir := fun p => ex_tree (resolve p);
     w_glob := fun g =>
       if String.eqb g "a" then Ok [["a"]]
       else if String.eqb g "b/../a/sub" then Ok [["b"; ".."; "a"; "sub"]]
       else Ok [];
     w_cwd := ["/"; "home"];
     w_stdin := [];
     w_trace := [] |}.

(** A configuration file that cannot be read. *)
Definition ex_unreadable : list dirent :=
  [ex_config "config.yaml" (Raise OSError)].

Definition ex_traindir : TrainDir :=
  {| dataset := "hand"; train_cmd := "train_nn"; epochs := 10;
     out_lbl := "hand_train_nn"; outdir := "/tmp/hand_train_nn";
     orig_cache := "/tmp/hand_train_nn/orig_cache";
     particles := "data/hand.mrcs"; poses := "data/hand_rot.pkl" |}.

(** A world of the fixture in which the training tool writes nothing. *)
Definition ex_fxworld (files : list string) : fxworld :=
  {| fx_listdir := fun _ => files;
     fx_exec := fun _ listdir => ((EmptyString, EmptyString), listdir);
     fx_launched := [] |}.

(** ** Notions of the further properties *)

(** The namespace [ns_] with [n] for [every_n_epochs]. *)
Definition with_every_n_epochs (n : Z) (ns_ : Namespace) : Namespace :=
  {| outglobs := outglobs ns_;
     every_n_epochs := n;
     force := force ns_;
     verbose := verbose ns_;
     dry_run := dry_run ns_ |}.

(** The entry has a name of the form [<label>.<epoch>...], with a
    numeric epoch. *)
Definition checkpoint (e : dirent) : Prop :=
  is_regular e ∧ has_label (d_name e) ∧ ∃ z, epoch_of (d_name e) z.

(** [w'] is [w] but for the trace. *)
Definition untouched (w w' : world) : Prop :=
  w_iterdir w' = w_iterdir w ∧ w_glob w' = w_glob w
  ∧ w_cwd w' = w_cwd w ∧ w_stdin w' = w_stdin w.

(** [w'] is [w] but for the listing of [d] and the trace. *)
Definition untouched_outside (d : path) (w w' : world) : Prop :=
  (∀ q, q ≠ d → w_iterdir w' q = w_iterdir w q) ∧ w_glob w' = w_glob w
  ∧ w_cwd w' = w_cwd w ∧ w_stdin w' = w_stdin w.

(** The event is a line of input read at a prompt. *)
Definition is_input (ev : event) : Prop :=
  ∃ prompt answer, ev = EvInput prompt answer.

(** The world once [input] has read one line. *)
Definition consume (prompt answer : string) (rest : list string) (w : world)
    : world :=
  {| w_iterdir := w_iterdir w;
     w_glob := w_glob w;
     w_cwd := w_cwd w;
     w_stdin := rest;
     w_trace := EvInput prompt answer :: w_trace w |}.

(** The answers with which the user declines. *)
Definition declines (answer : string) : Prop := answer = "s" ∨ answer = "skip".

(** [p] is a directory that one of the patterns yields. *)
Definition matched (args : Namespace) (w : world) (p : path) : Prop :=
  ∃ g ps, g ∈ outglobs args ∧ w_glob w g = Ok ps ∧ p ∈ ps ∧ stat w p = Some Dir.

(** The line that [_prompt_dir] prints about [d]. *)
Definition status_line (d : path) (maxlen : Z) (msg : string) : string :=
  str_join EmptyString
    [str_ljust (maxlen + 2) (str_join EmptyString ["`"; path_str d; "`"]); msg].

(** The value of the generator under [set(...)]: the directories that
    the patterns yield, in order, or the exception of the first pattern
    on which [glob] raises. *)
Fixpoint collect_from (w : world) (outglobs : list string) (acc : list path)
    : result (list path) :=
  match outglobs with
  | [] => Ok acc
  | g :: rest =>
      match w_glob w g with
      | Ok ps => collect_from w rest (acc ++ filter (is_dir_at w) ps)
      | Raise e => Raise e
      end
  end.

(** [w'] is [w] after events that read no input. *)
Definition no_prompt (w w' : world) : Prop :=
  w_stdin w' = w_stdin w ∧ extends (fun ev => ¬ is_input ev) w w'.

(** When every line of input left in [w] declines, [w'] has the files
    of [w] and every line left in it declines too. *)
Definition declined (w w' : world) : Prop :=
  Forall declines (w_stdin w) →
  w_iterdir w' = w_iterdir w ∧ Forall declines (w_stdin w').

(** The name under which the training tool writes the output [stem] of
    epoch [e]. *)
Definition epoch_file (stem : string) (e : Z) (ext : string) : string :=
  stem +:+ ("." +:+ str_of_int e) +:+ ext.

(** The outputs of epoch [e] that the fixture looks for. *)
Definition epoch_files (e : Z) : list string :=
  [epoch_file "weights" e ".pkl"; epoch_file "reconstruct" e ".mrc";
   epoch_file "z" e ".pkl"].

(** One of the files that [epoch_cleaned] looks for under the label
    [epoch_lbl] is listed. *)
Definition epoch_present (self : TrainDir) (files : list string)
    (epoch_lbl : string) : bool :=
  listed ("weights" +:+ epoch_lbl +:+ ".pkl") files
  || String.eqb (train_cmd self) "train_nn"
     && listed ("reconstruct" +:+ epoch_lbl +:+ ".mrc") files
  || String.eqb (train_cmd self) "train_vae"
     && listed ("z" +:+ epoch_lbl +:+ ".pkl") files.
(** The label under which [epoch_cleaned] looks for the files of
    [epoch]. *)
Definition label_of (epoch : option Z) : string :=
  match epoch with
  | Some e => if e =? 0 then EmptyString else "." +:+ str_of_int e
  | None => EmptyString
  end.

(** What the properties ask of [shutil.copy]: when it copies one of
    the [files] from [src] to [dst] and returns, the file is listed in
    [dst], and what was listed in [dst] still is. *)
Definition copy_lists (os : fxos) (src dst : string) (files : list string)
    : Prop :=
  ∀ f l l',
    f ∈ files →
    shutil_copy os (os_path_join src f) (os_path_join dst f) l = Ok l' →
    f ∈ l' dst ∧ ∀ g, g ∈ l dst → g ∈ l' dst.

(** ** Inputs of the further examples *)

(** A world whose current directory holds [weights.0.pkl] to
    [weights.9.pkl]. *)
Definition ex_cwd_world : world :=
  {| w_iterdir := fun p => if decide (p = ["/"; "home"]) then ex_ten_epochs else [];
     w_glob := fun _ => Ok [];
     w_cwd := ["/"; "home"];
     w_stdin := [];
     w_trace := [] |}.

(** The world of [ex_scan_world], in which [glob] raises on the
    pattern [.], as it does in [pathlib]. *)
Definition ex_dot_world : world :=
  {| w_iterdir := ex_tree;
     w_glob := fun g =>
       if String.eqb g "." then Raise IndexError
       else w_glob (ex_scan_world []) g;
     w_cwd := ["/"; "home"];
     w_stdin := [];
     w_trace := [] |}.

(** A directory whose configuration file is empty. *)
Definition ex_empty_config : list dirent :=
  [ex_config "config.yaml" (Ok PNone); ex_file "weights.1.pkl"].

(** [os.path.split] on a path with a directory part. *)
Fixpoint ex_split (s : string) : option (string * string) :=
  match s with
  | EmptyString => None
  | String c s' =>
      match ex_split s' with
      | Some (d, b) => Some (String c d, b)
      | None => if Ascii.eqb c "/" then Some (EmptyString, s') else None
      end
  end.

(** An environment in which [os.makedirs] and [shutil.copy] list the
    new entry in its directory. *)
Definition ex_add (p : string) (l : listing) : result listing :=
  match ex_split p with
  | Some (d, b) =>
      Ok (fun dir => if String.eqb dir d then b :: l dir else l dir)
  | None => Raise FileNotFoundError
  end.

Definition ex_fxos : fxos :=
  {| DATA_DIR := "/repo/tests/../testing/data";
     os_path_abspath := fun p => "/tmp/" +:+ p;
     os_makedirs := ex_add;
     shutil_copy := fun _ dst => ex_add dst |}.

(** The output directory of [ex_traindir] after a cleaning, with its
    cache. *)
Definition ex_cached_world : fxworld :=
  {| fx_listdir := fun dir =>
       if String.eqb dir "/tmp/hand_train_nn"
       then ["weights.pkl"; "orig_cache"]
       else if String.eqb dir "/tmp/hand_train_nn/orig_cache"
       then ["weights.pkl"; "weights.1.pkl"]
       else [];
     fx_exec := fun _ listdir => ((EmptyString, EmptyString), listdir);
     fx_launched := [] |}.

(** A world in which the training tool writes the weights of two
    epochs and reports success. *)
Definition ex_train_world : fxworld :=
  {| fx_listdir := fun _ => [];
     fx_exec := fun _ listdir =>
       ((") Finished in 0:00:07", EmptyString),
        fun dir =>
          if String.eqb dir "/tmp/hand_train_nn"
          then ["weights.pkl"; "weights.1.pkl"]
          else listdir dir);
     fx_launched := [] |}.

(** * Properties *)

(** ** [clean_dir]: the loops and their closed forms *)

Lemma path_split_child d n : path_split (child d n) = Some (d, n).
Proof.
  unfold child. induction d as [|c d IH]; [reflexivity|].
  simpl. rewrite IH. destruct (d ++ [n]) eqn:E; [|reflexivity].
  destruct d; discriminate.
Qed.

Lemma path_name_child d n : path_name (child d n) = n.
Proof. unfold path_name, child. by rewrite last_snoc. Qed.

Lemma stat_child w d n : stat w (child d n) = lookup_entry n (w_iterdir w d).
Proof. unfold stat. by rewrite path_split_child. Qed.

Lemma lookup_remove_ne n m l :
  n ≠ m → lookup_entry m (remove_entry n l) = lookup_entry m l.
Proof.
  intros Hne. unfold lookup_entry, remove_entry. f_equal.
  induction l as [|e l IH]; [reflexivity|].
  rewrite filter_cons. simpl.
  destruct (String.eqb_spec (d_name e) n) as [->|Hn].
  - rewrite decide_False by done.
    destruct (String.eqb_spec n m); [done|]. apply IH.
  - rewrite decide_True by done. simpl.
    destruct (String.eqb (d_name e) m); [reflexivity|apply IH].
Qed.

Lemma clean_file_step args A d n c w :
  clean_file args A (child d n) c w =
  match fate args A (w_iterdir w d) n with
  | Raise e => (w, Raise e)
  | Ok false => (w, Ok c)
  | Ok true =>
      match get_dry_run args with
      | Raise e => (w, Raise e)
      | Ok true => (w, Ok (c + 1))
      | Ok false => (unlink w d n, Ok (c + 1))
      end
  end.
Proof.
  unfold clean_file, fate, second_token, must_remove, bind, lift, is_file, ret.
  rewrite path_name_child, stat_child.
  destruct (list_index _ 1) as [epoch|e]; [|reflexivity].
  destruct (lookup_entry n (w_iterdir w d)) as [[load| |]|] eqn:Hl; try reflexivity.
  destruct (outside_retention args A epoch) as [[|]|e]; try reflexivity.
  destruct (get_dry_run args) as [[|]|e]; try reflexivity.
  simpl. unfold os_remove. rewrite path_split_child, Hl. reflexivity.
Qed.

Lemma plan_ext phi psi ns :
  (∀ n, n ∈ ns → phi n = psi n) → plan phi ns = plan psi ns.
Proof.
  induction ns as [|n ns IH]; intros H; [reflexivity|].
  simpl. rewrite <- (H n) by left.
  rewrite IH; [reflexivity|]. intros m Hm. apply H. by right.
Qed.

Lemma fate_remove_ne args A l n m :
  n ≠ m → fate args A (remove_entry n l) m = fate args A l m.
Proof. intros H. unfold fate. by rewrite lookup_remove_ne. Qed.

Lemma plan_doomed_sub phi ns n : n ∈ (plan phi ns).1 → n ∈ ns ∧ phi n = Ok true.
Proof.
  induction ns as [|m ns IH]; simpl; [by intros ?%elem_of_nil|].
  destruct (phi m) as [[|]|e] eqn:E.
  - destruct (plan phi ns) as [D o]. simpl in *.
    intros [->|H]%elem_of_cons; [split; [left|done]|].
    destruct (IH H). split; [by right|done].
  - intros H. destruct (IH H). split; [by right|done].
  - by intros ?%elem_of_nil.
Qed.

Section InnerLoop.
Context (d : path) (A : gset Z).

Lemma unlink_iterdir_d w n :
  w_iterdir (unlink w d n) d = remove_entry n (w_iterdir w d).
Proof. simpl. by rewrite decide_True. Qed.

(** not in dry-run: the files that the plan dooms are unlinked *)
Lemma sweep_wet ns_ args ns c w :
  args = ArgsNamespace ns_ → dry_run ns_ = false → NoDup ns →
  for_in (paths d ns) (clean_file args A) c w =
  let p := plan (fate args A (w_iterdir w d)) ns in
  (unlink_all w d p.1, tally c p).
Proof.
  intros -> Hdry. revert c w.
  induction ns as [|n ns IH]; intros c w Hnd.
  { simpl. unfold ret, tally. simpl. by rewrite Z.add_0_r. }
  apply NoDup_cons in Hnd as [Hn Hnd].
  simpl. unfold bind. rewrite clean_file_step. simpl. rewrite Hdry.
  destruct (fate _ A (w_iterdir w d) n) as [[|]|e] eqn:E.
  - rewrite IH by done. rewrite unlink_iterdir_d.
    rewrite (plan_ext _ (fate (ArgsNamespace ns_) A (w_iterdir w d))).
    2:{ intros m Hm. apply fate_remove_ne. intros ->. done. }
    destruct (plan _ ns) as [D o]. simpl. unfold tally. simpl.
    destruct o; [reflexivity|]. do 2 f_equal. lia.
  - by rewrite IH.
  - reflexivity.
Qed.

(** in dry-run, and when [args] has no attribute [dry_run]: nothing is done *)
Lemma sweep_dry ns_ ns c w :
  dry_run ns_ = true →
  for_in (paths d ns) (clean_file (ArgsNamespace ns_) A) c w =
  (w, tally c (plan (fate (ArgsNamespace ns_) A (w_iterdir w d)) ns)).
Proof.
  intros Hdry. revert c.
  induction ns as [|n ns IH]; intros c.
  { simpl. unfold ret, tally. simpl. by rewrite Z.add_0_r. }
  simpl. unfold bind. rewrite clean_file_step. simpl. rewrite Hdry.
  destruct (fate _ A (w_iterdir w d) n) as [[|]|e] eqn:E.
  - rewrite IH. destruct (plan _ ns) as [D o]. unfold tally. simpl.
    destruct o; [reflexivity|]. do 2 f_equal. lia.
  - by rewrite IH.
  - reflexivity.
Qed.

Lemma fate_int_never n0 l n : fate (ArgsInt n0) A l n ≠ Ok true.
Proof.
  unfold fate. destruct (list_index _ 1) as [epoch|]; [|done].
  destruct (lookup_entry n l) as [[| |]|]; try done.
  unfold outside_retention. destruct (negb (isnumeric epoch)); [done|].
  destruct (int_of_str epoch); done.
Qed.

Lemma sweep_int n0 ns c w :
  ∃ r, for_in (paths d ns) (clean_file (ArgsInt n0) A) c w = (w, r).
Proof.
  revert c. induction ns as [|n ns IH]; intros c; [by eexists|].
  simpl. unfold bind. rewrite clean_file_step.
  pose proof (fate_int_never n0 (w_iterdir w d) n) as Hne.
  destruct (fate _ A (w_iterdir w d) n) as [[|]|e]; [done|apply IH|by eexists].
Qed.
End InnerLoop.

Lemma for_in_app {A S} (l1 l2 : list A) (body : A → S → M S) s w :
  for_in (l1 ++ l2) body s w = bind (for_in l1 body s) (for_in l2 body) w.
Proof.
  revert s w. induction l1 as [|x l1 IH]; intros s w; simpl.
  - reflexivity.
  - unfold bind in *. destruct (body x s w) as [w' [s'|e]]; [|reflexivity].
    by rewrite IH.
Qed.

Lemma remove_entry_survivors n l : remove_entry n l = survivors [n] l.
Proof.
  unfold remove_entry, survivors. apply list_filter_iff. intros e.
  rewrite list_elem_of_singleton.
  destruct (String.eqb_spec (d_name e) n); split; congruence.
Qed.

Lemma survivors_survivors D1 D2 l :
  survivors D2 (survivors D1 l) = survivors (D1 ++ D2) l.
Proof.
  unfold survivors. rewrite list_filter_filter. apply list_filter_iff.
  intros e. rewrite elem_of_app. tauto.
Qed.

Lemma survivors_nil l : survivors [] l = l.
Proof.
  unfold survivors. induction l as [|e l IH]; [done|].
  rewrite filter_cons_True by apply not_elem_of_nil. by rewrite IH.
Qed.

Section Unlink.
Context (d : path).

Lemma unlink_all_cons n D w :
  unlink_all w d (n :: D) = unlink_all (unlink w d n) d D.
Proof. reflexivity. Qed.

Lemma unlink_all_iterdir_d D w :
  w_iterdir (unlink_all w d D) d = survivors D (w_iterdir w d).
Proof.
  revert w. induction D as [|n D IH]; intros w.
  - by rewrite survivors_nil.
  - rewrite unlink_all_cons, IH, unlink_iterdir_d, remove_entry_survivors.
    apply survivors_survivors.
Qed.

Lemma unlink_all_iterdir_ne D w q :
  q ≠ d → w_iterdir (unlink_all w d D) q = w_iterdir w q.
Proof.
  intros Hq. revert w. induction D as [|n D IH]; intros w; [done|].
  rewrite unlink_all_cons, IH. simpl. by rewrite decide_False.
Qed.

End Unlink.

Lemma glob_label_snap d lbl w :
  glob_label d lbl w = (w, Ok (paths d (snap lbl (w_iterdir w d)))).
Proof.
  unfold glob_label, bind, iterdir, ret, paths, snap, names. do 2 f_equal.
  induction (w_iterdir w d) as [|e l IH]; [reflexivity|].
  simpl. rewrite !filter_cons. fold (child d (d_name e)).
  rewrite path_name_child.
  destruct (decide (String.prefix (lbl +:+ ".") (d_name e) = true));
    simpl; by rewrite IH.
Qed.

Lemma names_survivors D l :
  names (survivors D l) = filter (fun n => n ∉ D) (names l).
Proof.
  unfold names, survivors. induction l as [|e l IH]; [done|].
  simpl. rewrite !filter_cons. destruct (decide (d_name e ∉ D)); simpl; by rewrite IH.
Qed.

Lemma snap_survivors lbl D l :
  (∀ n, n ∈ D → String.prefix (lbl +:+ ".") n = false) →
  snap lbl (survivors D l) = snap lbl l.
Proof.
  intros H. unfold snap. rewrite names_survivors, list_filter_filter.
  apply list_filter_iff. intros n. split; [tauto|].
  intros Hp. split; [done|]. intros Hn. apply H in Hn. congruence.
Qed.

(** whatever [args] is, the inner loop only unlinks names it was given *)
Lemma sweep_frame d A args ns c w :
  NoDup ns →
  ∃ D, D ⊆ ns ∧ (for_in (paths d ns) (clean_file args A) c w).1 = unlink_all w d D.
Proof.
  intros Hnd. destruct args as [ns_|n0].
  - destruct (dry_run ns_) eqn:Hdry.
    + exists []. split; [apply list_subseteq_nil|]. by rewrite sweep_dry.
    + eexists. rewrite (sweep_wet d A ns_) by done. simpl. split; [|reflexivity].
      intros n Hn. by apply plan_doomed_sub in Hn as [? _].
  - exists []. split; [apply list_subseteq_nil|].
    by destruct (sweep_int d A n0 ns c w) as [r ->].
Qed.

Lemma names_NoDup_survivors D l : NoDup (names l) → NoDup (names (survivors D l)).
Proof. intros H. rewrite names_survivors. by apply NoDup_filter. Qed.

Lemma snap_NoDup lbl l : NoDup (names l) → NoDup (snap lbl l).
Proof. intros H. by apply NoDup_filter. Qed.

Lemma snap_prefix lbl l n : n ∈ snap lbl l → String.prefix (lbl +:+ ".") n = true ∧ n ∈ names l.
Proof. unfold snap. by intros ?%list_elem_of_filter. Qed.

Lemma schedule_survivors labels D l :
  (∀ lbl n, lbl ∈ labels → n ∈ D → String.prefix (lbl +:+ ".") n = false) →
  schedule labels (survivors D l) = schedule labels l.
Proof.
  induction labels as [|lbl labels IH]; intros H; [reflexivity|].
  simpl. rewrite snap_survivors, IH; [reflexivity| |].
  - intros l' n Hl' Hn. apply H; [by right|done].
  - intros n Hn. apply H; [left|done].
Qed.

Lemma flatten d A args labels c w :
  NoDup labels → exclusive labels → NoDup (names (w_iterdir w d)) →
  for_in labels
    (fun out_lbl rmv_count =>
       bind (glob_label d out_lbl)
         (fun out_fls => for_in out_fls (clean_file args A) rmv_count)) c w
  = for_in (paths d (schedule labels (w_iterdir w d))) (clean_file args A) c w.
Proof.
  revert c w. induction labels as [|lbl labels IH]; intros c w Hl Hex Hnd.
  { reflexivity. }
  apply NoDup_cons in Hl as [Hlbl Hl].
  simpl. unfold paths. rewrite map_app. rewrite for_in_app.
  unfold bind at 1 2 4. rewrite glob_label_snap.
  destruct (sweep_frame d A args (snap lbl (w_iterdir w d)) c w) as (D & HD & Hw).
  { by apply snap_NoDup. }
  fold (paths d (snap lbl (w_iterdir w d))).
  destruct (for_in (paths d (snap lbl _)) _ c w) as [w1 [c1|e]]; [|reflexivity].
  simpl in Hw. subst w1.
  rewrite IH.
  - rewrite unlink_all_iterdir_d.
    rewrite schedule_survivors; [reflexivity|].
    intros l' n Hl' Hn.
    apply HD, snap_prefix in Hn as [Hn _].
    destruct (String.prefix (l' +:+ ".") n) eqn:E; [|reflexivity].
    exfalso. apply Hlbl.
    rewrite (Hex lbl l' n); [done|left|by right|done|done].
  - done.
  - intros l1 l2 n H1 H2. apply Hex; by right.
  - rewrite unlink_all_iterdir_d. by apply names_NoDup_survivors.
Qed.

Lemma out_labels_NoDup : NoDup out_labels.
Proof. by apply (bool_decide_unpack _); vm_compute. Qed.

Lemma prefix_first a s n :
  String.prefix (String a s) n = true → ∃ t, n = String a t.
Proof.
  destruct n as [|b t]; cbn [String.prefix]; [discriminate|].
  destruct (ascii_dec a b) as [->|]; [by eexists|discriminate].
Qed.

Lemma out_labels_exclusive : exclusive out_labels.
Proof.
  intros l1 l2 n H1 H2 P1 P2.
  unfold out_labels in *.
  repeat (apply elem_of_cons in H1 as [->|H1]); [| | | |by apply elem_of_nil in H1];
  repeat (apply elem_of_cons in H2 as [->|H2]); try reflexivity;
    try (by apply elem_of_nil in H2);
    apply prefix_first in P1 as [t1 ->]; apply prefix_first in P2 as [t2 P2];
    discriminate.
Qed.

Lemma plan_ok phi ns :
  (plan phi ns).2 = None →
  (plan phi ns).1 = filter (fun n => phi n = Ok true) ns
  ∧ ∀ n, n ∈ ns → is_ok (phi n) = true.
Proof.
  induction ns as [|n ns IH]; simpl.
  { intros _. split; [done|]. by intros n ?%elem_of_nil. }
  destruct (phi n) as [[|]|e] eqn:E; simpl.
  - destruct (plan phi ns) as [D o]. simpl in *. intros ->.
    destruct IH as [-> IH]; [done|].
    rewrite filter_cons_True by done. split; [done|].
    intros m [->|Hm]%elem_of_cons; [by rewrite E|by apply IH].
  - intros Ho. destruct (IH Ho) as [-> IH'].
    rewrite filter_cons_False by (rewrite E; discriminate). split; [done|].
    intros m [->|Hm]%elem_of_cons; [by rewrite E|by apply IH'].
  - discriminate.
Qed.

Lemma plan_total phi ns :
  (∀ n, n ∈ ns → is_ok (phi n) = true) → (plan phi ns).2 = None.
Proof.
  induction ns as [|n ns IH]; intros H; [done|]. simpl.
  pose proof (H n ltac:(left)) as Hn.
  destruct (phi n) as [[|]|e]; [| |done].
  - destruct (plan phi ns) eqn:E. simpl in *. apply IH. intros m Hm. apply H. by right.
  - apply IH. intros m Hm. apply H. by right.
Qed.

Lemma filter_iff_in {A} (P Q : A → Prop) `{!∀ x, Decision (P x)}
    `{!∀ x, Decision (Q x)} (l : list A) :
  (∀ x, x ∈ l → (P x ↔ Q x)) → filter P l = filter Q l.
Proof.
  induction l as [|a l IH]; intros Hpq; [done|].
  rewrite !filter_cons.
  assert (filter P l = filter Q l) as ->.
  { apply IH. intros x Hx. apply Hpq. by right. }
  pose proof (Hpq a ltac:(left)) as Ha.
  destruct (decide (P a)), (decide (Q a)); tauto.
Qed.

Lemma plan_replay phi ns :
  NoDup ns →
  plan phi (filter (fun n => n ∉ (plan phi ns).1) ns) = ([], (plan phi ns).2).
Proof.
  induction ns as [|n ns IH]; intros Hnd; [done|].
  apply NoDup_cons in Hnd as [Hn Hnd]. specialize (IH Hnd).
  cbn [plan]. destruct (phi n) as [[|]|e] eqn:E.
  - destruct (plan phi ns) as [D o] eqn:P. cbn [fst snd] in *.
    rewrite filter_cons_False by (intros Hx; apply Hx; left).
    rewrite <- IH. f_equal. apply filter_iff_in.
    intros m Hm. rewrite not_elem_of_cons. split; [tauto|].
    intros Hx. split; [|done]. by intros ->.
  - rewrite filter_cons_True.
    + cbn [plan]. by rewrite E.
    + intros Hx%plan_doomed_sub. by destruct Hx.
  - cbn [fst snd]. rewrite filter_cons_True by apply not_elem_of_nil.
    cbn [plan]. by rewrite E.
Qed.

Lemma analysis_step_pick d n acc w :
  analysis_step (child d n) acc w = (w, analysis_pick (w_iterdir w d) n acc).
Proof.
  unfold analysis_step, analysis_pick, bind, is_dir, lift, ret, second_token.
  rewrite stat_child, path_name_child.
  destruct (lookup_entry n (w_iterdir w d)) as [[| |]|]; try reflexivity.
  simpl. destruct (String.eqb (str_take 8 n) "analyze."); [|reflexivity].
  simpl. destruct (list_index (str_split "." n) 1) as [tok|]; [|reflexivity].
  destruct (isnumeric tok); [|reflexivity].
  simpl. destruct (int_of_str tok); reflexivity.
Qed.

Lemma analysis_loop d ns acc w :
  for_in (paths d ns) analysis_step acc w
  = (w, analysis_fold (w_iterdir w d) ns acc).
Proof.
  revert acc. induction ns as [|n ns IH]; intros acc; [reflexivity|].
  simpl. unfold bind. rewrite analysis_step_pick.
  destruct (analysis_pick (w_iterdir w d) n acc); [apply IH|reflexivity].
Qed.

Lemma iterdir_paths d w : iterdir d w = (w, Ok (paths d (names (w_iterdir w d)))).
Proof. unfold iterdir, paths, names. by rewrite map_map. Qed.

Lemma analysis_epochs_of d w :
  analysis_epochs d w = (w, analysis_of (w_iterdir w d)).
Proof.
  unfold analysis_epochs, bind. rewrite iterdir_paths. apply analysis_loop.
Qed.

Lemma schedule_NoDup labels l :
  NoDup labels → exclusive labels → NoDup (names l) → NoDup (schedule labels l).
Proof.
  intros Hl Hex Hn. induction labels as [|lbl labels IH]; [constructor|].
  apply NoDup_cons in Hl as [Hlbl Hl]. simpl. apply NoDup_app. split_and!.
  - by apply snap_NoDup.
  - intros n [Hp _]%snap_prefix Hin. unfold schedule in Hin.
    apply list_elem_of_In, in_flat_map in Hin as (l' & Hl' & Hn').
    apply list_elem_of_In in Hl', Hn'. apply snap_prefix in Hn' as [Hp' _].
    apply Hlbl. rewrite (Hex lbl l' n); [done|left|by right|done|done].
  - apply IH; [done|]. intros l1 l2 n H1 H2. apply Hex; by right.
Qed.

Section CleanDir.
Context (d : path) (w : world).
Let L := w_iterdir w d.
Hypothesis Hnd : NoDup (names L).

Lemma clean_dir_wet ns_ :
  dry_run ns_ = false →
  clean_dir d (ArgsNamespace ns_) w =
  match analysis_of L with
  | Raise e => (w, Raise e)
  | Ok A =>
      let p := doomed_plan (ArgsNamespace ns_) A L in
      match p.2 with
      | Some e => (unlink_all w d p.1, Raise e)
      | None =>
          (log (EvPrint (removed_line (Z.of_nat (length p.1))))
             (unlink_all w d p.1), Ok tt)
      end
  end.
Proof.
  intros Hdry. unfold clean_dir. unfold bind at 1.
  rewrite analysis_epochs_of. fold L.
  destruct (analysis_of L) as [A|e]; [|reflexivity].
  unfold bind at 1. rewrite flatten by (apply out_labels_NoDup || apply out_labels_exclusive || done).
  rewrite (sweep_wet d A ns_) by (done || by apply schedule_NoDup; [apply out_labels_NoDup|apply out_labels_exclusive|]).
  fold L. fold (doomed_plan (ArgsNamespace ns_) A L).
  destruct (doomed_plan (ArgsNamespace ns_) A L) as [D [e|]]; cbn -[unlink_all]; [reflexivity|].
  rewrite Hdry. reflexivity.
Qed.

Lemma clean_dir_dry ns_ :
  dry_run ns_ = true →
  clean_dir d (ArgsNamespace ns_) w =
  match analysis_of L with
  | Raise e => (w, Raise e)
  | Ok A =>
      let p := doomed_plan (ArgsNamespace ns_) A L in
      match p.2 with
      | Some e => (w, Raise e)
      | None =>
          (log (EvPrint (would_remove_line (Z.of_nat (length p.1)))) w, Ok tt)
      end
  end.
Proof.
  intros Hdry. unfold clean_dir. unfold bind at 1.
  rewrite analysis_epochs_of. fold L.
  destruct (analysis_of L) as [A|e]; [|reflexivity].
  unfold bind at 1. rewrite flatten by (apply out_labels_NoDup || apply out_labels_exclusive || done).
  rewrite (sweep_dry d A ns_) by done.
  fold L. fold (doomed_plan (ArgsNamespace ns_) A L).
  destruct (doomed_plan (ArgsNamespace ns_) A L) as [D [e|]]; cbn; [reflexivity|].
  rewrite Hdry. reflexivity.
Qed.

Lemma clean_dir_int n0 : ∃ e, clean_dir d (ArgsInt n0) w = (w, Raise e).
Proof.
  unfold clean_dir. unfold bind at 1.
  rewrite analysis_epochs_of. fold L.
  destruct (analysis_of L) as [A|e]; [|by eexists].
  unfold bind at 1. rewrite flatten by (apply out_labels_NoDup || apply out_labels_exclusive || done).
  destruct (sweep_int d A n0 (schedule out_labels (w_iterdir w d)) 0 w) as [r ->].
  destruct r; by eexists.
Qed.
End CleanDir.

Lemma lookup_entry_Some n l nd :
  lookup_entry n l = Some nd → {| d_name := n; d_node := nd |} ∈ l.
Proof.
  unfold lookup_entry. induction l as [|e l IH]; [done|]. simpl.
  destruct (String.eqb_spec (d_name e) n) as [<-|Hne]; simpl.
  - intros [= <-]. destruct e. left.
  - intros H. right. by apply IH.
Qed.

Lemma lookup_entry_elem l e :
  NoDup (names l) → e ∈ l → lookup_entry (d_name e) l = Some (d_node e).
Proof.
  unfold lookup_entry. induction l as [|x l IH]; [by intros _ ?%elem_of_nil|].
  simpl. intros [Hx Hnd]%NoDup_cons [->|He]%elem_of_cons.
  - by rewrite String.eqb_refl.
  - destruct (String.eqb_spec (d_name x) (d_name e)) as [Heq|Hne]; [|by apply IH].
    exfalso. apply Hx. rewrite Heq. unfold names. apply list_elem_of_fmap. by exists e.
Qed.

Lemma elem_of_schedule labels l n :
  n ∈ schedule labels l ↔
  n ∈ names l ∧ ∃ lbl, lbl ∈ labels ∧ String.prefix (lbl +:+ ".") n = true.
Proof.
  unfold schedule. rewrite list_elem_of_In, in_flat_map. split.
  - intros (lbl & Hl & Hn). apply list_elem_of_In in Hl, Hn.
    apply snap_prefix in Hn as [? ?]. eauto.
  - intros (Hn & lbl & Hl & Hp). exists lbl. rewrite <- !list_elem_of_In.
    split; [done|]. unfold snap. by apply list_elem_of_filter.
Qed.

Lemma analysis_pick_spec l n acc A z :
  analysis_pick l n acc = Ok A →
  z ∈ A ↔ z ∈ acc ∨ (lookup_entry n l = Some Dir
                      ∧ str_take 8 n = "analyze." ∧ epoch_of n z).
Proof.
  unfold analysis_pick, epoch_of.
  assert (∀ P : Prop, ¬ P → z ∈ acc ↔ z ∈ acc ∨ P) as skip by tauto.
  destruct (lookup_entry n l) as [[| |]|];
    try (intros [= <-]; apply skip; intros (? & _); congruence).
  destruct (String.eqb_spec (str_take 8 n) "analyze.");
    [|intros [= <-]; apply skip; tauto].
  destruct (list_index (str_split "." n) 1) as [tok|]; [|done].
  destruct (isnumeric tok) eqn:Hnum.
  2:{ intros [= <-]. apply skip. intros (_ & _ & tok' & [= <-] & ? & _). congruence. }
  destruct (int_of_str tok) as [z'|] eqn:Hint; [|done].
  intros [= <-]. rewrite elem_of_union, elem_of_singleton. split.
  - intros [->|?]; [right|by left]. split_and!; [done..|]. by exists tok.
  - intros [?|(_ & _ & tok' & [= <-] & _ & Hz)]; [by right|left]. congruence.
Qed.

Lemma analysis_fold_spec l ns acc A z :
  analysis_fold l ns acc = Ok A →
  z ∈ A ↔ z ∈ acc ∨ ∃ n, n ∈ ns ∧ lookup_entry n l = Some Dir
                          ∧ str_take 8 n = "analyze." ∧ epoch_of n z.
Proof.
  revert acc. induction ns as [|n ns IH]; intros acc; simpl.
  { intros [= <-]. split; [by left|]. intros [?|(n & ?%elem_of_nil & _)]; done. }
  destruct (analysis_pick l n acc) as [acc'|] eqn:Hp; [|done].
  intros H. rewrite (IH _ H), (analysis_pick_spec _ _ _ _ z Hp). split.
  - intros [[?|?]|(m & ? & ?)]; [by left|right; exists n|right; exists m];
      (split; [|done]); [left|by right].
  - intros [?|(m & [->|?]%elem_of_cons & ?)];
      [left; by left|left; by right|right; by exists m].
Qed.

Lemma analysis_of_spec l A z :
  NoDup (names l) → analysis_of l = Ok A → z ∈ A ↔ in_analysis_set l z.
Proof.
  intros Hnd H. unfold analysis_of in H.
  rewrite (analysis_fold_spec _ _ _ _ z H). unfold in_analysis_set. split.
  - intros [?%elem_of_empty|(n & Hn & Hl & ? & ?)]; [done|].
    apply lookup_entry_Some in Hl. eexists. split; [exact Hl|]. done.
  - intros (sub & Hs & Hd & ? & ?). right. exists (d_name sub). split_and!; try done.
    + unfold names. apply list_elem_of_fmap. by exists sub.
    + rewrite <- Hd. by apply lookup_entry_elem.
Qed.

Lemma fate_true_iff ns_ A l e :
  NoDup (names l) → e ∈ l →
  fate (ArgsNamespace ns_) A l (d_name e) = Ok true ↔
  is_regular e
  ∧ ∃ z, epoch_of (d_name e) z ∧ every_n_epochs ns_ ≠ 0
         ∧ z mod every_n_epochs ns_ ≠ 0 ∧ z ∉ A.
Proof.
  intros Hnd He. unfold fate, epoch_of, is_regular.
  rewrite (lookup_entry_elem l e Hnd He).
  destruct (list_index (str_split "." (d_name e)) 1) as [tok|err].
  2:{ split; [done|]. intros (_ & z & (tok & ? & _) & _). done. }
  destruct (d_node e) as [load| |].
  2,3: split; [done|]; intros ((load & ?) & _); done.
  unfold outside_retention, int_mod. simpl.
  destruct (isnumeric tok) eqn:Hnum; simpl.
  2:{ split; [done|]. intros (_ & z & (tok' & [= <-] & ? & _) & _). congruence. }
  destruct (int_of_str tok) as [z|err] eqn:Hint.
  2:{ split; [done|]. intros (_ & z & (tok' & [= <-] & _ & ?) & _). congruence. }
  destruct (Z.eqb_spec (every_n_epochs ns_) 0) as [H0|H0].
  { split; [done|]. intros (_ & z' & _ & ? & _). done. }
  destruct (Z.eqb_spec (z mod every_n_epochs ns_) 0) as [Hm|Hm].
  { split; [done|]. intros (_ & z' & (tok' & [= <-] & _ & Hz) & _ & ? & _). congruence. }
  split.
  - intros [= Hb]. apply bool_decide_eq_true in Hb.
    split; [by eexists|]. exists z. split_and!; try done. by exists tok.
  - intros (_ & z' & (tok' & [= <-] & _ & Hz) & _ & _ & Hn).
    f_equal. apply bool_decide_eq_true. congruence.
Qed.

(** the retention rule, for the runs that return *)
Lemma clean_dir_rule w d ns_ w' :
  NoDup (names (w_iterdir w d)) → dry_run ns_ = false →
  clean_dir d (ArgsNamespace ns_) w = (w', Ok tt) →
  ∀ e, e ∈ w_iterdir w d →
    e ∉ w_iterdir w' d ↔ outside_rule (every_n_epochs ns_) (w_iterdir w d) e.
Proof.
  intros Hnd Hdry Hrun e He. rewrite clean_dir_wet in Hrun by done.
  destruct (analysis_of (w_iterdir w d)) as [A|] eqn:HA; [|done].
  cbn zeta in Hrun.
  destruct (doomed_plan _ A _) as [D o] eqn:Hp. cbn [fst snd] in Hrun.
  destruct o; [done|]. injection Hrun as <-.
  unfold doomed_plan in Hp.
  pose proof (plan_ok (fate (ArgsNamespace ns_) A (w_iterdir w d))
                (schedule out_labels (w_iterdir w d))) as Hok.
  rewrite Hp in Hok. destruct (Hok eq_refl) as [HD Hall]. cbn [fst] in HD.
  cbn [log w_iterdir]. rewrite unlink_all_iterdir_d.
  unfold survivors. rewrite list_elem_of_filter.
  transitivity (d_name e ∈ D).
  { split; [|tauto]. intros H. destruct (decide (d_name e ∈ D)); tauto. }
  rewrite HD, list_elem_of_filter, elem_of_schedule.
  rewrite fate_true_iff by done. unfold outside_rule, has_label.
  split.
  - intros ((Hreg & z & Hz & _ & Hm & Hn) & _ & Hlbl).
    split_and!; try done. exists z. split_and!; try done.
    by rewrite <- (analysis_of_spec _ A z Hnd HA).
  - intros (Hreg & Hlbl & z & Hz & Hm & Hn).
    assert (d_name e ∈ names (w_iterdir w d)) as Hin.
    { unfold names. apply list_elem_of_fmap. by exists e. }
    split_and!; try done. exists z. split_and!; try done.
    + intros H0.
      assert (d_name e ∈ schedule out_labels (w_iterdir w d)) as Hs
        by by apply elem_of_schedule.
      apply Hall in Hs. unfold fate in Hs.
      rewrite (lookup_entry_elem _ e Hnd He) in Hs.
      destruct Hz as (tok & Htok & Hnum & Hint). destruct Hreg as [load Hreg].
      rewrite Htok, Hreg in Hs.
      unfold outside_retention in Hs. rewrite Hnum, Hint in Hs. simpl in Hs.
      unfold int_mod in Hs. rewrite H0 in Hs. simpl in Hs. done.
    + by rewrite (analysis_of_spec _ A z Hnd HA).
Qed.

Lemma str_split_nonempty sep s : str_split sep s ≠ [].
Proof.
  destruct s as [|c s]; simpl; [done|].
  destruct (Ascii.eqb c sep); [done|]. by destruct (str_split sep s).
Qed.

Lemma str_split_second s n :
  String.prefix (s +:+ ".") n = true →
  ∃ tok, list_index (str_split "." n) 1 = Ok tok.
Proof.
  revert n. induction s as [|a s IH]; intros n Hp.
  - apply prefix_first in Hp as [t ->]. simpl.
    pose proof (str_split_nonempty "." t).
    unfold list_index. destruct (str_split "." t) as [|x xs]; [done|]. by eexists.
  - change (String a s +:+ ".") with (String a (s +:+ ".")) in Hp.
    pose proof Hp as Hp'.
    apply prefix_first in Hp' as [t ->]. cbn [String.prefix] in Hp.
    destruct (ascii_dec a a); [|done]. destruct (IH t Hp) as [tok Htok].
    cbn [str_split]. unfold list_index in *.
    destruct (Ascii.eqb a "."); destruct (str_split "." t) as [|x [|y ys]]; try done;
      by eexists.
Qed.

Lemma take_prefix p n :
  substring 0 (String.length p) n = p → String.prefix p n = true.
Proof.
  revert n. induction p as [|a p IH]; intros n; [by destruct n|].
  destruct n as [|b t]; [done|]. cbn [String.length substring String.prefix].
  intros [= -> H]. destruct (ascii_dec a a); [by apply IH|done].
Qed.

Lemma elem_of_names l n : n ∈ names l ↔ ∃ e, e ∈ l ∧ d_name e = n.
Proof.
  unfold names. rewrite list_elem_of_fmap.
  split; intros (e & ? & ?); by exists e.
Qed.

Lemma decimal_epochs_elem l e tok :
  decimal_epochs l = true → e ∈ l →
  list_index (str_split "." (d_name e)) 1 = Ok tok → isnumeric tok = true →
  ∃ z, int_of_str tok = Ok z.
Proof.
  unfold decimal_epochs. rewrite forallb_forall. intros H He Ht Hn.
  apply list_elem_of_In, H in He. rewrite Ht, Hn in He. simpl in He.
  destruct (int_of_str tok); [by eexists|done].
Qed.

Lemma analysis_of_total l :
  decimal_epochs l = true → ∃ A, analysis_of l = Ok A.
Proof.
  intros Hdec. unfold analysis_of.
  assert (∀ n, n ∈ names l → n ∈ names l) as Hsub by done.
  revert Hsub. generalize (∅ : gset Z). generalize (names l) at 1 3.
  intros ns. induction ns as [|n ns IH]; intros acc Hsub; [by eexists|].
  simpl.
  assert (∃ acc', analysis_pick l n acc = Ok acc') as [acc' ->].
  { unfold analysis_pick.
    destruct (lookup_entry n l) as [[| |]|]; try by eexists.
    destruct (String.eqb_spec (str_take 8 n) "analyze."); [|by eexists].
    destruct (str_split_second "analyze" n) as [tok Htok].
    { by apply (take_prefix "analyze."). }
    rewrite Htok. destruct (isnumeric tok) eqn:Hnum; [|by eexists].
    assert (n ∈ names l) as (x & Hx & <-)%elem_of_names by (apply Hsub; left).
    destruct (decimal_epochs_elem l x tok) as [z ->]; by eauto. }
  apply IH. intros m Hm. apply Hsub. by right.
Qed.

Lemma fate_total ns_ A l n :
  every_n_epochs ns_ ≠ 0 → decimal_epochs l = true →
  n ∈ schedule out_labels l →
  is_ok (fate (ArgsNamespace ns_) A l n) = true.
Proof.
  intros HN Hdec (Hn & lbl & _ & Hp)%elem_of_schedule.
  apply elem_of_names in Hn as (e & He & <-).
  destruct (str_split_second _ _ Hp) as [tok Htok].
  unfold fate. rewrite Htok.
  destruct (lookup_entry (d_name e) l) as [[| |]|]; try done.
  unfold outside_retention. destruct (isnumeric tok) eqn:Hnum; [|done]. simpl.
  destruct (decimal_epochs_elem l e tok) as [z ->]; [done..|].
  unfold int_mod. destruct (Z.eqb_spec (every_n_epochs ns_) 0); [done|].
  by destruct (_ =? 0).
Qed.

Lemma clean_dir_returns w d ns_ :
  NoDup (names (w_iterdir w d)) → dry_run ns_ = false →
  every_n_epochs ns_ ≠ 0 → decimal_epochs (w_iterdir w d) = true →
  ∃ w', clean_dir d (ArgsNamespace ns_) w = (w', Ok tt).
Proof.
  intros Hnd Hdry HN Hdec. rewrite clean_dir_wet by done.
  destruct (analysis_of_total _ Hdec) as [A ->]. cbn zeta.
  unfold doomed_plan. rewrite plan_total; [by eexists|].
  intros n Hn. by apply fate_total.
Qed.

Lemma clean_dir_only_removes w d args w' r :
  NoDup (names (w_iterdir w d)) →
  clean_dir d args w = (w', r) →
  (∀ q, q ≠ d → w_iterdir w' q = w_iterdir w q)
  ∧ w_iterdir w' d `sublist_of` w_iterdir w d.
Proof.
  intros Hnd Hrun. destruct args as [ns_|n0].
  - destruct (dry_run ns_) eqn:Hdry.
    + rewrite clean_dir_dry in Hrun by done.
      destruct (analysis_of _); [|by injection Hrun as <- <-].
      cbn zeta in Hrun. destruct (doomed_plan _ _ _).2; by injection Hrun as <- <-.
    + rewrite clean_dir_wet in Hrun by done.
      destruct (analysis_of _); [|by injection Hrun as <- <-].
      cbn zeta in Hrun.
      destruct (doomed_plan _ _ _) as [D [e|]]; cbn [fst snd] in Hrun;
        injection Hrun as <- <-; cbn [log w_iterdir];
        (split; [intros q Hq; by apply unlink_all_iterdir_ne|]);
        rewrite unlink_all_iterdir_d; apply sublist_filter.
  - destruct (clean_dir_int d w Hnd n0) as [e He].
    rewrite He in Hrun. by injection Hrun as <- <-.
Qed.


Lemma doomed_plan_sub args A l n :
  n ∈ (doomed_plan args A l).1 →
  n ∈ names l ∧ ∃ load, lookup_entry n l = Some (File load).
Proof.
  intros [Hs Hf]%plan_doomed_sub. apply elem_of_schedule in Hs as [Hn _].
  split; [done|]. unfold fate in Hf.
  destruct (list_index _ 1); [|done].
  destruct (lookup_entry n l) as [[| |]|]; try done. by eexists.
Qed.

Lemma plan_NoDup phi ns : NoDup ns → NoDup (plan phi ns).1.
Proof.
  induction ns as [|n ns IH]; intros Hnd; [constructor|].
  apply NoDup_cons in Hnd as [Hn Hnd]. cbn [plan].
  destruct (phi n) as [[|]|e]; [| by apply IH | constructor].
  pose proof (plan_doomed_sub phi ns n) as Hsub.
  destruct (plan phi ns) as [D o]. cbn [fst] in *.
  apply NoDup_cons. split; [|by apply IH]. intros HD. by destruct (Hsub HD).
Qed.

Lemma survivors_length D l :
  NoDup (names l) → NoDup D → D ⊆ names l →
  (length (survivors D l) + length D = length l)%nat.
Proof.
  intros Hnd HD Hsub.
  pose proof (filter_app_complement (fun e => d_name e ∉ D) l) as Hperm.
  apply Permutation_length in Hperm. rewrite length_app in Hperm.
  fold (survivors D l) in Hperm.
  assert (length (filter (fun e => ¬ (d_name e ∉ D)) l) = length D) as <-; [|lia].
  rewrite <- (length_fmap d_name). apply Permutation_length.
  apply NoDup_Permutation; [|done|].
  - apply (NoDup_fmap_2_strong d_name); [|by eapply NoDup_filter, NoDup_fmap_1].
    intros x y [_ Hx]%list_elem_of_filter [_ Hy]%list_elem_of_filter Heq.
    assert (lookup_entry (d_name x) l = Some (d_node x)) as H1 by by apply lookup_entry_elem.
    assert (lookup_entry (d_name y) l = Some (d_node y)) as H2 by by apply lookup_entry_elem.
    rewrite Heq in H1. destruct x, y. simpl in *. congruence.
  - intros n. rewrite list_elem_of_fmap. split.
    + intros (e & -> & [He _]%list_elem_of_filter). by apply dec_stable.
    + intros Hn. pose proof (Hsub n Hn) as (e & He & <-)%elem_of_names.
      exists e. split; [done|]. apply list_elem_of_filter. split; [|done]. by intros ?.
Qed.

Lemma lookup_survivors D l n :
  n ∉ D → lookup_entry n (survivors D l) = lookup_entry n l.
Proof.
  intros Hn. unfold lookup_entry, survivors. f_equal.
  induction l as [|e l IH]; [done|]. rewrite filter_cons. simpl.
  destruct (decide (d_name e ∉ D)) as [Hin|Hin]; simpl.
  - by rewrite IH.
  - destruct (String.eqb_spec (d_name e) n) as [Heq|]; [|done].
    subst n. done.
Qed.

Lemma snap_filter lbl D l :
  snap lbl (survivors D l) = filter (fun n => n ∉ D) (snap lbl l).
Proof.
  unfold snap. rewrite names_survivors, !list_filter_filter.
  apply list_filter_iff. tauto.
Qed.

Lemma schedule_filter labels D l :
  schedule labels (survivors D l) = filter (fun n => n ∉ D) (schedule labels l).
Proof.
  induction labels as [|lbl labels IH]; [done|].
  simpl. by rewrite filter_app, snap_filter, IH.
Qed.

Lemma analysis_fold_survivors D l ns acc :
  (∀ n, n ∈ D → lookup_entry n l ≠ Some Dir) →
  analysis_fold (survivors D l) (filter (fun n => n ∉ D) ns) acc
  = analysis_fold l ns acc.
Proof.
  intros HD. revert acc. induction ns as [|n ns IH]; intros acc; [done|].
  rewrite filter_cons. destruct (decide (n ∉ D)) as [Hn|Hn]; simpl.
  - replace (analysis_pick (survivors D l) n acc) with (analysis_pick l n acc)
      by (unfold analysis_pick; by rewrite lookup_survivors).
    destruct (analysis_pick l n acc); [apply IH|done].
  - apply dec_stable in Hn. apply HD in Hn. rewrite IH.
    unfold analysis_pick. destruct (lookup_entry n l) as [[| |]|]; done.
Qed.

Lemma analysis_survivors D l :
  (∀ n, n ∈ D → lookup_entry n l ≠ Some Dir) →
  analysis_of (survivors D l) = analysis_of l.
Proof.
  intros HD. unfold analysis_of. rewrite names_survivors.
  by apply analysis_fold_survivors.
Qed.

Lemma doomed_plan_again args A l :
  NoDup (names l) →
  doomed_plan args A (survivors (doomed_plan args A l).1 l)
  = ([], (doomed_plan args A l).2).
Proof.
  intros Hnd. unfold doomed_plan. rewrite schedule_filter.
  rewrite <- plan_replay
    by (apply schedule_NoDup; [apply out_labels_NoDup|apply out_labels_exclusive|done]).
  apply plan_ext. intros n [Hn _]%list_elem_of_filter.
  unfold fate. by rewrite lookup_survivors.
Qed.

(** Claim C1, as amended. In a directory whose entry names are distinct,
    [clean_dir] outside of dry-run returns normally whenever the modulus
    is not zero and every numeric second token is a decimal numeral;
    and whenever it returns normally, it only removes entries, and an
    entry is removed if and only if it is a regular file whose name
    starts with one of the labels [weights], [z], [pose], [reconstruct]
    and a dot, whose second dot-delimited token is numeric with value
    [z], such that [z % N != 0] and [z] is not an analysis epoch. The
    analysis epochs are the values of the numeric second tokens of the
    subdirectories whose names start with [analyze.]. Files whose epoch
    is a multiple of [N] or an analysis epoch, and files whose second
    token is not numeric, are therefore kept. *)
Theorem clean_dir_retention_rule (w : world) (d : path) (ns_ : Namespace) :
  NoDup (names (w_iterdir w d)) →
  dry_run ns_ = false →
  (every_n_epochs ns_ ≠ 0 → decimal_epochs (w_iterdir w d) = true →
   ∃ w', clean_dir d (ArgsNamespace ns_) w = (w', Ok tt))
  ∧ ∀ w', clean_dir d (ArgsNamespace ns_) w = (w', Ok tt) →
      w_iterdir w' d `sublist_of` w_iterdir w d
      ∧ ∀ e, e ∈ w_iterdir w d →
          e ∉ w_iterdir w' d
          ↔ outside_rule (every_n_epochs ns_) (w_iterdir w d) e.
Proof.
  intros Hnd Hdry. split.
  - intros. by apply clean_dir_returns.
  - intros w' Hrun. split.
    + by destruct (clean_dir_only_removes _ _ _ _ _ Hnd Hrun).
    + by apply clean_dir_rule.
Qed.


(** Claim C5. In a directory whose entry names are distinct, running
    [clean_dir] outside of dry-run a second time with the same
    arguments removes nothing: the file system is left as the first run
    left it; after a first run that returned, the second returns and
    prints [Removed 0 files!]; after a first run that raised, the second
    raises the same exception and does nothing. *)
Theorem clean_dir_idempotent (w : world) (d : path) (ns_ : Namespace) :
  NoDup (names (w_iterdir w d)) →
  dry_run ns_ = false →
  let first := clean_dir d (ArgsNamespace ns_) w in
  let second := clean_dir d (ArgsNamespace ns_) first.1 in
  w_iterdir second.1 = w_iterdir first.1
  ∧ (first.2 = Ok tt →
     second = (log (EvPrint (removed_line 0)) first.1, Ok tt))
  ∧ (∀ e, first.2 = Raise e → second = (first.1, Raise e)).
Proof.
  intros Hnd Hdry first second. subst first second.
  rewrite (clean_dir_wet d w) by done.
  destruct (analysis_of (w_iterdir w d)) as [A|e] eqn:HA.
  2:{ cbn [fst snd]. rewrite clean_dir_wet, HA by done. split_and!; try done.
      by intros e' [= <-]. }
  cbn zeta.
  pose proof (doomed_plan_again (ArgsNamespace ns_) A _ Hnd) as Hagain.
  pose proof (doomed_plan_sub (ArgsNamespace ns_) A (w_iterdir w d)) as Hsub.
  destruct (doomed_plan (ArgsNamespace ns_) A (w_iterdir w d)) as [D o] eqn:Hp.
  cbn [fst snd] in *.
  assert (analysis_of (survivors D (w_iterdir w d)) = Ok A) as HA'.
  { rewrite analysis_survivors; [done|]. intros n Hn.
    destruct (Hsub n Hn) as (_ & load & ->). done. }
  assert (NoDup (names (survivors D (w_iterdir w d)))) as Hnd'
    by by apply names_NoDup_survivors.
  destruct o as [e|]; cbn [fst snd].
  - rewrite clean_dir_wet by (by rewrite ?unlink_all_iterdir_d).
    rewrite unlink_all_iterdir_d, HA'. cbn zeta.
    rewrite Hagain. cbn [fst snd]. split_and!; try done. by intros e' [= <-].
  - rewrite clean_dir_wet by (by cbn [log w_iterdir]; rewrite ?unlink_all_iterdir_d).
    cbn [log w_iterdir].
    rewrite unlink_all_iterdir_d, HA'. cbn zeta.
    rewrite Hagain. cbn [fst snd]. done.
Qed.

(** ** [check_open_config] *)

Lemma dir_files_loop d ns acc w :
  for_in (paths d ns) dir_files_step acc w
  = (w, Ok (file_names (w_iterdir w d) ns acc)).
Proof.
  revert acc. induction ns as [|n ns IH]; intros acc; [reflexivity|].
  simpl. unfold bind at 1. unfold dir_files_step at 1, bind, is_file, ret.
  rewrite stat_child, path_name_child.
  destruct (lookup_entry n (w_iterdir w d)) as [[| |]|]; apply IH.
Qed.

Lemma elem_of_file_names l ns acc n :
  n ∈ file_names l ns acc ↔ n ∈ acc ∨ (n ∈ ns ∧ regular l n).
Proof.
  revert acc. induction ns as [|m ns IH]; intros acc; simpl.
  { split; [by left|]. intros [?|[?%elem_of_nil _]]; done. }
  rewrite IH. unfold regular. rewrite elem_of_cons.
  destruct (lookup_entry m l) as [[load| |]|] eqn:Hm.
  - rewrite elem_of_union, elem_of_singleton. split.
    + intros [[->|?]|[? ?]]; [right|by left|right]; eauto.
    + intros [?|[[->|?] ?]]; [left; by right|left; by left|by right].
  - split; [intros [?|[? ?]]; [by left|right; eauto]|].
    intros [?|[[->|?] [load Hl]]]; [by left|congruence|right; eauto].
  - split; [intros [?|[? ?]]; [by left|right; eauto]|].
    intros [?|[[->|?] [load Hl]]]; [by left|congruence|right; eauto].
  - split; [intros [?|[? ?]]; [by left|right; eauto]|].
    intros [?|[[->|?] [load Hl]]]; [by left|congruence|right; eauto].
Qed.

Lemma elem_of_dir_files l n :
  n ∈ file_names l (names l) ∅ ↔ regular l n.
Proof.
  rewrite elem_of_file_names. split.
  - intros [?%elem_of_empty|[_ ?]]; done.
  - intros [load Hl]. right. split; [|by exists load].
    apply lookup_entry_Some in Hl. apply elem_of_names. by eexists.
Qed.

Lemma config_candidates_priority :
  map (fun p => str_join EmptyString [p.1; p.2]) config_candidates = priority.
Proof. reflexivity. Qed.

Lemma first_config_Some cands fs c :
  first_config cands fs = Some c ↔
  ∃ i, map cand_name cands !! i = Some c
       ∧ c ∈ fs
       ∧ ∀ j c', (j < i)%nat → map cand_name cands !! j = Some c' → c' ∉ fs.
Proof.
  induction cands as [|[lbl ext] cands IH]; cbn [first_config map].
  { split; [intros [=]|]. intros (i & Hi & _). by rewrite lookup_nil in Hi. }
  change (str_join EmptyString [lbl; ext]) with (cand_name (lbl, ext)).
  destruct (decide (cand_name (lbl, ext) ∈ fs)) as [Hin|Hin].
  - split.
    + intros [= <-]. exists 0%nat. split_and!; [done..|]. intros j c' Hj. lia.
    + intros ([|i] & Hi & Hc & Hlt); [by injection Hi as <-|].
      exfalso. by apply (Hlt 0%nat _ ltac:(lia) eq_refl).
  - rewrite IH. split.
    + intros (i & Hi & Hc & Hlt). exists (S i). split_and!; [done..|].
      intros [|j] c' Hj; [by intros [= <-]|]. apply Hlt. lia.
    + intros ([|i] & Hi & Hc & Hlt); [by injection Hi as <-|].
      exists i. split_and!; [done..|]. intros j c' Hj. apply (Hlt (S j)). lia.
Qed.

Lemma check_open_config_eq d w :
  check_open_config d w =
  match first_config config_candidates
          (file_names (w_iterdir w d) (names (w_iterdir w d)) ∅) with
  | None => (w, Ok PNone)
  | Some c =>
      match lookup_entry c (w_iterdir w d) with
      | Some (File load) => (log (EvOpen (child d c)) w, config_outcome load)
      | Some _ => (w, Raise OSError)
      | None => (w, Raise FileNotFoundError)
      end
  end.
Proof.
  unfold check_open_config. unfold bind at 1. rewrite iterdir_paths.
  unfold bind at 1. rewrite dir_files_loop.
  destruct (first_config _ _) as [c|]; [|reflexivity].
  unfold bind, try_except, load_yaml, ret, lift. fold (child d c).
  rewrite stat_child.
  destruct (lookup_entry c (w_iterdir w d)) as [[[v|e]| |]|]; try reflexivity.
  - unfold config_outcome. destruct (not_cryodrgn v) as [[|]|]; reflexivity.
  - unfold config_outcome. destruct (caught_by NORMAL_EXCEPTIONS e); reflexivity.
Qed.

Lemma selected_first_config l c :
  selected l c ↔
  first_config config_candidates (file_names l (names l) ∅) = Some c.
Proof.
  rewrite first_config_Some. unfold cand_name.
  rewrite config_candidates_priority. unfold selected.
  split; intros (i & Hi & Hc & Hlt); exists i; (split_and!; [done| |]).
  - by apply elem_of_dir_files.
  - intros j c' Hj Hc'. rewrite elem_of_dir_files. by eapply Hlt.
  - by apply elem_of_dir_files.
  - intros j c' Hj Hc'. rewrite <- elem_of_dir_files. by eapply Hlt.
Qed.

Lemma not_cryodrgn_false v : not_cryodrgn v = Ok false → recognized v.
Proof.
  unfold not_cryodrgn.
  destruct (contains_str "cmd" v) as [[|]|] eqn:Hc; try done.
  destruct v as [| | | | |kvs]; try done.
  destruct kvs as [|kv kvs]; [done|]. intros _. by repeat eexists.
Qed.

Lemma check_open_config_selected w d c load :
  selected (w_iterdir w d) c →
  lookup_entry c (w_iterdir w d) = Some (File load) →
  check_open_config d w = (log (EvOpen (child d c)) w, config_outcome load).
Proof.
  intros Hsel Hload. rewrite check_open_config_eq.
  apply selected_first_config in Hsel. by rewrite Hsel, Hload.
Qed.

(** Claim C7. The candidates enumerated by the product of
    [config, configs] and [.yaml, .yml] are, in order, [config.yaml],
    [config.yml], [configs.yaml], [configs.yml]; when [c] is the first
    of them that is a regular file of the directory,
    [check_open_config] opens [c] and no other file, and its result is
    determined by what loading [c] gives. *)
Theorem check_open_config_priority (w : world) (d : path) :
  map (fun p => str_join EmptyString [p.1; p.2])
    (list_prod ["config"; "configs"] [".yaml"; ".yml"]) = priority
  ∧ ∀ c load,
      selected (w_iterdir w d) c →
      lookup_entry c (w_iterdir w d) = Some (File load) →
      check_open_config d w
      = (log (EvOpen (child d c)) w, config_outcome load).
Proof.
  split; [reflexivity|]. intros c load. apply check_open_config_selected.
Qed.

Lemma caught_by_normal e :
  caught_by NORMAL_EXCEPTIONS e = true ↔
  e ∈ [EOFError; BufferError; UnpicklingError; ImportError;
       ModuleNotFoundError; IndexError; AttributeError].
Proof.
  split.
  - destruct e; simpl; intros H; try discriminate;
      repeat first [left|right].
  - intros H. repeat (apply elem_of_cons in H as [->|H]); try reflexivity.
    by apply elem_of_nil in H.
Qed.

(** Claim C2, as amended. When none of the four candidate names is a
    regular file of the directory, [check_open_config] returns [None]
    and opens nothing. Otherwise it opens the selected file, and: when
    loading raises an exception of one of the classes of
    [NORMAL_EXCEPTIONS] (or of a subclass), it returns [None]; when
    loading raises an exception that is neither of such a class nor a
    failure of parsing or decoding the file (an [OSError], for one),
    that exception reaches the caller; when loading gives a value for
    which the shape test answers true, it returns an empty mapping;
    when the shape test answers false, it returns the value loaded,
    which is a non-empty mapping. A truthy result is always such a
    loaded non-empty mapping. The failures of parsing and decoding
    outside of [NORMAL_EXCEPTIONS] are not covered. *)
Theorem check_open_config_absorbs (w : world) (d : path) :
  ((∀ c, c ∈ priority → ¬ regular (w_iterdir w d) c) →
   check_open_config d w = (w, Ok PNone))
  ∧ ∀ c load,
      selected (w_iterdir w d) c →
      lookup_entry c (w_iterdir w d) = Some (File load) →
      ∃ r, check_open_config d w = (log (EvOpen (child d c)) w, r)
        ∧ (∀ e, load = Raise e →
             (caught_by NORMAL_EXCEPTIONS e = true → r = Ok PNone)
             ∧ (caught_by NORMAL_EXCEPTIONS e = false →
                parse_failure e = false → r = Raise e))
        ∧ (∀ v, load = Ok v → not_cryodrgn v = Ok true → r = Ok (PDict []))
        ∧ (∀ v, load = Ok v → not_cryodrgn v = Ok false →
             r = Ok v ∧ recognized v)
        ∧ (∀ v, r = Ok v → truthy v = true → load = Ok v ∧ recognized v).
Proof.
  split.
  - intros Hnone. rewrite check_open_config_eq.
    destruct (first_config _ _) as [c|] eqn:Hf; [|done].
    apply selected_first_config in Hf as (i & Hi & Hreg & _).
    exfalso. apply (Hnone c); [|done]. by eapply list_elem_of_lookup_2.
  - intros c load Hsel Hload. eexists. split.
    { by apply check_open_config_selected. }
    unfold config_outcome. split_and!.
    + intros e ->. split; [by intros ->|]. by intros -> _.
    + by intros v -> ->.
    + intros v -> Hv. rewrite Hv. split; [done|]. by apply not_cryodrgn_false.
    + intros v. destruct load as [v'|e].
      * destruct (not_cryodrgn v') as [[|]|] eqn:Hn; [by intros [= <-]| |done].
        intros [= <-] _. split; [done|]. by apply not_cryodrgn_false.
      * destruct (caught_by _ e); [by intros [= <-]|done].
Qed.

(** ** [main]: the scan queue and the trace *)

Lemma elem_of_proper_prefixes q p : q ∈ proper_prefixes p ↔ descendant q p.
Proof.
  unfold descendant. revert q. induction p as [|c p IH]; intros q; simpl.
  - split; [by intros ?%elem_of_nil|]. intros (rest & Hr & Heq).
    symmetry in Heq. apply app_eq_nil in Heq as [_ ->]. done.
  - rewrite elem_of_cons, list_elem_of_fmap. split.
    + intros [->|(q' & -> & Hq')]; [by exists (c :: p)|].
      apply IH in Hq' as (rest & Hr & ->). by exists rest.
    + intros (rest & Hr & Heq). destruct q as [|c' q]; [by left|right].
      simpl in Heq. injection Heq as <- ->. exists q. split; [done|].
      apply IH. by exists rest.
Qed.

Lemma elem_of_parents q p : q ∈ parents p ↔ descendant q p.
Proof.
  unfold parents.
  by rewrite list_elem_of_In, <- in_rev, <- list_elem_of_In,
    elem_of_proper_prefixes.
Qed.

Lemma elem_of_next_scan_dirs cur cfg rest p :
  truthy cfg = true →
  p ∈ next_scan_dirs cur cfg rest ↔ p ∈ rest ∧ ¬ descendant cur p.
Proof.
  intros Ht. unfold next_scan_dirs, drop_descendants. rewrite Ht.
  rewrite list_elem_of_filter, elem_of_parents. tauto.
Qed.

Lemma next_scan_dirs_sub cur cfg rest p :
  p ∈ next_scan_dirs cur cfg rest → p ∈ rest.
Proof.
  unfold next_scan_dirs, drop_descendants. destruct (truthy cfg); [|done].
  by intros [_ ?]%list_elem_of_filter.
Qed.

Lemma extends_refl P w : extends P w w.
Proof. by exists []. Qed.

Lemma extends_trans P w1 w2 w3 :
  extends P w1 w2 → extends P w2 w3 → extends P w1 w3.
Proof.
  intros (n1 & H1 & F1) (n2 & H2 & F2). exists (n2 ++ n1).
  split; [by rewrite H2, H1, app_assoc|by apply Forall_app].
Qed.

Lemma extends_log (P : event → Prop) ev w : P ev → extends P w (log ev w).
Proof. intros H. exists [ev]. split; [done|by constructor]. Qed.

Lemma extends_mono (P Q : event → Prop) w w' :
  (∀ ev, P ev → Q ev) → extends P w w' → extends Q w w'.
Proof. intros H (n & ? & F). exists n. split; [done|]. eapply Forall_impl; eauto. Qed.

Section CleanEvents.
Context (d : path) (args : pyargs) (A : gset Z).

Lemma clean_file_events n c w :
  extends (clean_event d) w (clean_file args A (child d n) c w).1.
Proof.
  rewrite clean_file_step.
  destruct (fate _ _ _ _) as [[|]|]; try apply extends_refl.
  destruct (get_dry_run args) as [[|]|]; try apply extends_refl.
  exists [EvRemove (child d n)]. split; [done|]. constructor; [|done]. by exists n.
Qed.

Lemma sweep_events ns c w :
  extends (clean_event d) w (for_in (paths d ns) (clean_file args A) c w).1.
Proof.
  revert c w. induction ns as [|n ns IH]; intros c w; [apply extends_refl|].
  simpl. unfold bind. pose proof (clean_file_events n c w) as H1.
  destruct (clean_file args A (child d n) c w) as [w1 [c1|e]]; [|done].
  eapply extends_trans; [exact H1|apply IH].
Qed.

Lemma labels_events labels c w :
  extends (clean_event d) w
    (for_in labels
       (fun out_lbl rmv_count =>
          bind (glob_label d out_lbl)
            (fun out_fls => for_in out_fls (clean_file args A) rmv_count))
       c w).1.
Proof.
  revert c w. induction labels as [|lbl labels IH]; intros c w; [apply extends_refl|].
  simpl. unfold bind at 1 2. rewrite glob_label_snap.
  pose proof (sweep_events (snap lbl (w_iterdir w d)) c w) as H1.
  destruct (for_in (paths d _) _ c w) as [w1 [c1|e]]; [|done].
  eapply extends_trans; [exact H1|apply IH].
Qed.
End CleanEvents.

Lemma clean_dir_events d args w :
  extends (clean_event d) w (clean_dir d args w).1.
Proof.
  unfold clean_dir. unfold bind at 1. rewrite analysis_epochs_of.
  destruct (analysis_of _) as [A|]; [|apply extends_refl].
  unfold bind at 1. pose proof (labels_events d args A out_labels 0 w) as H1.
  destruct (for_in out_labels _ 0 w) as [w1 [c1|e]]; [|done].
  eapply extends_trans; [exact H1|]. unfold bind, lift.
  destruct (get_dry_run args) as [[|]|]; try apply extends_refl;
    by apply extends_log.
Qed.

(** with an integer for [args], nothing is done at all *)
Lemma labels_int d n0 A labels c w :
  ∃ r, for_in labels
         (fun out_lbl rmv_count =>
            bind (glob_label d out_lbl)
              (fun out_fls => for_in out_fls (clean_file (ArgsInt n0) A) rmv_count))
         c w = (w, r).
Proof.
  revert c. induction labels as [|lbl labels IH]; intros c; [by eexists|].
  simpl. unfold bind at 1 2. rewrite glob_label_snap.
  destruct (sweep_int d A n0 (snap lbl (w_iterdir w d)) c w) as [[c1|e] ->];
    [apply IH|by eexists].
Qed.

Lemma clean_dir_int_raises d n0 w : ∃ e, clean_dir d (ArgsInt n0) w = (w, Raise e).
Proof.
  unfold clean_dir. unfold bind at 1. rewrite analysis_epochs_of.
  destruct (analysis_of _) as [A|]; [|by eexists].
  unfold bind at 1. destruct (labels_int d n0 A out_labels 0 w) as [[c1|e] ->];
    by eexists.
Qed.

Lemma prompt_dir_events d cfg maxlen args w w' r :
  _prompt_dir d cfg maxlen args w = (w', r) →
  extends (clean_event d) w w'
  ∧ (truthy cfg = false → extends quiet_event w w').
Proof.
  unfold _prompt_dir. cbn zeta. unfold bind at 1.
  set (line := str_join _ [str_ljust _ _; _]).
  assert (∃ w1, ((if truthy cfg && dry_run args
                     || negb (truthy cfg) && (0 <? verbose args)
                  then print line else ret tt) w = (w1, Ok tt))
                ∧ extends quiet_event w w1) as (w1 & -> & H1).
  { destruct (_ || _); eexists; (split; [reflexivity|]);
      [by apply extends_log|apply extends_refl]. }
  assert (extends (clean_event d) w w1) as H1'.
  { eapply extends_mono; [|exact H1]. by intros [| | | |]. }
  destruct (truthy cfg) eqn:Ht.
  - intros Hrun. split; [|done]. eapply extends_trans; [exact H1'|].
    destruct (force args || dry_run args).
    { pose proof (clean_dir_events d (ArgsNamespace args) w1) as H.
      by rewrite Hrun in H. }
    unfold bind, input in Hrun.
    destruct (w_stdin w1) as [|answer rest] eqn:Hin;
      [injection Hrun as <- <-; apply extends_refl|].
    set (w2 := Build_world _ _ _ _ _) in Hrun.
    assert (extends (clean_event d) w1 w2) as H2.
    { eexists [_]. split; [reflexivity|]. constructor; [reflexivity|done]. }
    eapply extends_trans; [exact H2|].
    destruct (negb (existsb _ _)).
    + pose proof (clean_dir_events d (ArgsNamespace args) w2) as H.
      by rewrite Hrun in H.
    + injection Hrun as <- <-. apply extends_refl.
  - intros [= <- <-]. done.
Qed.

Lemma justified_more ev older more :
  justified ev older → justified ev (older ++ more).
Proof.
  intros (d & cfg & quiet & rest & -> & ? & ? & ?).
  exists d, cfg, quiet, (rest ++ more). by rewrite <- app_assoc.
Qed.

Lemma safe_in_app ctx t1 t2 :
  safe_in ctx (t1 ++ t2) ↔ safe_in (t2 ++ ctx) t1 ∧ safe_in ctx t2.
Proof.
  induction t1 as [|ev t1 IH]; simpl; [tauto|].
  rewrite IH, <- app_assoc. tauto.
Qed.

Lemma safe_in_more ctx more t : safe_in ctx t → safe_in (ctx ++ more) t.
Proof.
  induction t as [|ev t IH]; simpl; [done|].
  intros [H1 H2]. split; [|by apply IH].
  intros Hev. rewrite app_assoc. by apply justified_more, H1.
Qed.

Lemma safe_in_quiet ctx t :
  Forall (fun ev => ¬ accountable ev) t → safe_in ctx t.
Proof. induction 1 as [|ev t Hev _ IH]; simpl; [done|]. by split. Qed.

Lemma safe_in_split t pre ev post :
  safe_in [] t → t = pre ++ ev :: post → accountable ev → justified ev post.
Proof.
  intros Hs -> Hev. apply safe_in_app in Hs as [_ Hs]. simpl in Hs.
  destruct Hs as [Hs _]. rewrite app_nil_r in Hs. by apply Hs.
Qed.

Lemma scans_app t1 t2 : scans (t1 ++ t2) = scans t1 ++ scans t2.
Proof.
  induction t1 as [|[| | | |] t1 IH]; simpl; by rewrite ?IH.
Qed.

Lemma scans_none t : no_scan t → scans t = [].
Proof.
  induction 1 as [|ev t Hev _ IH]; [done|].
  destruct ev; simpl; try done. exfalso. apply Hev. by eexists _, _.
Qed.

Lemma clean_events_no_scan d t : Forall (clean_event d) t → no_scan t.
Proof.
  intros H. eapply Forall_impl; [exact H|].
  intros [| | | |]; try done; intros _ (? & ? & [=]).
Qed.

Lemma opens_no_scan t : Forall is_open t → no_scan t.
Proof.
  intros H. eapply Forall_impl; [exact H|]. intros ev [p ->] (? & ? & [=]).
Qed.

Lemma check_open_config_events d w w' r :
  check_open_config d w = (w', r) →
  extends is_open w w' ∧ ∀ v, r = Ok v → truthy v = true → recognized v.
Proof.
  rewrite check_open_config_eq.
  destruct (first_config _ _) as [c|].
  2:{ intros [= <- <-]. split; [apply extends_refl|]. by intros v [= <-]. }
  destruct (lookup_entry c (w_iterdir w d)) as [[load| |]|];
    try (intros [= <- <-]; split; [apply extends_refl|done]).
  intros [= <- <-]. split; [apply extends_log; by eexists|].
  unfold config_outcome. intros v. destruct load as [v'|e].
  - destruct (not_cryodrgn v') as [[|]|] eqn:Hn; [by intros [= <-]| |done].
    intros [= <-] _. by apply not_cryodrgn_false.
  - destruct (caught_by _ e); [by intros [= <-]|done].
Qed.

Lemma scan_one_shape cur maxlen args w w' r :
  scan_one cur maxlen args w = (w', r) →
  ∃ new, w_trace w' = new ++ w_trace w ∧ turn_shape cur new r.
Proof.
  unfold scan_one. unfold bind at 1.
  destruct (check_open_config cur w) as [w1 r1] eqn:Hc.
  apply check_open_config_events in Hc as [(post & Hpost & Fpost) Hrec].
  destruct r1 as [cfg|e].
  2:{ intros [= <- <-]. exists post. split; [done|]. left. split; [done|by eexists]. }
  unfold bind at 1, record_scan. unfold bind.
  destruct (_prompt_dir cur cfg maxlen args (log (EvScan cur cfg) w1))
    as [w2 r2] eqn:Hp.
  apply prompt_dir_events in Hp as [(pre & Hpre & Fpre) Hquiet].
  intros Hrun.
  assert (w' = w2) as ->. { destruct r2; unfold ret in Hrun; congruence. }
  exists (pre ++ EvScan cur cfg :: post). split.
  { rewrite Hpre. cbn [log w_trace]. rewrite Hpost. by rewrite <- app_assoc. }
  right. exists cfg, pre, post. split_and!; try done.
  - intros Ht. destruct (Hquiet Ht) as (pre' & Hpre' & Fpre').
    rewrite Hpre in Hpre'. by apply app_inv_tail in Hpre' as ->.
  - intros Ht. by apply Hrec.
  - intros v ->. destruct r2; unfold ret in Hrun; congruence.
Qed.

Lemma turn_safe cur new r ctx :
  turn_shape cur new r → safe_in ctx new.
Proof.
  intros [[Fo _]|(cfg & pre & post & -> & Fpost & Fpre & Hq & Hrec & _)].
  - apply safe_in_quiet. eapply Forall_impl; [exact Fo|]. intros ev [p ->] [].
  - apply safe_in_app. split.
    + destruct (truthy cfg) eqn:Ht.
      * clear Hq. induction Fpre as [|ev pre Hev Fpre IH]; simpl; [done|].
        split; [|done]. intros _.
        exists cur, cfg, pre, (post ++ ctx). split_and!; try done.
        -- by eapply clean_events_no_scan.
        -- by apply Hrec.
      * apply safe_in_quiet. eapply Forall_impl; [exact (Hq eq_refl)|].
        intros [| | | |]; simpl; tauto.
    + simpl. split; [done|]. apply safe_in_quiet.
      eapply Forall_impl; [exact Fpost|]. intros ev [p ->] [].
Qed.

Lemma turn_scans cur new r :
  turn_shape cur new r →
  scans new = [] ∨ ∃ cfg, scans new = [(cur, cfg)] ∧ ∀ v, r = Ok v → v = cfg.
Proof.
  intros [[Fo _]|(cfg & pre & post & -> & Fpost & Fpre & _ & _ & Hr)].
  - left. by apply scans_none, opens_no_scan.
  - right. exists cfg. split; [|done]. rewrite scans_app. simpl.
    rewrite (scans_none pre), (scans_none post); [done| |].
    + by apply opens_no_scan.
    + by eapply clean_events_no_scan.
Qed.

Lemma next_scan_dirs_length cur cfg rest :
  (length (next_scan_dirs cur cfg rest) ≤ length rest)%nat.
Proof.
  unfold next_scan_dirs, drop_descendants.
  destruct (truthy cfg); [apply length_filter|done].
Qed.

Lemma ordered_short l : (length l ≤ 1)%nat → ordered l.
Proof.
  intros Hl l1 x l2 y l3 ->. exfalso.
  rewrite length_app in Hl. simpl in Hl. rewrite length_app in Hl. simpl in Hl. lia.
Qed.

Lemma scan_loop_spec args maxlen q w :
  ∃ new, w_trace (scan_loop args maxlen q w).1 = new ++ w_trace w
    ∧ safe_in [] new
    ∧ ordered (scans new)
    ∧ ∀ x, x ∈ scans new → x.1 ∈ q.
Proof.
  remember (length q) as k eqn:Hk. revert q w Hk.
  induction k as [k IH] using lt_wf_ind. intros q w ->.
  destruct q as [|cur rest].
  { rewrite scan_loop_equation_1. exists []. split_and!; try done.
    - apply ordered_short. simpl. lia.
    - by intros x ?%elem_of_nil. }
  rewrite scan_loop_equation_2.
  destruct (scan_one cur maxlen args w) as [w1 r1] eqn:Hone.
  apply scan_one_shape in Hone as (turn & Hturn & Hshape).
  pose proof (turn_safe cur turn r1 [] Hshape) as Hsafe.
  pose proof (turn_scans cur turn r1 Hshape) as Hscans.
  destruct r1 as [cfg|e]; simp scan_loop.
  2:{ exists turn. split_and!; try done.
      - apply ordered_short.
        destruct Hscans as [->|(cfg & -> & _)]; simpl; lia.
      - destruct Hscans as [->|(cfg & -> & _)]; intros x Hx.
        + by apply elem_of_nil in Hx.
        + apply list_elem_of_singleton in Hx as ->. left. }
  destruct (IH (length (next_scan_dirs cur cfg rest))
              ltac:(pose proof (next_scan_dirs_length cur cfg rest); simpl; lia)
              (next_scan_dirs cur cfg rest) w1 eq_refl)
    as (new & Hnew & Hs & Ho & Hin).
  exists (new ++ turn). split_and!.
  - by rewrite Hnew, Hturn, app_assoc.
  - apply safe_in_app. split; [|done]. by apply (safe_in_more [] (turn ++ [])).
  - rewrite scans_app.
    destruct Hscans as [->|(cfg' & -> & Hcfg)].
    { by rewrite app_nil_r. }
    pose proof (Hcfg cfg eq_refl) as Hc. subst cfg'.
    intros l1 x l2 y l3 Heq Hy.
    destruct l3 as [|z l3 _] using rev_ind.
    + replace (l1 ++ x :: l2 ++ [y]) with ((l1 ++ x :: l2) ++ [y]) in Heq
        by by rewrite <- app_assoc.
      apply app_inj_tail in Heq as [Heq <-]. simpl in *.
      assert (x.1 ∈ next_scan_dirs cur cfg rest) as Hx.
      { apply Hin. rewrite Heq, elem_of_app, elem_of_cons. right. by left. }
      apply elem_of_next_scan_dirs in Hx as [_ ?]; done.
    + replace (l1 ++ x :: l2 ++ y :: l3 ++ [z])
        with ((l1 ++ x :: l2 ++ y :: l3) ++ [z]) in Heq
        by (rewrite <- !app_assoc; simpl; by rewrite <- !app_assoc).
      apply app_inj_tail in Heq as [Heq _]. by eapply Ho.
  - intros x. rewrite scans_app, elem_of_app. intros [Hx|Hx].
    + right. eapply next_scan_dirs_sub. by apply Hin.
    + destruct Hscans as [Hn|(cfg' & Hn & _)]; rewrite Hn in Hx.
      * by apply elem_of_nil in Hx.
      * apply list_elem_of_singleton in Hx as ->. left.
Qed.

Lemma collect_inner ps acc w :
  for_in ps
    (fun p acc => bind (is_dir p) (fun isd => if isd then ret (acc ++ [p]) else ret acc))
    acc w
  = (w, Ok (acc ++ filter (is_dir_at w) ps)).
Proof.
  revert acc. induction ps as [|p ps IH]; intros acc; simpl.
  { by rewrite app_nil_r. }
  unfold bind at 1. unfold bind at 1, is_dir.
  destruct (decide (is_dir_at w p)) as [Hd|Hd].
  - rewrite filter_cons_True by done. unfold is_dir_at in Hd. rewrite Hd.
    unfold ret at 1. rewrite IH. by rewrite <- app_assoc.
  - rewrite filter_cons_False by done. unfold is_dir_at in Hd.
    apply not_true_is_false in Hd. rewrite Hd. apply IH.
Qed.

Lemma collect_outer gs acc w :
  ∃ r, for_in gs
         (fun outglob acc =>
            bind (glob outglob)
              (fun ps =>
                 for_in ps
                   (fun p acc =>
                      bind (is_dir p)
                        (fun isd => if isd then ret (acc ++ [p]) else ret acc))
                   acc))
         acc w = (w, r)
       ∧ ((∀ g, g ∈ gs →
             ∃ ps, w_glob w g = Ok ps ∧ ∀ p, p ∈ ps → stat w p ≠ Some Dir)
          → r = Ok acc).
Proof.
  revert acc. induction gs as [|g gs IH]; intros acc; simpl.
  { by eexists. }
  unfold bind at 1. unfold bind at 1. unfold glob at 1.
  destruct (w_glob w g) as [ps|e] eqn:Hg.
  - rewrite collect_inner. cbv beta iota.
    destruct (IH (acc ++ filter (is_dir_at w) ps)) as (r & -> & Hr).
    eexists. split; [done|]. intros Hnone.
    destruct (Hnone g ltac:(left)) as (ps' & Hps & Hnd). rewrite Hg in Hps.
    injection Hps as <-.
    assert (filter (is_dir_at w) ps = []) as Hnil.
    { apply elem_of_nil_inv. intros p [Hp Hin]%list_elem_of_filter.
      apply (Hnd p Hin). unfold is_dir_at in Hp.
      by destruct (stat w p) as [[| |]|]. }
    rewrite Hnil, app_nil_r in Hr. apply Hr. intros g' Hg'. apply Hnone. by right.
  - eexists. split; [done|]. intros Hnone.
    destruct (Hnone g ltac:(left)) as (ps' & Hps & _). congruence.
Qed.

Lemma main_no_globs args w :
  outglobs args = [] → ∃ e, main args w = (w, Raise e).
Proof.
  intros Hg. unfold main. rewrite Hg. unfold bind, getcwd.
  apply clean_dir_int_raises.
Qed.

Lemma main_spec args w :
  ∃ new, w_trace (main args w).1 = new ++ w_trace w
    ∧ safe_in [] new ∧ ordered (scans new).
Proof.
  assert (∃ new : list event, w_trace w = new ++ w_trace w
            ∧ safe_in [] new ∧ ordered (scans new)) as Hnil.
  { exists []. split_and!; try done. apply ordered_short. simpl. lia. }
  destruct (outglobs args) as [|g gs] eqn:Hg.
  { destruct (main_no_globs args w Hg) as [e ->]. exact Hnil. }
  unfold main. rewrite Hg. unfold bind at 1. unfold collect_dirs.
  destruct (collect_outer (g :: gs) [] w) as (r & -> & _).
  destruct r as [found|e]; [|exact Hnil].
  unfold bind, lift. destruct (max_by path_len (sorted_set found)); [|exact Hnil].
  destruct (scan_loop_spec args (path_len a) (sorted_set found) w)
    as (new & ? & ? & ? & _).
  by exists new.
Qed.

(** Claim C3. In every run of [main], each removal of a file is
    preceded by the classification of the directory that holds the
    file, no other classification lies between the two, and that
    classification returned a non-empty mapping. On the path without
    glob patterns, [main] raises an exception and leaves the world
    untouched: [clean_dir] receives an integer for [args] and fails on
    the first attribute it reads from it, before any removal. *)
Theorem main_removes_only_recognized (args : Namespace) (w : world) :
  (outglobs args = [] → ∃ e, main args w = (w, Raise e))
  ∧ ∃ new, w_trace (main args w).1 = new ++ w_trace w
      ∧ ∀ pre p post, new = pre ++ EvRemove p :: post →
          ∃ d name cfg later earlier,
            p = child d name
            ∧ post = later ++ EvScan d cfg :: earlier
            ∧ no_scan later
            ∧ recognized cfg.
Proof.
  split; [apply main_no_globs|].
  destruct (main_spec args w) as (new & Hnew & Hsafe & _).
  exists new. split; [done|]. intros pre p post Heq.
  destruct (safe_in_split new pre (EvRemove p) post Hsafe Heq I)
    as (d & cfg & quiet & rest & -> & Hq & Hrec & [n ->]).
  by exists d, n, cfg, quiet, rest.
Qed.

(** *** The order of [sorted] on paths *)


Lemma ascii_compare_lt_trans a b c :
  Ascii.compare a b = Lt → Ascii.compare b c = Lt → Ascii.compare a c = Lt.
Proof. unfold Ascii.compare. rewrite !N.compare_lt_iff. apply N.lt_trans. Qed.


Lemma string_compare_lt_trans s t u :
  String.compare s t = Lt → String.compare t u = Lt → String.compare s u = Lt.
Proof.
  revert t u. induction s as [|a s IH]; intros [|b t] [|c u]; simpl; try done.
  destruct (Ascii.compare a b) eqn:Hab; try done;
    destruct (Ascii.compare b c) eqn:Hbc; try done.
  - apply Ascii.compare_eq_iff in Hab as ->. rewrite Hbc. apply IH.
  - apply Ascii.compare_eq_iff in Hab as ->. by rewrite Hbc.
  - apply Ascii.compare_eq_iff in Hbc as <-. by rewrite Hab.
  - by rewrite (ascii_compare_lt_trans a b c).
Qed.

Lemma path_leb_trans p q r :
  path_leb p q = true → path_leb q r = true → path_leb p r = true.
Proof.
  revert q r. induction p as [|a p IH]; intros [|b q] [|c r]; simpl; try done.
  destruct (String.compare a b) eqn:Hab; try done;
    destruct (String.compare b c) eqn:Hbc; try done.
  - apply String.compare_eq_iff in Hab as ->. rewrite Hbc. apply IH.
  - apply String.compare_eq_iff in Hab as ->. by rewrite Hbc.
  - apply String.compare_eq_iff in Hbc as <-. by rewrite Hab.
  - by rewrite (string_compare_lt_trans a b c).
Qed.

#[local] Instance path_le_trans : Transitive path_le.
Proof. intros p q r. apply path_leb_trans. Qed.

Lemma path_leb_total p q : path_leb p q = false → path_leb q p = true.
Proof.
  revert q. induction p as [|a p IH]; intros [|b q]; simpl; try done.
  rewrite (String.compare_antisym b a).
  destruct (String.compare a b); simpl; [apply IH|done|done].
Qed.

#[local] Instance path_le_total : Total path_le.
Proof.
  intros p q. unfold path_le.
  destruct (path_leb p q) eqn:H; [by left|right]. by apply path_leb_total.
Qed.

Lemma sorted_set_NoDup l : NoDup (sorted_set l).
Proof.
  unfold sorted_set. rewrite merge_sort_Permutation. apply NoDup_remove_dups.
Qed.

Lemma sorted_set_Sorted l : Sorted path_le (sorted_set l).
Proof. apply Sorted_merge_sort, _. Qed.

Lemma scan_loop_order args maxlen q w :
  ∃ new, w_trace (scan_loop args maxlen q w).1 = new ++ w_trace w
    ∧ rev (map fst (scans new)) `sublist_of` q.
Proof.
  remember (length q) as k eqn:Hk. revert q w Hk.
  induction k as [k IH] using lt_wf_ind. intros q w ->.
  destruct q as [|cur rest].
  { rewrite scan_loop_equation_1. by exists []. }
  rewrite scan_loop_equation_2.
  destruct (scan_one cur maxlen args w) as [w1 r1] eqn:Hone.
  apply scan_one_shape in Hone as (turn & Hturn & Hshape).
  pose proof (turn_scans cur turn r1 Hshape) as Hscans.
  assert (rev (map fst (scans turn)) `sublist_of` [cur]) as Hsub.
  { destruct Hscans as [->|(cfg & -> & _)]; simpl; [apply sublist_nil_l|done]. }
  destruct r1 as [cfg|e]; unfold scan_loop_unfold_clause_2.
  2:{ exists turn. split; [done|].
      etrans; [exact Hsub|]. apply sublist_skip, sublist_nil_l. }
  destruct (IH (length (next_scan_dirs cur cfg rest))
              ltac:(pose proof (next_scan_dirs_length cur cfg rest); simpl; lia)
              (next_scan_dirs cur cfg rest) w1 eq_refl)
    as (new & Hnew & Hord).
  exists (new ++ turn). split.
  { by rewrite Hnew, Hturn, app_assoc. }
  rewrite scans_app, map_app, rev_app_distr.
  change (cur :: rest) with ([cur] ++ rest).
  apply sublist_app; [done|]. etrans; [exact Hord|].
  unfold next_scan_dirs, drop_descendants.
  destruct (truthy cfg); [apply sublist_filter|done].
Qed.








(** Claim C10. When at least one glob pattern is given and no pattern
    yields a directory, [main] raises [ValueError], from [max] on the
    empty list of candidates, and does nothing else. *)
Theorem main_no_directory_raises (args : Namespace) (w : world) :
  outglobs args ≠ [] →
  (∀ g, g ∈ outglobs args →
     ∃ ps, w_glob w g = Ok ps ∧ ∀ p, p ∈ ps → stat w p ≠ Some Dir) →
  main args w = (w, Raise ValueError).
Proof.
  intros Hne Hnone. unfold main.
  destruct (outglobs args) as [|g gs] eqn:Hg; [done|].
  unfold bind at 1. unfold collect_dirs.
  destruct (collect_outer (g :: gs) [] w) as (r & -> & Hr).
  rewrite (Hr Hnone). reflexivity.
Qed.

(** ** The [TrainDir] fixture *)

(** Claim C8. When [load_epoch] is outside of [0 <= load_epoch <
    self.epochs], [train_load_epoch] raises [ValueError] and leaves the
    object and the world as they were: no command is launched and
    [self.epochs] keeps its value. *)
Theorem train_load_epoch_out_of_range (self : TrainDir)
    (load_epoch train_epochs : Z) (w : fxworld) :
  load_epoch < 0 ∨ epochs self ≤ load_epoch →
  train_load_epoch self load_epoch train_epochs w = (self, w, Raise ValueError).
Proof.
  intros Hout. unfold train_load_epoch.
  destruct (Z.leb_spec 0 load_epoch), (Z.ltb_spec load_epoch (epochs self));
    simpl; try reflexivity. lia.
Qed.

Lemma train_load_epoch_in_range self load_epoch train_epochs w :
  0 ≤ load_epoch < epochs self →
  ∃ cmd, fx_launched (train_load_epoch self load_epoch train_epochs w).1.2
         = cmd :: fx_launched w.
Proof.
  intros [H1 H2]. unfold train_load_epoch.
  destruct (Z.leb_spec 0 load_epoch); [|lia].
  destruct (Z.ltb_spec load_epoch (epochs self)); [|lia]. simpl.
  match goal with |- context [run_command ?c w] => set (cmd := c) end.
  exists cmd. unfold run_command.
  destruct (fx_exec w cmd (fx_listdir w)) as [[out err] ld].
  destruct (negb _); [reflexivity|].
  destruct (all_files_present _ _) as [[|]|]; reflexivity.
Qed.

Lemma append_length s t :
  String.length (s +:+ t) = (String.length s + String.length t)%nat.
Proof. induction s as [|c s IH]; [done|]. cbv [String.append]. fold String.append. simpl. by rewrite IH. Qed.

Lemma append_inv_tail s1 s2 t : s1 +:+ t = s2 +:+ t → s1 = s2.
Proof.
  revert s2. induction s1 as [|c s1 IH]; intros [|c' s2] H.
  - done.
  - apply (f_equal String.length) in H. rewrite !append_length in H. simpl in H. lia.
  - apply (f_equal String.length) in H. rewrite !append_length in H. simpl in H. lia.
  - cbv [String.append] in H. fold String.append in H. injection H as -> H.
    f_equal. by apply IH.
Qed.

Lemma pretty_nonzero e : e ≠ 0 → str_of_int e ≠ "0".
Proof.
  intros He H. apply He. by apply (inj (pretty : Z → string)).
Qed.

Lemma suffixed_not_epoch0 stem ext e :
  e ≠ 0 →
  (stem, ext) ∈ [("weights", ".pkl"); ("reconstruct", ".mrc"); ("z", ".pkl")] →
  stem +:+ ("." +:+ str_of_int e) +:+ ext ∉ epoch0_files.
Proof.
  intros He Hs Hin. apply pretty_nonzero in He. apply He.
  unfold epoch0_files in Hin.
  repeat (apply elem_of_cons in Hs as [[= -> ->]|Hs]);
    [| | |by apply elem_of_nil in Hs];
    repeat (apply elem_of_cons in Hin as [Hin|Hin]);
    try (by apply elem_of_nil in Hin);
    cbv [String.append] in Hin; fold String.append in Hin;
    try discriminate; injection Hin as Hin.
  - by apply (append_inv_tail _ "0" ".pkl").
  - by apply (append_inv_tail _ "0" ".mrc").
  - by apply (append_inv_tail _ "0" ".pkl").
Qed.

Lemma any_of_ext {A} (f g : A → result bool) l :
  (∀ x, x ∈ l → f x = g x) → any_of f l = any_of g l.
Proof.
  induction l as [|x l IH]; intros H; [done|]. simpl.
  rewrite <- (H x) by left. destruct (f x) as [[|]|]; try done.
  apply IH. intros y Hy. apply H. by right.
Qed.

Lemma epoch_cleaned_none self w :
  epoch_cleaned self None w
  = Ok (negb (epoch_present self (out_files self w) EmptyString)).
Proof.
  unfold epoch_cleaned, epoch_present, epoch_truthy.
  cbn [negb andb]. cbv zeta.
  destruct (String.eqb_spec (train_cmd self) "train_nn") as [Hnn|Hnn].
  - rewrite Hnn. cbn [String.eqb Ascii.eqb Bool.eqb andb orb].
    rewrite orb_false_r.
    by destruct (listed _ _), (listed _ _).
  - destruct (String.eqb (train_cmd self) "train_vae");
      cbn [andb orb]; rewrite ?orb_false_r;
      by destruct (listed _ _); try destruct (listed _ _).
Qed.

(** Claim C9. [epoch_cleaned(0)] is [epoch_cleaned(None)]: its answer
    is that none of the final outputs is listed, [weights.pkl], and
    [reconstruct.mrc] for [train_nn], [z.pkl] for [train_vae], the
    files of epoch 0 playing no part in it; it returns normally
    whatever [self.epochs] is, while every other epoch outside of the
    range raises [ValueError]; and [all_files_present] gives the same
    answer on two listings of the output directory that differ only in
    [weights.0.pkl], [reconstruct.0.mrc] and [z.0.pkl]. *)
Theorem epoch_cleaned_zero_is_none (self : TrainDir) (w : fxworld) :
  epoch_cleaned self (Some 0) w = epoch_cleaned self None w
  ∧ epoch_cleaned self (Some 0) w
    = Ok (negb (listed "weights.pkl" (out_files self w)
                || String.eqb (train_cmd self) "train_nn"
                   && listed "reconstruct.mrc" (out_files self w)
                || String.eqb (train_cmd self) "train_vae"
                   && listed "z.pkl" (out_files self w)))
  ∧ (∃ cleaned, epoch_cleaned self (Some 0) w = Ok cleaned)
  ∧ (∀ e, e ≠ 0 → (e < 0 ∨ epochs self ≤ e) →
       epoch_cleaned self (Some e) w = Raise ValueError)
  ∧ ∀ w',
      (∀ name, name ∉ epoch0_files →
         listed name (out_files self w') = listed name (out_files self w)) →
      all_files_present self w' = all_files_present self w.
Proof.
  split_and!.
  - reflexivity.
  - exact (epoch_cleaned_none self w).
  - by eexists.
  - intros e He Hout. unfold epoch_cleaned, epoch_truthy.
    destruct (Z.eqb_spec e 0); [done|]. simpl.
    destruct (Z.leb_spec 0 e), (Z.ltb_spec e (epochs self)); simpl; try done. lia.
  - intros w' Hsame. unfold all_files_present.
    rewrite (any_of_ext _ (fun epoch => epoch_cleaned self epoch w)); [done|].
    intros epoch Hin. apply elem_of_app in Hin as [Hin|Hin].
    + apply list_elem_of_fmap in Hin as (e & -> & He).
      apply elem_of_seqZ in He.
      destruct (decide (e = 0)) as [->|Hne].
      * unfold epoch_cleaned. simpl.
        rewrite !Hsame; [done|..]; unfold epoch0_files;
          intros Hin; repeat (apply elem_of_cons in Hin as [Hin|Hin]);
          try discriminate; by apply elem_of_nil in Hin.
      * unfold epoch_cleaned, epoch_truthy.
        destruct (Z.eqb_spec e 0); [done|]. simpl.
        destruct (Z.leb_spec 0 e), (Z.ltb_spec e (epochs self)); simpl; try lia.
        rewrite !Hsame; [done|..]; apply suffixed_not_epoch0;
          try done; repeat first [left|right].
    + apply list_elem_of_singleton in Hin as ->.
      unfold epoch_cleaned. simpl.
      rewrite !Hsame; [done|..]; unfold epoch0_files;
        intros Hin; repeat (apply elem_of_cons in Hin as [Hin|Hin]);
        try discriminate; by apply elem_of_nil in Hin.
Qed.

(** ** Examples and instances *)

Example spec_example_keep_0_5 :
  map d_name (w_iterdir (clean_dir ["run"] (ArgsNamespace (ex_args 5 false))
                           (ex_world ex_ten_epochs)).1 ["run"])
  = ["weights.0.pkl"; "weights.5.pkl"].
Proof. vm_compute. reflexivity. Qed.

Example spec_example_keep_0_3_5 :
  map d_name (w_iterdir (clean_dir ["run"] (ArgsNamespace (ex_args 5 false))
                           (ex_world (ex_subdir "analyze.3" :: ex_ten_epochs))).1
                ["run"])
  = ["analyze.3"; "weights.0.pkl"; "weights.3.pkl"; "weights.5.pkl"].
Proof. vm_compute. reflexivity. Qed.

Example spec_example_other_tool :
  not_cryodrgn
    (PDict [(PStr "cmd", PList [PStr "some_other_tool"; PStr "train_nn"])])
  = Ok true.
Proof. reflexivity. Qed.

Lemma ex_ten_epochs_NoDup : NoDup (names ex_ten_epochs).
Proof. apply (bool_decide_unpack _). vm_compute. exact I. Defined.

Lemma clean_dir_retention_rule_witness :
  NoDup (names (w_iterdir (ex_world ex_ten_epochs) ["run"]))
  ∧ dry_run (ex_args 5 false) = false
  ∧ ∃ w',
      clean_dir ["run"] (ArgsNamespace (ex_args 5 false)) (ex_world ex_ten_epochs)
      = (w', Ok tt)
      ∧ ∀ e, e ∈ ex_ten_epochs →
          e ∉ w_iterdir w' ["run"] ↔ outside_rule 5 ex_ten_epochs e.
Proof.
  assert (NoDup (names (w_iterdir (ex_world ex_ten_epochs) ["run"]))) as H1
    by exact ex_ten_epochs_NoDup.
  assert (dry_run (ex_args 5 false) = false) as H2 by reflexivity.
  split; [exact H1|]. split; [exact H2|].
  destruct (clean_dir_retention_rule (ex_world ex_ten_epochs) ["run"]
              (ex_args 5 false) H1 H2) as [Htotal Hrule].
  destruct Htotal as [w' Hw']; [discriminate|reflexivity|].
  exists w'. split; [exact Hw'|]. exact (proj2 (Hrule w' Hw')).
Defined.

Lemma clean_dir_retention_rule_counterexample :
  ¬ retention_as_stated (ex_world [ex_file "weights.1.pkl"]) ["run"]
      (ex_args 0 false)
  ∧ ¬ retention_as_stated
        (ex_world [ex_subdir "analyze.3.old"; ex_file "weights.3.pkl"])
        ["run"] (ex_args 5 false).
Proof.
  split.
  - intros H.
    destruct (H (ex_file "weights.1.pkl") 1) as [_ Hdel].
    + left.
    + by eexists.
    + exists "weights". split; [left|reflexivity].
    + exists "1". by split_and!.
    + apply Hdel; [|left]. split.
      * intros [k Hk]. simpl in Hk. lia.
      * intros (sub & Hsub & Hdir & _).
        apply list_elem_of_singleton in Hsub as ->. discriminate.
  - intros H.
    destruct (H (ex_file "weights.3.pkl") 3) as [_ Hdel].
    + right. left.
    + by eexists.
    + exists "weights". split; [left|reflexivity].
    + exists "3". by split_and!.
    + apply Hdel; [|right; left]. split.
      * intros [k Hk]. simpl in Hk. lia.
      * intros (sub & Hsub & Hdir & Hname).
        apply elem_of_cons in Hsub as [->|Hsub]; [discriminate|].
        apply list_elem_of_singleton in Hsub as ->. discriminate.
Qed.

Lemma ex_two_configs_selected : selected ex_two_configs "config.yml".
Proof.
  exists 1%nat. split; [reflexivity|]. split; [by eexists|].
  intros [|j] c' Hj; [|exfalso; lia].
  intros [= <-] [load Hl]. discriminate Hl.
Defined.

Lemma ex_unreadable_selected : selected ex_unreadable "config.yaml".
Proof.
  exists 0%nat. split; [reflexivity|]. split; [by eexists|].
  intros j c' Hj. exfalso. lia.
Defined.

Lemma check_open_config_absorbs_witness :
  check_open_config ["run"] (ex_world []) = (ex_world [], Ok PNone)
  ∧ check_open_config ["run"] (ex_world ex_two_configs)
    = (log (EvOpen ["run"; "config.yml"]) (ex_world ex_two_configs), Ok PNone)
  ∧ check_open_config ["run"] (ex_world ex_unreadable)
    = (log (EvOpen ["run"; "config.yaml"]) (ex_world ex_unreadable),
       Raise OSError).
Proof.
  split_and!.
  - apply (proj1 (check_open_config_absorbs (ex_world []) ["run"])).
    intros c _ [load Hl]. discriminate Hl.
  - destruct (proj2 (check_open_config_absorbs (ex_world ex_two_configs) ["run"])
                "config.yml" (Raise EOFError) ex_two_configs_selected eq_refl)
      as (r & Hrun & Hraise & _).
    rewrite Hrun. f_equal.
    exact (proj1 (Hraise EOFError eq_refl) eq_refl).
  - destruct (proj2 (check_open_config_absorbs (ex_world ex_unreadable) ["run"])
                "config.yaml" (Raise OSError) ex_unreadable_selected eq_refl)
      as (r & Hrun & Hraise & _).
    rewrite Hrun. f_equal.
    exact (proj2 (Hraise OSError eq_refl) eq_refl eq_refl).
Defined.

Lemma check_open_config_absorbs_counterexample :
  ¬ absorbed_as_stated (ex_world []) ["run"]
  ∧ ¬ absorbed_as_stated (ex_world ex_two_configs) ["run"].
Proof.
  split; intros [w' H]; vm_compute in H; discriminate H.
Qed.

(** A malformed YAML file: [yaml.safe_load] raises [yaml.YAMLError],
    which no class of [NORMAL_EXCEPTIONS] covers, so the exception
    leaves [check_open_config], although its [except] clause is there
    to take a file that does not load for a directory that is not
    recognized. *)
Example check_open_config_malformed_yaml :
  check_open_config ["run"]
    (ex_world [ex_config "config.yaml" (Raise YAMLError)])
  = (log (EvOpen ["run"; "config.yaml"])
       (ex_world [ex_config "config.yaml" (Raise YAMLError)]),
     Raise YAMLError).
Proof. vm_compute. reflexivity. Qed.

Example main_trace_forced :
  rev (w_trace (main (ex_scan_args ["**"] true) (ex_scan_world [])).1)
  = [EvScan [] PNone;
     EvPrint "`.`    is not a cryoDRGN directory";
     EvOpen ["a"; "config.yaml"];
     EvScan ["a"] ex_good_config;
     EvRemove ["a"; "weights.1.pkl"];
     EvPrint (removed_line 1);
     EvOpen ["b"; "configs.yml"];
     EvScan ["b"] (PDict []);
     EvPrint "`b`    is not a cryoDRGN directory"].
Proof. vm_compute. reflexivity. Qed.

Example main_trace_skip :
  rev (w_trace (main (ex_scan_args ["**"] false) (ex_scan_world ["s"])).1)
  = [EvScan [] PNone;
     EvPrint "`.`    is not a cryoDRGN directory";
     EvOpen ["a"; "config.yaml"];
     EvScan ["a"] ex_good_config;
     EvInput (prompt_of ["a"]) "s";
     EvOpen ["b"; "configs.yml"];
     EvScan ["b"] (PDict []);
     EvPrint "`b`    is not a cryoDRGN directory"].
Proof. vm_compute. reflexivity. Qed.

Lemma main_removes_only_recognized_witness :
  (outglobs (ex_scan_args [] true) = [] →
   ∃ e, main (ex_scan_args [] true) (ex_scan_world [])
        = (ex_scan_world [], Raise e))
  ∧ ∃ new,
      w_trace (main (ex_scan_args ["**"] true) (ex_scan_world [])).1
      = new ++ w_trace (ex_scan_world [])
      ∧ ∀ pre p post, new = pre ++ EvRemove p :: post →
          ∃ d name cfg later earlier,
            p = child d name
            ∧ post = later ++ EvScan d cfg :: earlier
            ∧ no_scan later
            ∧ recognized cfg.
Proof.
  split.
  - exact (proj1 (main_removes_only_recognized (ex_scan_args [] true)
                    (ex_scan_world []))).
  - exact (proj2 (main_removes_only_recognized (ex_scan_args ["**"] true)
                    (ex_scan_world []))).
Defined.

Lemma ex_mixed_NoDup : NoDup (names (w_iterdir ex_mixed ["run"])).
Proof. apply (bool_decide_unpack _). vm_compute. exact I. Defined.


Lemma clean_dir_idempotent_witness :
  NoDup (names (w_iterdir ex_mixed ["run"]))
  ∧ dry_run (ex_args 5 false) = false
  ∧ let first := clean_dir ["run"] (ArgsNamespace (ex_args 5 false)) ex_mixed in
    let second :=
      clean_dir ["run"] (ArgsNamespace (ex_args 5 false)) first.1 in
    w_iterdir second.1 = w_iterdir first.1
    ∧ (first.2 = Ok tt →
       second = (log (EvPrint (removed_line 0)) first.1, Ok tt))
    ∧ (∀ e, first.2 = Raise e → second = (first.1, Raise e)).
Proof.
  split; [exact ex_mixed_NoDup|]. split; [reflexivity|].
  exact (clean_dir_idempotent ex_mixed ["run"] (ex_args 5 false)
           ex_mixed_NoDup eq_refl).
Defined.


(** With the patterns [a] and [b/../a/sub], the directory [a/sub] is
    classified and cleaned under the name [b/../a/sub] after [a] was
    recognized: [a] is not among the parents of that path. *)
Example main_trace_alias :
  rev (w_trace (main (ex_scan_args ["a"; "b/../a/sub"] true) ex_alias_world).1)
  = [EvOpen ["a"; "config.yaml"];
     EvScan ["a"] ex_good_config;
     EvRemove ["a"; "weights.1.pkl"];
     EvPrint (removed_line 1);
     EvOpen ["b"; ".."; "a"; "sub"; "config.yaml"];
     EvScan ["b"; ".."; "a"; "sub"] ex_good_config;
     EvRemove ["b"; ".."; "a"; "sub"; "weights.2.pkl"];
     EvPrint (removed_line 1)].
Proof. vm_compute. reflexivity. Qed.


Lemma check_open_config_priority_witness :
  selected (w_iterdir (ex_world ex_two_configs) ["run"]) "config.yml"
  ∧ lookup_entry "config.yml" (w_iterdir (ex_world ex_two_configs) ["run"])
    = Some (File (Raise EOFError))
  ∧ check_open_config ["run"] (ex_world ex_two_configs)
    = (log (EvOpen (child ["run"] "config.yml")) (ex_world ex_two_configs),
       config_outcome (Raise EOFError)).
Proof.
  split; [exact ex_two_configs_selected|]. split; [reflexivity|].
  exact (proj2 (check_open_config_priority (ex_world ex_two_configs) ["run"])
           "config.yml" (Raise EOFError) ex_two_configs_selected eq_refl).
Defined.

Lemma train_load_epoch_out_of_range_witness :
  (10 < 0 ∨ epochs ex_traindir ≤ 10)
  ∧ train_load_epoch ex_traindir 10 20 (ex_fxworld ["weights.pkl"])
    = (ex_traindir, ex_fxworld ["weights.pkl"], Raise ValueError).
Proof.
  assert (10 < 0 ∨ epochs ex_traindir ≤ 10) as H.
  { right. apply Z.leb_le. reflexivity. }
  split; [exact H|].
  exact (train_load_epoch_out_of_range ex_traindir 10 20
           (ex_fxworld ["weights.pkl"]) H).
Defined.

Lemma epoch_cleaned_zero_is_none_witness :
  epoch_cleaned ex_traindir (Some 0) (ex_fxworld ["weights.pkl"])
  = epoch_cleaned ex_traindir None (ex_fxworld ["weights.pkl"])
  ∧ epoch_cleaned ex_traindir (Some 0) (ex_fxworld ["weights.0.pkl"]) = Ok true
  ∧ epoch_cleaned ex_traindir (Some 0) (ex_fxworld ["reconstruct.mrc"]) = Ok false
  ∧ all_files_present ex_traindir (ex_fxworld ["weights.0.pkl"; "weights.pkl"])
    = all_files_present ex_traindir (ex_fxworld ["weights.pkl"]).
Proof.
  destruct (epoch_cleaned_zero_is_none ex_traindir (ex_fxworld ["weights.pkl"]))
    as (Hsame & _ & _ & _ & Hblind).
  split_and!.
  - exact Hsame.
  - exact (proj1 (proj2 (epoch_cleaned_zero_is_none ex_traindir
                           (ex_fxworld ["weights.0.pkl"])))).
  - exact (proj1 (proj2 (epoch_cleaned_zero_is_none ex_traindir
                           (ex_fxworld ["reconstruct.mrc"])))).
  - apply Hblind.
    intros name Hname. unfold listed, out_files. simpl.
    destruct (String.eqb_spec name "weights.0.pkl") as [->|_]; [|reflexivity].
    exfalso. apply Hname. left.
Defined.

Lemma main_no_directory_raises_witness :
  outglobs (ex_scan_args ["*.txt"; "old*"] true) ≠ []
  ∧ (∀ g, g ∈ outglobs (ex_scan_args ["*.txt"; "old*"] true) →
       ∃ ps, w_glob (ex_scan_world []) g = Ok ps
             ∧ ∀ p, p ∈ ps → stat (ex_scan_world []) p ≠ Some Dir)
  ∧ main (ex_scan_args ["*.txt"; "old*"] true) (ex_scan_world [])
    = (ex_scan_world [], Raise ValueError).
Proof.
  assert (outglobs (ex_scan_args ["*.txt"; "old*"] true) ≠ []) as H1
    by discriminate.
  assert (∀ g, g ∈ outglobs (ex_scan_args ["*.txt"; "old*"] true) →
            ∃ ps, w_glob (ex_scan_world []) g = Ok ps
                  ∧ ∀ p, p ∈ ps → stat (ex_scan_world []) p ≠ Some Dir) as H2.
  { intros g Hg. simpl in Hg.
    apply elem_of_cons in Hg as [->|Hg].
    - exists [["notes.txt"]]. split; [reflexivity|].
      intros p ->%list_elem_of_singleton. discriminate.
    - apply list_elem_of_singleton in Hg as ->.
      exists []. split; [reflexivity|]. intros p Hp. by apply elem_of_nil in Hp. }
  split; [exact H1|]. split; [exact H2|].
  exact (main_no_directory_raises (ex_scan_args ["*.txt"; "old*"] true)
           (ex_scan_world []) H1 H2).
Defined.

(** * Further properties

    Properties of the code beside the claims: of [clean_dir] and [main]
    as a whole, of the classifier, and of the rest of the fixture. *)

(** ** [clean_dir]: frame, count and composition *)

Lemma unlink_all_trace d D w :
  w_trace (unlink_all w d D)
  = map (fun n => EvRemove (child d n)) (rev D) ++ w_trace w.
Proof.
  revert w. induction D as [|n D IH]; intros w; [done|].
  rewrite unlink_all_cons, IH. simpl. rewrite map_app, <- app_assoc. done.
Qed.

Lemma unlink_all_stdin d D w : w_stdin (unlink_all w d D) = w_stdin w.
Proof.
  revert w. induction D as [|n D IH]; intros w; [done|].
  by rewrite unlink_all_cons, IH.
Qed.

Lemma doomed_plan_checkpoint ns_ A l e :
  NoDup (names l) → e ∈ l →
  d_name e ∈ (doomed_plan (ArgsNamespace ns_) A l).1 → checkpoint e.
Proof.
  intros Hnd He Hin. unfold doomed_plan in Hin.
  apply plan_doomed_sub in Hin as [Hs Hf].
  apply elem_of_schedule in Hs as [_ Hl].
  apply fate_true_iff in Hf as (Hr & z & Hz & _); [|done..].
  split_and!; [done|exact Hl|by exists z].
Qed.

Lemma survivors_keep D l e : e ∈ l → d_name e ∉ D → e ∈ survivors D l.
Proof. intros. by apply list_elem_of_filter. Qed.

(** Property X1. Whatever [clean_dir] is given for [args] and however
    it ends (normally, with an exception, in a dry run), it leaves the
    listing of every other directory and the input as they were, it
    only removes entries of [d], and every entry of [d] that is not a
    regular file named [<label>.<numeric epoch>...] is still there. *)
Theorem clean_dir_touches_checkpoints_only (w : world) (d : path)
    (args : pyargs) (w' : world) (r : result unit) :
  NoDup (names (w_iterdir w d)) →
  clean_dir d args w = (w', r) →
  (∀ q, q ≠ d → w_iterdir w' q = w_iterdir w q)
  ∧ w_stdin w' = w_stdin w
  ∧ w_iterdir w' d `sublist_of` w_iterdir w d
  ∧ ∀ e, e ∈ w_iterdir w d → ¬ checkpoint e → e ∈ w_iterdir w' d.
Proof.
  intros Hnd Hrun.
  destruct args as [ns_|n0].
  2:{ destruct (clean_dir_int_raises d n0 w) as [e He]. rewrite He in Hrun.
      injection Hrun as <- <-. done. }
  destruct (dry_run ns_) eqn:Hdry.
  - rewrite clean_dir_dry in Hrun by done.
    destruct (analysis_of _) as [A|]; [|by injection Hrun as <- <-].
    cbn zeta in Hrun.
    destruct (doomed_plan _ A _).2; injection Hrun as <- <-; done.
  - rewrite clean_dir_wet in Hrun by done.
    destruct (analysis_of _) as [A|]; [|by injection Hrun as <- <-].
    cbn zeta in Hrun.
    assert (∀ e, e ∈ w_iterdir w d → ¬ checkpoint e →
                 e ∈ survivors (doomed_plan (ArgsNamespace ns_) A (w_iterdir w d)).1
                       (w_iterdir w d)) as Hkeep.
    { intros e He Hn. apply survivors_keep; [done|]. intros Hin.
      apply Hn. by eapply doomed_plan_checkpoint. }
    destruct (doomed_plan _ A _).2; injection Hrun as <- <-;
      cbn [log w_iterdir w_stdin];
      rewrite ?unlink_all_stdin, unlink_all_iterdir_d;
      (split_and!; [intros q Hq; by apply unlink_all_iterdir_ne|done
                   |apply sublist_filter|done]).
Qed.

(** Property X2. When [clean_dir] returns outside of a dry run, what
    it has done is to remove some files of [d], each one once, and then
    to print [Removed k files!], where [k] is the number of files
    removed and the number of entries by which the listing of [d] has
    shrunk. *)
Theorem clean_dir_reports_count (w : world) (d : path) (ns_ : Namespace)
    (w' : world) :
  NoDup (names (w_iterdir w d)) →
  dry_run ns_ = false →
  clean_dir d (ArgsNamespace ns_) w = (w', Ok tt) →
  ∃ doomed : list string,
    w_trace w'
    = EvPrint (removed_line (Z.of_nat (length doomed)))
      :: map (fun n => EvRemove (child d n)) (rev doomed) ++ w_trace w
    ∧ NoDup doomed
    ∧ (length (w_iterdir w' d) + length doomed = length (w_iterdir w d))%nat.
Proof.
  intros Hnd Hdry Hrun. rewrite clean_dir_wet in Hrun by done.
  destruct (analysis_of _) as [A|]; [|done]. cbn zeta in Hrun.
  set (p := doomed_plan (ArgsNamespace ns_) A (w_iterdir w d)) in *.
  destruct p.2 eqn:Hp2; [done|]. injection Hrun as <-.
  exists p.1. cbn [log w_trace w_iterdir]. rewrite unlink_all_trace, unlink_all_iterdir_d.
  assert (NoDup p.1) as Hd.
  { apply plan_NoDup, schedule_NoDup;
      [apply out_labels_NoDup|apply out_labels_exclusive|done]. }
  split_and!; [done|done|].
  apply survivors_length; [done|done|].
  intros n Hn. by apply doomed_plan_sub in Hn as [? _].
Qed.

Lemma plan_filter phi (P : string → Prop) `{!∀ n, Decision (P n)} ns :
  (plan phi ns).2 = None →
  plan phi (filter P ns) = (filter P (plan phi ns).1, None).
Proof.
  induction ns as [|n ns IH]; [done|]. cbn [plan].
  destruct (phi n) as [[|]|] eqn:Hphi; [| |done].
  - destruct (plan phi ns) as [D o] eqn:Hp. cbn [fst snd] in *. intros ->.
    specialize (IH eq_refl).
    destruct (decide (P n)).
    + rewrite !filter_cons_True by done. cbn [plan]. by rewrite Hphi, IH.
    + rewrite !filter_cons_False by done. done.
  - intros Hnone. specialize (IH Hnone).
    destruct (decide (P n)).
    + rewrite filter_cons_True by done. cbn [plan]. by rewrite Hphi.
    + by rewrite filter_cons_False by done.
Qed.

Lemma doomed_plan_after args A l D :
  (doomed_plan args A l).2 = None →
  doomed_plan args A (survivors D l)
  = (filter (fun n => n ∉ D) (doomed_plan args A l).1, None).
Proof.
  intros Hok. unfold doomed_plan in *. rewrite schedule_filter.
  rewrite <- plan_filter by done.
  apply plan_ext. intros n [Hn _]%list_elem_of_filter.
  unfold fate. by rewrite lookup_survivors.
Qed.

Lemma doomed_plan_files args A l n :
  n ∈ (doomed_plan args A l).1 → lookup_entry n l ≠ Some Dir.
Proof. intros (_ & load & ->)%doomed_plan_sub. done. Qed.

Lemma clean_dir_wet_ok w d ns_ w' :
  NoDup (names (w_iterdir w d)) → dry_run ns_ = false →
  clean_dir d (ArgsNamespace ns_) w = (w', Ok tt) ↔
  ∃ A, analysis_of (w_iterdir w d) = Ok A
       ∧ (doomed_plan (ArgsNamespace ns_) A (w_iterdir w d)).2 = None
       ∧ w' = log (EvPrint (removed_line
                    (Z.of_nat (length (doomed_plan (ArgsNamespace ns_) A (w_iterdir w d)).1))))
                (unlink_all w d (doomed_plan (ArgsNamespace ns_) A (w_iterdir w d)).1).
Proof.
  intros Hnd Hdry. rewrite clean_dir_wet by done.
  destruct (analysis_of _) as [A|e].
  2:{ split; [done|]. by intros (? & ? & _). }
  cbn zeta. destruct (doomed_plan _ A _).2 eqn:Hp.
  - split; [done|]. intros (A' & [= <-] & H & _). congruence.
  - split.
    + intros [= <-]. by exists A.
    + intros (A' & [= <-] & _ & ->). done.
Qed.

(** Property X3. Cleaning with two moduli commutes: if [clean_dir]
    returns from [w] with each of two settings, then it also returns
    with the second after the first and with the first after the
    second, both orders leave the same listings, and what is left in
    [d] is what each of the two runs alone keeps. *)
Theorem clean_dir_commutes (w : world) (d : path) (ns1 ns2 : Namespace)
    (w1 w2 : world) :
  NoDup (names (w_iterdir w d)) →
  dry_run ns1 = false → dry_run ns2 = false →
  clean_dir d (ArgsNamespace ns1) w = (w1, Ok tt) →
  clean_dir d (ArgsNamespace ns2) w = (w2, Ok tt) →
  ∃ w12 w21,
    clean_dir d (ArgsNamespace ns2) w1 = (w12, Ok tt)
    ∧ clean_dir d (ArgsNamespace ns1) w2 = (w21, Ok tt)
    ∧ (∀ q, w_iterdir w12 q = w_iterdir w21 q)
    ∧ ∀ e, e ∈ w_iterdir w12 d ↔ e ∈ w_iterdir w1 d ∧ e ∈ w_iterdir w2 d.
Proof.
  intros Hnd Hd1 Hd2 H1 H2.
  apply clean_dir_wet_ok in H1 as (A & HA & Hp1 & ->); [|done..].
  apply clean_dir_wet_ok in H2 as (A' & HA' & Hp2 & ->); [|done..].
  rewrite HA in HA'. injection HA' as <-.
  set (l := w_iterdir w d) in *.
  set (D1 := (doomed_plan (ArgsNamespace ns1) A l).1) in *.
  set (D2 := (doomed_plan (ArgsNamespace ns2) A l).1) in *.
  assert (∀ D ns_ k,
    (∀ n, n ∈ D → lookup_entry n l ≠ Some Dir) →
    (doomed_plan (ArgsNamespace ns_) A l).2 = None → dry_run ns_ = false →
    ∃ w'', clean_dir d (ArgsNamespace ns_) (log (EvPrint k) (unlink_all w d D))
           = (w'', Ok tt)
      ∧ (∀ q, q ≠ d → w_iterdir w'' q = w_iterdir w q)
      ∧ w_iterdir w'' d
        = survivors (D ++ filter (fun n => n ∉ D)
                            (doomed_plan (ArgsNamespace ns_) A l).1) l) as Hsecond.
  { intros D ns_ k HD Hp Hdry. eexists. split.
    { apply clean_dir_wet_ok; [|done|].
      { cbn [log w_iterdir]. rewrite unlink_all_iterdir_d.
        by apply names_NoDup_survivors. }
      exists A. cbn [log w_iterdir]. rewrite unlink_all_iterdir_d. fold l.
      rewrite analysis_survivors by done. split; [done|].
      rewrite (doomed_plan_after (ArgsNamespace ns_) A l D Hp). split; [done|reflexivity]. }
    cbn [log w_iterdir]. split.
    - intros q Hq. rewrite unlink_all_iterdir_ne by done.
      cbn [log w_iterdir]. by rewrite unlink_all_iterdir_ne.
    - rewrite unlink_all_iterdir_d. cbn [log w_iterdir].
      rewrite unlink_all_iterdir_d. fold l. cbn [fst].
      by rewrite survivors_survivors. }
  destruct (Hsecond D1 ns2 (removed_line (Z.of_nat (length D1))))
    as (w12 & Hr12 & Hf12 & Hl12); [apply doomed_plan_files|done..|].
  destruct (Hsecond D2 ns1 (removed_line (Z.of_nat (length D2))))
    as (w21 & Hr21 & Hf21 & Hl21); [apply doomed_plan_files|done..|].
  fold D1 in Hl21. fold D2 in Hl12.
  exists w12, w21. split_and!; [done|done| |].
  - intros q. destruct (decide (q = d)) as [->|Hq].
    + rewrite Hl12, Hl21. apply list_filter_iff. intros e.
      rewrite !elem_of_app, !list_elem_of_filter.
      destruct (decide (d_name e ∈ D1)), (decide (d_name e ∈ D2)); tauto.
    + by rewrite Hf12, Hf21.
  - intros e. rewrite Hl12. cbn [log w_iterdir].
    rewrite !unlink_all_iterdir_d. fold l. unfold survivors.
    rewrite !list_elem_of_filter, elem_of_app, list_elem_of_filter.
    destruct (decide (d_name e ∈ D1)), (decide (d_name e ∈ D2)); tauto.
Qed.

Lemma plan_all_false phi ns :
  (∀ n, n ∈ ns → phi n = Ok false) → plan phi ns = ([], None).
Proof.
  induction ns as [|n ns IH]; [done|]. intros H. cbn [plan].
  rewrite (H n) by left. apply IH. intros m Hm. apply H. by right.
Qed.

Lemma outside_retention_divisor fine coarse A epoch :
  every_n_epochs fine ≠ 0 →
  (every_n_epochs fine | every_n_epochs coarse) →
  outside_retention (ArgsNamespace coarse) A epoch = Ok false →
  outside_retention (ArgsNamespace fine) A epoch = Ok false.
Proof.
  intros Hnz Hdiv. unfold outside_retention, get_every_n_epochs, int_mod.
  destruct (negb (isnumeric epoch)); [done|].
  destruct (int_of_str epoch) as [z|]; [|done].
  destruct (every_n_epochs coarse =? 0) eqn:Hc; [done|].
  apply Z.eqb_neq in Hc.
  pose proof (proj2 (Z.eqb_neq _ _) Hnz) as Hf. rewrite Hf.
  destruct (z mod every_n_epochs coarse =? 0) eqn:Hm.
  - intros _. apply Z.eqb_eq in Hm.
    assert (z mod every_n_epochs fine = 0) as ->; [|done].
    apply Z.mod_divide; [done|]. eapply Z.divide_trans; [exact Hdiv|].
    by apply Z.mod_divide.
  - intros [= Hb]. rewrite Hb. by destruct (z mod every_n_epochs fine =? 0).
Qed.

(** Property X4. After a run of [clean_dir] with a modulus, a run with
    a non-zero divisor of that modulus removes nothing and prints
    [Removed 0 files!] (with the modulus itself, this is idempotence). *)
Theorem clean_dir_divisor_after_multiple (w : world) (d : path)
    (coarse fine : Namespace) (w1 : world) :
  NoDup (names (w_iterdir w d)) →
  dry_run coarse = false → dry_run fine = false →
  every_n_epochs fine ≠ 0 →
  (every_n_epochs fine | every_n_epochs coarse) →
  clean_dir d (ArgsNamespace coarse) w = (w1, Ok tt) →
  clean_dir d (ArgsNamespace fine) w1
  = (log (EvPrint (removed_line 0)) w1, Ok tt).
Proof.
  intros Hnd Hdc Hdf Hnz Hdiv H1.
  apply clean_dir_wet_ok in H1 as (A & HA & Hp & ->); [|done..].
  set (l := w_iterdir w d) in *.
  set (D := (doomed_plan (ArgsNamespace coarse) A l).1) in *.
  set (w1 := log _ _).
  assert (w_iterdir w1 d = survivors D l) as Hl1.
  { unfold w1. cbn [log w_iterdir]. by rewrite unlink_all_iterdir_d. }
  apply clean_dir_wet_ok; [rewrite Hl1; by apply names_NoDup_survivors|done|].
  exists A. rewrite Hl1.
  rewrite analysis_survivors by apply doomed_plan_files.
  split; [done|].
  assert (doomed_plan (ArgsNamespace fine) A (survivors D l) = ([], None)) as ->.
  { unfold doomed_plan. apply plan_all_false. intros n Hn.
    rewrite schedule_filter in Hn. apply list_elem_of_filter in Hn as [HnD Hn].
    unfold doomed_plan in Hp.
    apply plan_ok in Hp as Hok. destruct Hok as [HD Hok].
    assert (fate (ArgsNamespace coarse) A l n = Ok false) as Hc.
    { specialize (Hok n Hn).
      destruct (fate (ArgsNamespace coarse) A l n) as [[|]|] eqn:Hf; [|done..].
      exfalso. apply HnD. unfold D, doomed_plan. rewrite HD.
      by apply list_elem_of_filter. }
    unfold fate in *. rewrite lookup_survivors by done.
    destruct (list_index _ 1) as [epoch|]; [|done].
    destruct (lookup_entry n l) as [[| |]|]; try done.
    by eapply outside_retention_divisor. }
  done.
Qed.

(** Property X5. With [every_n_epochs] equal to 1 or -1, [clean_dir]
    removes nothing: every epoch is a multiple of the modulus. *)
Theorem clean_dir_unit_modulus (w : world) (d : path) (ns_ : Namespace) :
  NoDup (names (w_iterdir w d)) →
  dry_run ns_ = false →
  every_n_epochs ns_ = 1 ∨ every_n_epochs ns_ = -1 →
  decimal_epochs (w_iterdir w d) = true →
  clean_dir d (ArgsNamespace ns_) w = (log (EvPrint (removed_line 0)) w, Ok tt).
Proof.
  intros Hnd Hdry Hunit Hdec.
  destruct (clean_dir_returns w d ns_) as [w' Hrun]; [done|done|lia|done|].
  rewrite Hrun. apply clean_dir_wet_ok in Hrun as (A & HA & Hp & ->); [|done..].
  assert ((doomed_plan (ArgsNamespace ns_) A (w_iterdir w d)).1 = []) as ->; [|done].
  apply elem_of_nil_inv. intros n Hn.
  pose proof Hn as [Hin _]%doomed_plan_sub.
  apply elem_of_names in Hin as (e & He & <-).
  unfold doomed_plan in Hn. apply plan_doomed_sub in Hn as [_ Hf].
  apply fate_true_iff in Hf as (_ & z & _ & _ & Hm & _); [|done..].
  apply Hm. destruct Hunit as [-> | ->].
  - apply Z.mod_1_r.
  - apply Z.mod_divide; [done|]. exists (- z). lia.
Qed.

Lemma for_in_ext {A S} (l : list A) (f g : A → S → M S) s w :
  (∀ x s w, x ∈ l → f x s w = g x s w) →
  for_in l f s w = for_in l g s w.
Proof.
  revert s w. induction l as [|x l IH]; intros s w H; [done|].
  simpl. unfold bind. rewrite (H x) by left.
  destruct (g x s w) as [w1 [s1|e]]; [|done].
  apply IH. intros. apply H. by right.
Qed.

Lemma outside_retention_sign ns_ A epoch :
  outside_retention
    (ArgsNamespace (with_every_n_epochs (- every_n_epochs ns_) ns_)) A epoch
  = outside_retention (ArgsNamespace ns_) A epoch.
Proof.
  unfold outside_retention, get_every_n_epochs, int_mod. cbn [every_n_epochs with_every_n_epochs].
  destruct (negb (isnumeric epoch)); [done|].
  destruct (int_of_str epoch) as [z|]; [|done].
  destruct (every_n_epochs ns_ =? 0) eqn:Hz.
  - apply Z.eqb_eq in Hz. by rewrite Hz.
  - apply Z.eqb_neq in Hz.
    assert (((- every_n_epochs ns_) =? 0) = false) as -> by (apply Z.eqb_neq; lia).
    assert ((z mod (- every_n_epochs ns_) =? 0) = (z mod every_n_epochs ns_ =? 0)) as ->; [|done].
    apply eq_iff_eq_true. rewrite !Z.eqb_eq.
    rewrite !Z.mod_divide by lia. apply Z.divide_opp_l.
Qed.

(** Property X6. The sign of [every_n_epochs] does not matter:
    [clean_dir] with [-N] does to every world what it does with [N]
    (for [N = 0] both raise). *)
Theorem clean_dir_modulus_sign (d : path) (ns_ : Namespace) (w : world) :
  clean_dir d (ArgsNamespace (with_every_n_epochs (- every_n_epochs ns_) ns_)) w
  = clean_dir d (ArgsNamespace ns_) w.
Proof.
  unfold clean_dir. unfold bind at 1 5.
  destruct (analysis_epochs d w) as [w1 [A|e]]; [|done].
  unfold bind at 1 4.
  assert (∀ c w,
    for_in out_labels
      (λ out_lbl rmv_count,
         bind (glob_label d out_lbl)
           (λ out_fls,
              for_in out_fls
                (clean_file
                   (ArgsNamespace
                      (with_every_n_epochs (- every_n_epochs ns_) ns_)) A)
                rmv_count)) c w
    = for_in out_labels
      (λ out_lbl rmv_count,
         bind (glob_label d out_lbl)
           (λ out_fls,
              for_in out_fls (clean_file (ArgsNamespace ns_) A) rmv_count))
      c w) as ->.
  { intros c w0. apply for_in_ext. intros lbl c' w' _. unfold bind.
    destruct (glob_label d lbl w') as [w2 [fls|]]; [|done].
    apply for_in_ext. intros p c2 w3 _.
    unfold clean_file, must_remove. unfold bind.
    destruct (lift (second_token p) w3) as [w4 [epoch|]]; [|done].
    destruct (is_file p w4) as [w5 [[|]|]]; try done.
    unfold lift. by rewrite outside_retention_sign. }
  done.
Qed.

(** ** [main]: what it leaves alone *)

Lemma untouched_refl w : untouched w w.
Proof. done. Qed.

Lemma untouched_trans w1 w2 w3 : untouched w1 w2 → untouched w2 w3 → untouched w1 w3.
Proof. intros (?&?&?&?) (?&?&?&?). unfold untouched. split_and!; congruence. Qed.

Lemma untouched_log ev w : untouched w (log ev w).
Proof. done. Qed.

Lemma untouched_outside_refl d w : untouched_outside d w w.
Proof. done. Qed.

Lemma untouched_outside_trans d w1 w2 w3 :
  untouched_outside d w1 w2 → untouched_outside d w2 w3 → untouched_outside d w1 w3.
Proof.
  intros (H1&Hg1&Hc1&Hs1) (H2&Hg2&Hc2&Hs2). unfold untouched_outside.
  split_and!; try congruence. intros q Hq. by rewrite H2, H1.
Qed.

Lemma untouched_weaken d w w' : untouched w w' → untouched_outside d w w'.
Proof. intros (H&?&?&?). split_and!; try done. intros q _. by rewrite H. Qed.

Lemma for_in_preserves {A S} (R : world → world → Prop) (l : list A)
    (body : A → S → M S) s w :
  (∀ w, R w w) → (∀ w1 w2 w3, R w1 w2 → R w2 w3 → R w1 w3) →
  (∀ x s w, x ∈ l → R w (body x s w).1) →
  R w (for_in l body s w).1.
Proof.
  intros Hrefl Htrans. revert s w.
  induction l as [|x l IH]; intros s w Hbody; [apply Hrefl|].
  simpl. unfold bind. pose proof (Hbody x s w ltac:(left)) as H1.
  destruct (body x s w) as [w1 [s1|e]]; [|done].
  eapply Htrans; [exact H1|]. apply IH. intros. apply Hbody. by right.
Qed.

(** what [clean_dir] does, whatever the listing *)
Lemma clean_dir_preserves (R : world → world → Prop) d args w :
  (∀ w, R w w) → (∀ w1 w2 w3, R w1 w2 → R w2 w3 → R w1 w3) →
  (∀ w ev, quiet_event ev → R w (log ev w)) →
  (get_dry_run args = Ok false → ∀ w n, R w (unlink w d n)) →
  R w (clean_dir d args w).1.
Proof.
  intros Hrefl Htrans Hlog Hrm.
  unfold clean_dir. unfold bind at 1. rewrite analysis_epochs_of.
  destruct (analysis_of _) as [A|]; [|apply Hrefl].
  unfold bind at 1.
  assert (R w (for_in out_labels
    (λ out_lbl rmv_count,
       bind (glob_label d out_lbl)
         (λ out_fls, for_in out_fls (clean_file args A) rmv_count)) 0 w).1) as H1.
  { apply for_in_preserves; [done|done|]. intros lbl c w0 _.
    unfold bind. rewrite glob_label_snap.
    apply for_in_preserves; [done|done|]. intros p c' w1 Hp.
    apply list_elem_of_fmap in Hp as (n & -> & _).
    rewrite clean_file_step.
    destruct (fate _ _ _ _) as [[|]|]; try apply Hrefl.
    destruct (get_dry_run args) as [[|]|] eqn:Hd; try apply Hrefl.
    by apply Hrm. }
  destruct (for_in out_labels _ 0 w) as [w1 [c1|e]]; [|done].
  eapply Htrans; [exact H1|]. unfold bind, lift.
  destruct (get_dry_run args) as [[|]|]; try apply Hrefl; by apply Hlog.
Qed.

Lemma clean_dir_untouched_outside d args w :
  untouched_outside d w (clean_dir d args w).1.
Proof.
  apply clean_dir_preserves.
  - apply untouched_outside_refl.
  - apply untouched_outside_trans.
  - intros. by apply untouched_weaken.
  - intros _ w0 n. split_and!; try done. intros q Hq. simpl. by rewrite decide_False.
Qed.

Lemma clean_dir_dry_untouched d ns_ w :
  dry_run ns_ = true → untouched w (clean_dir d (ArgsNamespace ns_) w).1.
Proof.
  intros Hdry. apply clean_dir_preserves.
  - apply untouched_refl.
  - apply untouched_trans.
  - done.
  - simpl. congruence.
Qed.

Lemma clean_dir_no_input d args w :
  extends (fun ev => ¬ is_input ev) w (clean_dir d args w).1.
Proof.
  apply (clean_dir_preserves (extends (fun ev => ¬ is_input ev))).
  - apply extends_refl.
  - apply extends_trans.
  - intros w0 ev Hq. apply extends_log. intros (? & ? & ->). done.
  - intros _ w0 n. exists [EvRemove (d ++ [n])]. split; [done|].
    constructor; [|done]. intros (? & ? & ?). done.
Qed.

Lemma check_open_config_untouched d w :
  untouched w (check_open_config d w).1.
Proof.
  rewrite check_open_config_eq.
  destruct (first_config _ _) as [c|]; [|done].
  by destruct (lookup_entry c (w_iterdir w d)) as [[load| |]|].
Qed.

(** the result of [check_open_config] depends on the listing only *)
Lemma check_open_config_listing d w w' :
  w_iterdir w' d = w_iterdir w d →
  (check_open_config d w').2 = (check_open_config d w).2.
Proof.
  intros H. rewrite !check_open_config_eq, H.
  destruct (first_config _ _) as [c|]; [|done].
  by destruct (lookup_entry c (w_iterdir w d)) as [[load| |]|].
Qed.

(** the ways through [_prompt_dir] *)
Lemma prompt_dir_cases d cfg maxlen args w :
  ∃ w1, (w1 = w ∨ ∃ msg, w1 = log (EvPrint (status_line d maxlen msg)) w)
    ∧ ((truthy cfg = false ∧ _prompt_dir d cfg maxlen args w = (w1, Ok tt))
       ∨ (truthy cfg = true ∧ force args || dry_run args = true
          ∧ _prompt_dir d cfg maxlen args w = clean_dir d (ArgsNamespace args) w1)
       ∨ (truthy cfg = true ∧ force args || dry_run args = false
          ∧ w_stdin w = []
          ∧ _prompt_dir d cfg maxlen args w = (w1, Raise EOFError))
       ∨ (truthy cfg = true ∧ force args || dry_run args = false
          ∧ ∃ answer rest, w_stdin w = answer :: rest
            ∧ ((declines answer
                ∧ _prompt_dir d cfg maxlen args w
                  = (consume (prompt_of d) answer rest w1, Ok tt))
               ∨ (¬ declines answer
                  ∧ _prompt_dir d cfg maxlen args w
                    = clean_dir d (ArgsNamespace args)
                        (consume (prompt_of d) answer rest w1))))).
Proof.
  set (line := status_line d maxlen
                 (if negb (truthy cfg)
                  then str_replace "is a" "is not a" "is a cryoDRGN directory"
                  else "is a cryoDRGN directory")).
  assert (∃ w1, (w1 = w ∨ ∃ msg, w1 = log (EvPrint (status_line d maxlen msg)) w)
                ∧ (if truthy cfg && dry_run args
                      || negb (truthy cfg) && (0 <? verbose args)
                   then print line else ret tt) w = (w1, Ok tt))
    as (w1 & Hw1 & Hbanner).
  { destruct (_ || _).
    - eexists. split; [|reflexivity]. right. by eexists.
    - exists w. split; [by left|reflexivity]. }
  exists w1. split; [done|].
  assert (w_stdin w1 = w_stdin w) as Hin.
  { by destruct Hw1 as [->|[msg ->]]. }
  assert (_prompt_dir d cfg maxlen args w
          = (if truthy cfg then
               if force args || dry_run args
               then clean_dir d (ArgsNamespace args)
               else
                 bind (input (prompt_of d))
                   (fun prompt =>
                      if negb (existsb (String.eqb prompt) ["s"; "skip"])
                      then clean_dir d (ArgsNamespace args)
                      else ret tt)
             else ret tt) w1) as ->.
  { unfold _prompt_dir. cbn zeta. unfold bind at 1.
    fold (status_line d maxlen
            (if negb (truthy cfg)
             then str_replace "is a" "is not a" "is a cryoDRGN directory"
             else "is a cryoDRGN directory")).
    fold line. rewrite Hbanner. by destruct (truthy cfg). }
  destruct (truthy cfg) eqn:Ht; [|by left].
  right. destruct (force args || dry_run args) eqn:Hf; [by left|].
  right. unfold bind, input. rewrite Hin.
  destruct (w_stdin w) as [|answer rest] eqn:Hstdin; [by left|].
  right. split_and!; [done..|]. exists answer, rest. split; [done|].
  fold (consume (prompt_of d) answer rest w1).
  destruct (decide (declines answer)) as [Hd|Hd].
  - left. split; [done|].
    assert (existsb (String.eqb answer) ["s"; "skip"] = true) as ->; [|done].
    destruct Hd as [-> | ->]; reflexivity.
  - right. split; [done|].
    assert (existsb (String.eqb answer) ["s"; "skip"] = false) as ->; [|done].
    simpl. rewrite orb_false_r. apply orb_false_iff. unfold declines in Hd.
    split; apply String.eqb_neq; intros ->; tauto.
Qed.

Lemma collect_dirs_from gs acc w :
  for_in gs
    (fun outglob acc =>
       bind (glob outglob)
         (fun ps =>
            for_in ps
              (fun p acc =>
                 bind (is_dir p)
                   (fun isd => if isd then ret (acc ++ [p]) else ret acc))
              acc))
    acc w = (w, collect_from w gs acc).
Proof.
  revert acc. induction gs as [|g gs IH]; intros acc; [done|].
  simpl. unfold bind at 1. unfold bind at 1. unfold glob at 1.
  destruct (w_glob w g) as [ps|e]; [|done].
  rewrite collect_inner. cbv beta iota. apply IH.
Qed.

Lemma collect_dirs_eq gs w : collect_dirs gs w = (w, collect_from w gs []).
Proof. apply collect_dirs_from. Qed.

Lemma collect_from_elem w gs acc found p :
  collect_from w gs acc = Ok found →
  p ∈ found ↔
  p ∈ acc ∨ ∃ g ps, g ∈ gs ∧ w_glob w g = Ok ps ∧ p ∈ ps ∧ stat w p = Some Dir.
Proof.
  revert acc. induction gs as [|g gs IH]; intros acc; simpl.
  { intros [= <-]. split; [by left|]. intros [?|(g & ps & Hg%elem_of_nil & _)]; done. }
  destruct (w_glob w g) as [ps|e] eqn:Hg; [|done].
  intros Hrun. rewrite (IH _ Hrun), elem_of_app, list_elem_of_filter.
  assert (∀ q, is_dir_at w q ↔ stat w q = Some Dir) as Hdir.
  { intros q. unfold is_dir_at.
    destruct (stat w q) as [[| |]|]; split; intros; done. }
  rewrite Hdir. split.
  - intros [[?|[? ?]]|(g' & ps' & ? & ? & ? & ?)]; [by left|right..].
    + exists g, ps. split_and!; try done. left.
    + exists g', ps'. split_and!; try done. by right.
  - intros [?|(g' & ps' & [->|?]%elem_of_cons & Hg' & ? & ?)].
    + by left; left.
    + rewrite Hg in Hg'. injection Hg' as <-. left. by right.
    + right. by exists g', ps'.
Qed.

Lemma elem_of_sorted_set l p : p ∈ sorted_set l ↔ p ∈ l.
Proof.
  unfold sorted_set. rewrite merge_sort_Permutation. apply elem_of_remove_dups.
Qed.

Lemma main_eq args w :
  main args w =
  match outglobs args with
  | [] => clean_dir (w_cwd w) (ArgsInt (every_n_epochs args)) w
  | _ :: _ =>
      match collect_from w (outglobs args) [] with
      | Raise e => (w, Raise e)
      | Ok found =>
          match max_by path_len (sorted_set found) with
          | Raise e => (w, Raise e)
          | Ok longest =>
              scan_loop args (path_len longest) (sorted_set found) w
          end
      end
  end.
Proof.
  unfold main. destruct (outglobs args) as [|g gs]; [done|].
  unfold bind at 1. rewrite collect_dirs_eq.
  destruct (collect_from _ _ _) as [found|]; [|done].
  unfold bind, lift. by destruct (max_by _ _).
Qed.

Lemma scan_one_eq cur maxlen args w :
  scan_one cur maxlen args w =
  match check_open_config cur w with
  | (w1, Raise e) => (w1, Raise e)
  | (w1, Ok cfg) =>
      match _prompt_dir cur cfg maxlen args (log (EvScan cur cfg) w1) with
      | (w2, Ok _) => (w2, Ok cfg)
      | (w2, Raise e) => (w2, Raise e)
      end
  end.
Proof.
  unfold scan_one. unfold bind at 1.
  destruct (check_open_config cur w) as [w1 [cfg|e]]; [|done].
  unfold bind at 1, record_scan. unfold bind.
  by destruct (_prompt_dir _ _ _ _ _) as [w2 [[]|]].
Qed.

Lemma scan_loop_preserves (R : world → world → Prop) args maxlen q :
  (∀ w, R w w) → (∀ w1 w2 w3, R w1 w2 → R w2 w3 → R w1 w3) →
  (∀ cur w, cur ∈ q → R w (scan_one cur maxlen args w).1) →
  ∀ w, R w (scan_loop args maxlen q w).1.
Proof.
  intros Hrefl Htrans.
  remember (length q) as k eqn:Hk. revert q Hk.
  induction k as [k IH] using lt_wf_ind. intros q -> Hstep w.
  destruct q as [|cur rest].
  { rewrite scan_loop_equation_1. apply Hrefl. }
  rewrite scan_loop_equation_2.
  pose proof (Hstep cur w ltac:(left)) as H1.
  destruct (scan_one cur maxlen args w) as [w1 r1] eqn:Hone.
  destruct r1 as [cfg|e]; unfold scan_loop_unfold_clause_2.
  2:{ exact H1. }
  eapply Htrans; [exact H1|].
  apply (IH (length (next_scan_dirs cur cfg rest))
           ltac:(pose proof (next_scan_dirs_length cur cfg rest); simpl; lia)
           (next_scan_dirs cur cfg rest) eq_refl).
  intros c w' Hc. apply Hstep. right. by eapply next_scan_dirs_sub.
Qed.

Lemma main_preserves (R : world → world → Prop) args w :
  (∀ w, R w w) → (∀ w1 w2 w3, R w1 w2 → R w2 w3 → R w1 w3) →
  (∀ cur maxlen w', matched args w cur → R w' (scan_one cur maxlen args w').1) →
  R w (main args w).1.
Proof.
  intros Hrefl Htrans Hstep.
  destruct (outglobs args) as [|g gs] eqn:Hg.
  { destruct (main_no_globs args w Hg) as [e ->]. apply Hrefl. }
  rewrite main_eq, Hg. rewrite <- Hg.
  destruct (collect_from _ _ _) as [found|] eqn:Hfound; [|apply Hrefl].
  destruct (max_by _ _) as [longest|]; [|apply Hrefl].
  apply scan_loop_preserves; [done..|].
  intros cur w' Hcur. apply Hstep.
  rewrite elem_of_sorted_set in Hcur.
  rewrite (collect_from_elem _ _ _ _ _ Hfound) in Hcur.
  destruct Hcur as [Hcur|Hcur]; [|done].
  by apply elem_of_nil in Hcur.
Qed.

(** one turn leaves the other directories alone *)
Lemma prompt_dir_files_outside d cfg maxlen args w q :
  q ≠ d → w_iterdir (_prompt_dir d cfg maxlen args w).1 q = w_iterdir w q.
Proof.
  intros Hq.
  destruct (prompt_dir_cases d cfg maxlen args w) as (w1 & Hw1 & Hcases).
  assert (w_iterdir w1 = w_iterdir w) as Hl by (by destruct Hw1 as [->|[msg ->]]).
  destruct Hcases as [(_ & ->)|[(_ & _ & ->)|[(_ & _ & _ & ->)
    |(_ & _ & answer & rest & _ & [(_ & ->)|(_ & ->)])]]]; cbn [fst].
  - by rewrite Hl.
  - destruct (clean_dir_untouched_outside d (ArgsNamespace args) w1) as (H & _).
    by rewrite H, Hl.
  - by rewrite Hl.
  - cbn [consume w_iterdir]. by rewrite Hl.
  - destruct (clean_dir_untouched_outside d (ArgsNamespace args)
                (consume (prompt_of d) answer rest w1)) as (H & _).
    rewrite H by done. cbn [consume w_iterdir]. by rewrite Hl.
Qed.

Lemma scan_one_files_outside cur maxlen args w q :
  q ≠ cur → w_iterdir (scan_one cur maxlen args w).1 q = w_iterdir w q.
Proof.
  intros Hq. rewrite scan_one_eq.
  destruct (check_open_config_untouched cur w) as (Hl & _).
  destruct (check_open_config cur w) as [w1 [cfg|e]]; cbn [fst] in *;
    [|by rewrite Hl].
  pose proof (prompt_dir_files_outside cur cfg maxlen args
                (log (EvScan cur cfg) w1) q Hq) as H.
  destruct (_prompt_dir _ _ _ _ _) as [w2 [[]|]]; cbn [fst] in *;
    rewrite H; cbn [log w_iterdir]; by rewrite Hl.
Qed.

(** one turn on a directory that is not recognized changes no file *)
Lemma scan_one_unrecognized cur maxlen args w :
  (∀ v, (check_open_config cur w).2 = Ok v → truthy v = false) →
  w_iterdir (scan_one cur maxlen args w).1 = w_iterdir w.
Proof.
  intros Hcfg. rewrite scan_one_eq.
  destruct (check_open_config_untouched cur w) as (Hl & _).
  destruct (check_open_config cur w) as [w1 [cfg|e]].
  2:{ exact Hl. }
 
  specialize (Hcfg cfg eq_refl).
  destruct (prompt_dir_cases cur cfg maxlen args (log (EvScan cur cfg) w1))
    as (w2 & Hw2 & Hcases).
  destruct Hcases as [(_ & Hrun)|[(Ht & _)|[(Ht & _)|(Ht & _)]]];
    [|rewrite Hcfg in Ht; discriminate..].
 
  rewrite Hrun. cbn [fst]. destruct Hw2 as [->|[msg ->]]; exact Hl.
Qed.

Lemma scan_one_dry cur maxlen args w :
  dry_run args = true → untouched w (scan_one cur maxlen args w).1.
Proof.
  intros Hdry. rewrite scan_one_eq.
  pose proof (check_open_config_untouched cur w) as H1.
  destruct (check_open_config cur w) as [w1 [cfg|e]]; cbn [fst] in *; [|done].
  eapply untouched_trans; [exact H1|].
  eapply untouched_trans; [apply (untouched_log (EvScan cur cfg))|].
  destruct (prompt_dir_cases cur cfg maxlen args (log (EvScan cur cfg) w1))
    as (w2 & Hw2 & Hcases).
  assert (untouched (log (EvScan cur cfg) w1) w2) as H2.
  { by destruct Hw2 as [->|[msg ->]]. }
  assert (force args || dry_run args = true) as Hfd.
  { rewrite Hdry. apply orb_true_r. }
  destruct Hcases as [(_ & ->)|[(_ & _ & ->)|[(_ & Hf & _)|(_ & Hf & _)]]];
    [done| |congruence..].
  pose proof (clean_dir_dry_untouched cur args w2 Hdry) as H3.
  destruct (clean_dir _ _ _) as [w3 [[]|]]; cbn [fst] in *;
    by eapply untouched_trans.
Qed.

(** Property X7. With [--dry-run], [main] removes no file and reads no
    input, whatever the patterns, the directories and their
    configurations, and however it ends. *)
Theorem main_dry_run_changes_nothing (args : Namespace) (w : world) :
  dry_run args = true →
  w_iterdir (main args w).1 = w_iterdir w
  ∧ w_stdin (main args w).1 = w_stdin w.
Proof.
  intros Hdry.
  assert (untouched w (main args w).1) as (? & _ & _ & ?); [|done].
  apply main_preserves; [apply untouched_refl|apply untouched_trans|].
  intros cur maxlen w' _. by apply scan_one_dry.
Qed.

Lemma no_prompt_refl w : no_prompt w w.
Proof. split; [done|apply extends_refl]. Qed.

Lemma no_prompt_trans w1 w2 w3 : no_prompt w1 w2 → no_prompt w2 w3 → no_prompt w1 w3.
Proof.
  intros [H1 E1] [H2 E2]. split; [congruence|by eapply extends_trans].
Qed.

Lemma no_prompt_log ev w : ¬ is_input ev → no_prompt w (log ev w).
Proof. intros. split; [done|by apply extends_log]. Qed.

Lemma scan_one_forced cur maxlen args w :
  force args = true → no_prompt w (scan_one cur maxlen args w).1.
Proof.
  intros Hforce. rewrite scan_one_eq.
  assert (no_prompt w (check_open_config cur w).1) as H1.
  { split; [apply check_open_config_untouched|].
    destruct (check_open_config cur w) as [w1 r1] eqn:Hc.
    apply check_open_config_events in Hc as [Hc _].
    eapply extends_mono; [|exact Hc]. intros ev [p ->] (? & ? & ?). done. }
  destruct (check_open_config cur w) as [w1 [cfg|e]]; cbn [fst] in *; [|done].
  eapply no_prompt_trans; [exact H1|].
  eapply no_prompt_trans.
  { apply (no_prompt_log (EvScan cur cfg)). intros (? & ? & ?). done. }
  destruct (prompt_dir_cases cur cfg maxlen args (log (EvScan cur cfg) w1))
    as (w2 & Hw2 & Hcases).
  assert (no_prompt (log (EvScan cur cfg) w1) w2) as H2.
  { destruct Hw2 as [->|[msg ->]]; [apply no_prompt_refl|].
    apply no_prompt_log. intros (? & ? & ?). done. }
  destruct Hcases as [(_ & ->)|[(_ & _ & ->)|[(_ & Hf & _)|(_ & Hf & _)]]];
    [done| |rewrite Hforce in Hf; discriminate..].
  assert (no_prompt w2 (clean_dir cur (ArgsNamespace args) w2).1) as H3.
  { split; [apply clean_dir_untouched_outside|apply clean_dir_no_input]. }
  destruct (clean_dir _ _ _) as [w3 [[]|]]; cbn [fst] in *;
    by eapply no_prompt_trans.
Qed.

(** Property X8. With [--force], [main] never asks: no line of input
    is read, and no prompt appears in the trace. *)
Theorem main_force_never_prompts (args : Namespace) (w : world) :
  force args = true →
  w_stdin (main args w).1 = w_stdin w
  ∧ ∃ new, w_trace (main args w).1 = new ++ w_trace w
      ∧ ∀ prompt answer, EvInput prompt answer ∉ new.
Proof.
  intros Hforce.
  assert (no_prompt w (main args w).1) as [Hin (new & Hnew & Hall)].
  { apply main_preserves; [apply no_prompt_refl|apply no_prompt_trans|].
    intros cur maxlen w' _. by apply scan_one_forced. }
  split; [done|]. exists new. split; [done|].
  intros prompt answer Hev. rewrite Forall_forall in Hall.
  apply (Hall _ Hev). by eexists _, _.
Qed.

Lemma declined_refl w : declined w w.
Proof. by intros ?. Qed.

Lemma declined_trans w1 w2 w3 : declined w1 w2 → declined w2 w3 → declined w1 w3.
Proof.
  intros H1 H2 H. destruct (H1 H) as [E1 F1]. destruct (H2 F1) as [E2 F2].
  split; [congruence|done].
Qed.

Lemma declined_untouched w w' : untouched w w' → declined w w'.
Proof. intros (Hl & _ & _ & Hs) Hall. rewrite Hs. done. Qed.

Lemma scan_one_declined cur maxlen args w :
  force args = false → dry_run args = false →
  declined w (scan_one cur maxlen args w).1.
Proof.
  intros Hforce Hdry. rewrite scan_one_eq.
  pose proof (check_open_config_untouched cur w) as H1.
  destruct (check_open_config cur w) as [w1 [cfg|e]]; cbn [fst] in *;
    [|by apply declined_untouched].
  destruct (prompt_dir_cases cur cfg maxlen args (log (EvScan cur cfg) w1))
    as (w2 & Hw2 & Hcases).
  assert (untouched w w2) as H2.
  { eapply untouched_trans; [exact H1|]. by destruct Hw2 as [->|[msg ->]]. }
  assert (force args || dry_run args = false) as Hfd by (by rewrite Hforce, Hdry).
  destruct Hcases as [(_ & ->)|[(_ & Hf & _)|[(_ & _ & _ & ->)
    |(_ & _ & answer & rest & Hin & [(_ & ->)|(Hn & _)])]]]; cbn [fst].
  - by apply declined_untouched.
  - congruence.
  - by apply declined_untouched.
  - destruct H2 as (Hl & _ & _ & Hs). intros Hall.
    cbn [consume w_iterdir w_stdin]. split; [done|].
    cbn [log w_stdin] in Hin. destruct Hw2 as [->|[msg ->]];
      cbn [log w_stdin] in Hs; destruct H1 as (_ & _ & _ & Hs1);
      rewrite <- Hs1, Hin in Hall; by apply Forall_inv_tail in Hall.
  - intros Hall. exfalso. apply Hn.
    destruct H1 as (_ & _ & _ & Hs1). cbn [log w_stdin] in Hin.
    rewrite <- Hs1, Hin in Hall. by apply Forall_inv in Hall.
Qed.

(** Property X9. Without [--force] and [--dry-run], if every line of
    input left is [s] or [skip], [main] removes no file (when the input
    runs out, the prompt raises [EOFError] and nothing is removed
    either). *)
Theorem main_declined_changes_no_file (args : Namespace) (w : world) :
  force args = false → dry_run args = false →
  Forall declines (w_stdin w) →
  w_iterdir (main args w).1 = w_iterdir w.
Proof.
  intros Hforce Hdry Hall.
  assert (declined w (main args w).1) as H.
  { apply main_preserves; [apply declined_refl|apply declined_trans|].
    intros cur maxlen w' _. by apply scan_one_declined. }
  by destruct (H Hall).
Qed.

(** Property X10. A directory that [check_open_config] does not
    recognize in the initial world (the result is falsy, or an
    exception) has the same listing when [main] ends, whatever else is
    cleaned. *)
Theorem main_spares_unrecognized (args : Namespace) (w : world) (d : path) :
  (∀ v, (check_open_config d w).2 = Ok v → truthy v = false) →
  w_iterdir (main args w).1 d = w_iterdir w d.
Proof.
  intros Hcfg.
  apply (main_preserves
    (fun w w' => (∀ v, (check_open_config d w).2 = Ok v → truthy v = false) →
                 w_iterdir w' d = w_iterdir w d)); [done| | |done].
  - intros w1 w2 w3 H12 H23 H1. specialize (H12 H1). rewrite <- H12.
    apply H23. intros v. rewrite (check_open_config_listing d w1 w2 H12).
    apply H1.
  - intros cur maxlen w' _ H.
    destruct (decide (cur = d)) as [->|Hne].
    + by rewrite scan_one_unrecognized.
    + by apply scan_one_files_outside.
Qed.

(** Property X11. A directory that no pattern of the command line
    yields has the same listing when [main] ends: subdirectories of a
    cleaned directory, for one, are only cleaned if a pattern yields
    them. *)
Theorem main_spares_unmatched (args : Namespace) (w : world) (d : path) :
  ¬ matched args w d →
  w_iterdir (main args w).1 d = w_iterdir w d.
Proof.
  intros Hd.
  apply (main_preserves (fun w w' => w_iterdir w' d = w_iterdir w d));
    [done|congruence|].
  intros cur maxlen w' Hcur. apply scan_one_files_outside. by intros ->.
Qed.

(** ** The order of the scan *)

(** Property X12. [main] classifies directories in the order of
    [sorted(set(...))]: the directories classified, in the order of
    their classification, are a sublist of the sorted list of the
    directories that the patterns yield, which is sorted for the order
    of paths, has no duplicate and holds exactly the directories
    yielded. So no directory is classified twice. *)
Theorem main_scan_order (args : Namespace) (w : world) (found : list path) :
  outglobs args ≠ [] →
  collect_dirs (outglobs args) w = (w, Ok found) →
  (∃ new, w_trace (main args w).1 = new ++ w_trace w
     ∧ rev (map fst (scans new)) `sublist_of` sorted_set found)
  ∧ Sorted path_le (sorted_set found)
  ∧ NoDup (sorted_set found)
  ∧ ∀ p, p ∈ sorted_set found ↔ matched args w p.
Proof.
  intros Hne Hfound. rewrite collect_dirs_eq in Hfound.
  injection Hfound as Hfound.
  split_and!.
  - rewrite main_eq, Hfound.
    destruct (outglobs args) as [|g gs]; [done|].
    destruct (max_by _ _) as [longest|].
    + apply scan_loop_order.
    + exists []. split; [done|]. apply sublist_nil_l.
  - apply sorted_set_Sorted.
  - apply sorted_set_NoDup.
  - intros p. rewrite elem_of_sorted_set, (collect_from_elem _ _ _ _ _ Hfound).
    unfold matched. split; [|by right].
    intros [Hp|Hp]; [by apply elem_of_nil in Hp|done].
Qed.

(** ** A pattern on which [glob] raises *)

Lemma collect_from_raises w gs1 g gs2 acc e :
  (∀ g', g' ∈ gs1 → is_ok (w_glob w g') = true) →
  w_glob w g = Raise e →
  collect_from w (gs1 ++ g :: gs2) acc = Raise e.
Proof.
  revert acc. induction gs1 as [|g1 gs1 IH]; intros acc Hok Hg; simpl.
  { by rewrite Hg. }
  pose proof (Hok g1 ltac:(left)) as H1.
  destruct (w_glob w g1); [|done].
  apply IH; [|done]. intros g' Hg'. apply Hok. by right.
Qed.

(** Property X13. If [glob] raises on a pattern and returns on the
    patterns before it, [main] ends with that exception before any
    directory is classified: the world is unchanged. *)
Theorem main_glob_error (args : Namespace) (w : world)
    (before : list string) (g : string) (after : list string) (e : exn) :
  outglobs args = before ++ g :: after →
  (∀ g', g' ∈ before → is_ok (w_glob w g') = true) →
  w_glob w g = Raise e →
  main args w = (w, Raise e).
Proof.
  intros Hg Hok He. rewrite main_eq, Hg.
  rewrite (collect_from_raises w before g after [] e Hok He).
  by destruct before.
Qed.

(** ** No pattern on the command line *)

Lemma for_in_attribute {A S} (l : list A) (body : A → S → M S) s w :
  (∀ x s, x ∈ l →
     (∃ s', body x s w = (w, Ok s')) ∨ body x s w = (w, Raise AttributeError)) →
  (∃ s', for_in l body s w = (w, Ok s'))
  ∨ for_in l body s w = (w, Raise AttributeError).
Proof.
  revert s. induction l as [|x l IH]; intros s Hbody.
  { left. by exists s. }
  simpl. unfold bind.
  destruct (Hbody x s ltac:(left)) as [[s' ->]| ->]; [|by right].
  apply IH. intros. apply Hbody. by right.
Qed.

Lemma fate_int n0 A l lbl n :
  decimal_epochs l = true → n ∈ snap lbl l →
  fate (ArgsInt n0) A l n = Ok false
  ∨ fate (ArgsInt n0) A l n = Raise AttributeError.
Proof.
  intros Hdec Hn. apply snap_prefix in Hn as [Hpre Hin].
  apply elem_of_names in Hin as (e & He & <-).
  destruct (str_split_second _ _ Hpre) as [tok Htok].
  unfold fate. rewrite Htok.
  destruct (lookup_entry _ _) as [[| |]|]; try by left.
  unfold outside_retention.
  destruct (isnumeric tok) eqn:Hnum; [|by left]. simpl.
  destruct (decimal_epochs_elem l e tok Hdec He Htok Hnum) as [z ->].
  by right.
Qed.

(** Property X14. Without patterns, [main] raises [AttributeError]
    and changes nothing, at least when the numeric second tokens of the
    names in the current directory are decimal numerals: [clean_dir]
    is given the integer [args.every_n_epochs] where it reads
    [args.every_n_epochs] and [args.dry_run]. *)
Theorem main_without_patterns (args : Namespace) (w : world) :
  outglobs args = [] →
  decimal_epochs (w_iterdir w (w_cwd w)) = true →
  main args w = (w, Raise AttributeError).
Proof.
  intros Hg Hdec. rewrite main_eq, Hg.
  unfold clean_dir. unfold bind at 1. rewrite analysis_epochs_of.
  destruct (analysis_of_total _ Hdec) as [A ->].
  unfold bind at 1.
  destruct (for_in_attribute out_labels
    (λ out_lbl rmv_count,
       bind (glob_label (w_cwd w) out_lbl)
         (λ out_fls,
            for_in out_fls (clean_file (ArgsInt (every_n_epochs args)) A)
              rmv_count)) 0 w) as [[c ->]| ->]; [|done|done].
  intros lbl c _. unfold bind. rewrite glob_label_snap.
  apply for_in_attribute. intros p c' Hp.
  apply list_elem_of_fmap in Hp as (n & -> & Hn).
  rewrite clean_file_step.
  destruct (fate_int (every_n_epochs args) A _ lbl n Hdec Hn) as [-> | ->];
    [left; by eexists|by right].
Qed.

(** ** The status line *)

Lemma max_by_fold_ge {A} (key : A → Z) l best x :
  x = best ∨ x ∈ l →
  key x ≤ key (fold_left (fun best y => if key best <? key y then y else best) l best).
Proof.
  revert best x. induction l as [|y l IH]; intros best x; simpl.
  { intros [->|H%elem_of_nil]; [lia|done]. }
  intros [->|[->|H]%elem_of_cons].
  - destruct (key best <? key y) eqn:Hlt.
    + apply Z.ltb_lt in Hlt. transitivity (key y); [lia|]. apply IH. by left.
    + apply IH. by left.
  - destruct (key best <? key y) eqn:Hlt.
    + apply IH. by left.
    + apply Z.ltb_ge in Hlt. transitivity (key best); [lia|]. apply IH. by left.
  - apply IH. by right.
Qed.

Lemma max_by_ge {A} (key : A → Z) l m x :
  max_by key l = Ok m → x ∈ l → key x ≤ key m.
Proof.
  destruct l as [|y l]; [done|]. intros [= <-] Hx.
  apply max_by_fold_ge. apply elem_of_cons in Hx as [->|?]; [by left|by right].
Qed.

Lemma spaces_length k :
  String.length (String.concat EmptyString (repeat " " k)) = k.
Proof.
  induction k as [|k IH]; [done|].
  destruct k as [|k]; [done|].
  change (repeat " " (S (S k))) with (" " :: repeat " " (S k)).
  cbn [String.concat]. change (repeat " " (S k)) with (" " :: repeat " " k) at 1.
  cbv beta iota. rewrite !append_length, IH. done.
Qed.

Lemma prefix_append s t : String.prefix s (s +:+ t) = true.
Proof.
  induction s as [|c s IH]; [by destruct t|].
  change (String c s +:+ t) with (String c (s +:+ t)).
  cbn [String.prefix]. rewrite IH. by destruct (ascii_dec c c).
Qed.

(** Property X15. On a directory of the scan whose configuration is
    falsy, [_prompt_dir] removes nothing and asks nothing; with
    [--verbose] it prints one line, the name of the directory between
    backquotes, padded to the width of the longest name of the scan
    plus two, followed by [is not a cryoDRGN directory]; without
    [--verbose] it prints nothing. *)
Theorem prompt_dir_reports_unrecognized (scan_dirs : list path)
    (longest d : path) (cfg : pyval) (args : Namespace) (w : world) :
  max_by path_len scan_dirs = Ok longest →
  d ∈ scan_dirs →
  truthy cfg = false →
  ∃ pad,
    String.length pad = Z.to_nat (path_len longest + 2)
    ∧ String.prefix (str_join EmptyString ["`"; path_str d; "`"]) pad = true
    ∧ _prompt_dir d cfg (path_len longest) args w
      = (if 0 <? verbose args
         then log (EvPrint (pad +:+ "is not a cryoDRGN directory")) w
         else w, Ok tt).
Proof.
  intros Hmax Hd Hcfg.
  exists (str_ljust (path_len longest + 2)
            (str_join EmptyString ["`"; path_str d; "`"])).
  pose proof (max_by_ge _ _ _ _ Hmax Hd) as Hle.
  split_and!.
  - unfold str_ljust. rewrite append_length, spaces_length.
    assert (String.length (str_join EmptyString ["`"; path_str d; "`"])
            = S (S (String.length (path_str d)))) as ->.
    { cbn [str_join]. rewrite !append_length. simpl. lia. }
    unfold path_len in *. lia.
  - apply prefix_append.
  - unfold _prompt_dir. rewrite Hcfg. cbn [negb andb orb]. unfold bind.
    destruct (0 <? verbose args); reflexivity.
Qed.

(** ** [check_open_config]: what it reads, what escapes *)

(** Property X16. [check_open_config] changes no listing and reads no
    input; it opens at most one file, which is one of the four
    candidates and a regular file of [d]. *)
Theorem check_open_config_read_only (d : path) (w : world) :
  w_iterdir (check_open_config d w).1 = w_iterdir w
  ∧ w_stdin (check_open_config d w).1 = w_stdin w
  ∧ ((check_open_config d w).1 = w
     ∨ ∃ c, c ∈ priority ∧ regular (w_iterdir w d) c
            ∧ (check_open_config d w).1 = log (EvOpen (child d c)) w).
Proof.
  destruct (check_open_config_untouched d w) as (Hl & _ & _ & Hs).
  split_and!; [done|done|].
  rewrite check_open_config_eq.
  destruct (first_config _ _) as [c|] eqn:Hc; [|by left].
  apply selected_first_config in Hc as (i & Hi & Hreg & _).
  destruct Hreg as [load Hload]. rewrite Hload. right. exists c.
  split_and!; [by eapply list_elem_of_lookup_2|by exists load|done].
Qed.

Lemma getitem_contains v s x :
  getitem_str v s = Ok x → contains_str s v = Ok true.
Proof.
  destruct v as [| | | | |kvs]; try done. simpl.
  destruct (find _ kvs) as [kv|] eqn:Hf; [|done]. intros _. f_equal.
  apply find_some in Hf as [Hin Hkv].
  apply existsb_exists. by exists kv.
Qed.

(** Property X17. The shape test of [check_open_config] is outside of
    the [try]: when the selected file parses to [None] (an empty file),
    to a boolean or to an integer, [TypeError] escapes; it also escapes
    when the value under [cmd] is [None]; and [IndexError] escapes when
    [cmd] is an empty list, or a list of one element that contains
    [cryodrgn]. *)
Theorem check_open_config_shape_errors (w : world) (d : path) (c : string)
    (v : pyval) :
  selected (w_iterdir w d) c →
  lookup_entry c (w_iterdir w d) = Some (File (Ok v)) →
  ((v = PNone ∨ (∃ b, v = PBool b) ∨ (∃ z, v = PInt z)) →
   check_open_config d w = (log (EvOpen (child d c)) w, Raise TypeError))
  ∧ (getitem_str v "cmd" = Ok PNone →
     check_open_config d w = (log (EvOpen (child d c)) w, Raise TypeError))
  ∧ (getitem_str v "cmd" = Ok (PList []) →
     check_open_config d w = (log (EvOpen (child d c)) w, Raise IndexError))
  ∧ (∀ cmd0, getitem_str v "cmd" = Ok (PList [cmd0]) →
       contains_str "cryodrgn" cmd0 = Ok true →
       check_open_config d w = (log (EvOpen (child d c)) w, Raise IndexError)).
Proof.
  intros Hsel Hload.
  rewrite (check_open_config_selected w d c (Ok v) Hsel Hload).
  unfold config_outcome, not_cryodrgn. split_and!.
  - intros [->|[[b ->]|[z ->]]]; reflexivity.
  - intros Hcmd. by rewrite (getitem_contains _ _ _ Hcmd), Hcmd.
  - intros Hcmd. by rewrite (getitem_contains _ _ _ Hcmd), Hcmd.
  - intros cmd0 Hcmd Hc0. rewrite (getitem_contains _ _ _ Hcmd), Hcmd.
    cbn [getitem_int list_index nth_error]. by rewrite Hc0.
Qed.

(** ** What [main] cleans *)

Lemma clean_dir_listing_only d ns_ w1 w2 :
  dry_run ns_ = false →
  NoDup (names (w_iterdir w1 d)) →
  w_iterdir w2 d = w_iterdir w1 d →
  (clean_dir d (ArgsNamespace ns_) w2).2 = (clean_dir d (ArgsNamespace ns_) w1).2
  ∧ w_iterdir (clean_dir d (ArgsNamespace ns_) w2).1 d
    = w_iterdir (clean_dir d (ArgsNamespace ns_) w1).1 d.
Proof.
  intros Hdry Hnd Hl.
  rewrite (clean_dir_wet d w1) by done.
  rewrite (clean_dir_wet d w2) by (by rewrite ?Hl).
  rewrite Hl. destruct (analysis_of _) as [A|]; [|cbn [fst snd]; by rewrite Hl].
  cbn zeta. destruct (doomed_plan _ A _) as [D [e|]]; cbn [fst snd log w_iterdir];
    by rewrite !unlink_all_iterdir_d, Hl.
Qed.

Lemma scan_one_result cur maxlen args w w' cfg :
  scan_one cur maxlen args w = (w', Ok cfg) →
  (check_open_config cur w).2 = Ok cfg.
Proof.
  rewrite scan_one_eq.
  destruct (check_open_config cur w) as [w1 [cfg'|e]]; [|done].
  destruct (_prompt_dir _ _ _ _ _) as [w2 [[]|]]; [|done].
  by intros [= _ ->].
Qed.

(** a turn on a recognized directory, with [--force] *)
Lemma scan_one_forced_clean d maxlen args w cfg :
  force args = true → dry_run args = false →
  (check_open_config d w).2 = Ok cfg → truthy cfg = true →
  ∃ w0, w_iterdir w0 = w_iterdir w
    ∧ (scan_one d maxlen args w).1 = (clean_dir d (ArgsNamespace args) w0).1
    ∧ ∀ v, (scan_one d maxlen args w).2 = Ok v →
           (clean_dir d (ArgsNamespace args) w0).2 = Ok tt.
Proof.
  intros Hforce Hdry Hcfg Ht. rewrite scan_one_eq.
  destruct (check_open_config_untouched d w) as (Hl & _).
  destruct (check_open_config d w) as [w1 [cfg'|e]]; cbn [fst snd] in *; [|done].
  injection Hcfg as ->.
  destruct (prompt_dir_cases d cfg maxlen args (log (EvScan d cfg) w1))
    as (w2 & Hw2 & [(Hf & _)|[(_ & _ & ->)|[(_ & Hf & _)|(_ & Hf & _)]]]);
    [congruence| |rewrite Hforce in Hf; discriminate..].
  exists w2. split.
  { by destruct Hw2 as [->|[msg ->]]. }
  destruct (clean_dir d (ArgsNamespace args) w2) as [w3 [[]|e]];
    cbn [fst snd]; split; done.
Qed.

Lemma scan_loop_cleans args maxlen d cfg wref q w :
  force args = true → dry_run args = false →
  NoDup (names (w_iterdir wref d)) →
  NoDup q → d ∈ q →
  w_iterdir w d = w_iterdir wref d →
  (check_open_config d w).2 = Ok cfg → truthy cfg = true →
  (∀ anc v, anc ∈ q → descendant anc d →
     (check_open_config anc w).2 = Ok v → truthy v = false) →
  (scan_loop args maxlen q w).2 = Ok tt →
  w_iterdir (scan_loop args maxlen q w).1 d
  = w_iterdir (clean_dir d (ArgsNamespace args) wref).1 d.
Proof.
  intros Hforce Hdry Hnd.
  remember (length q) as k eqn:Hk. revert q w Hk.
  induction k as [k IH] using lt_wf_ind.
  intros q w -> Hq Hd Hl Hcfg Ht Hanc.
  destruct q as [|cur rest]; [by apply elem_of_nil in Hd|].
  rewrite scan_loop_equation_2.
  apply NoDup_cons in Hq as [Hcur Hrest].
  destruct (decide (cur = d)) as [->|Hne].
  - (* the turn of [d] *)
    destruct (scan_one_forced_clean d maxlen args w cfg Hforce Hdry Hcfg Ht)
      as (w0 & Hw0 & Hworld & Hres).
    destruct (scan_one d maxlen args w) as [w1 [cfg'|e]] eqn:Hone;
      unfold scan_loop_unfold_clause_2; [|done].
    intros Hok. cbn [fst snd] in *.
    assert (w_iterdir (scan_loop args maxlen (next_scan_dirs d cfg' rest) w1).1 d
            = w_iterdir w1 d) as ->.
    { apply (scan_loop_preserves (fun w w' => w_iterdir w' d = w_iterdir w d));
        [done|congruence|].
      intros c w' Hc. apply scan_one_files_outside.
      intros ->. by apply next_scan_dirs_sub in Hc. }
    rewrite Hworld.
    apply (clean_dir_listing_only d args wref w0 Hdry Hnd).
    by rewrite Hw0, Hl.
  - (* another turn *)
    apply elem_of_cons in Hd as [->|Hd]; [done|].
    pose proof (scan_one_files_outside cur maxlen args w) as Hout.
    destruct (scan_one cur maxlen args w) as [w1 [cfg'|e]] eqn:Hone;
      unfold scan_loop_unfold_clause_2; [|done].
    cbn [fst] in Hout. apply scan_one_result in Hone as Hres.
    intros Hok.
    apply (IH (length (next_scan_dirs cur cfg' rest))
             ltac:(pose proof (next_scan_dirs_length cur cfg' rest); simpl; lia)
             (next_scan_dirs cur cfg' rest) w1 eq_refl); try done.
    + unfold next_scan_dirs, drop_descendants.
      destruct (truthy cfg'); [by apply NoDup_filter|done].
    + unfold next_scan_dirs. destruct (truthy cfg') eqn:Ht'; [|done].
      apply list_elem_of_filter. split; [|done].
      rewrite elem_of_parents. intros Hdesc.
      rewrite (Hanc cur cfg' ltac:(left) Hdesc Hres) in Ht'. done.
    + rewrite Hout by done. done.
    + rewrite (check_open_config_listing d w w1); [done|]. by apply Hout.
    + intros anc v Hin Hdesc.
      rewrite (check_open_config_listing anc w w1).
      * apply Hanc; [|done]. right. by eapply next_scan_dirs_sub.
      * apply Hout. intros ->. by apply next_scan_dirs_sub in Hin.
Qed.

(** Property X25. With [--force] and without [--dry-run], when [main]
    returns, a directory that a pattern yields, that
    [check_open_config] recognizes in the initial world, and none of
    whose ancestors among the directories yielded is recognized, has
    been cleaned: its listing is the one that [clean_dir] leaves when
    run on the initial world. *)
Theorem main_force_cleans_recognized (args : Namespace) (w : world)
    (d : path) (cfg : pyval) :
  force args = true → dry_run args = false →
  NoDup (names (w_iterdir w d)) →
  matched args w d →
  (check_open_config d w).2 = Ok cfg → truthy cfg = true →
  (∀ anc v, matched args w anc → descendant anc d →
     (check_open_config anc w).2 = Ok v → truthy v = false) →
  (main args w).2 = Ok tt →
  w_iterdir (main args w).1 d
  = w_iterdir (clean_dir d (ArgsNamespace args) w).1 d.
Proof.
  intros Hforce Hdry Hnd Hd Hcfg Ht Hanc.
  destruct (outglobs args) as [|g gs] eqn:Hg.
  { destruct (main_no_globs args w Hg) as [e ->]. done. }
  rewrite main_eq, Hg. rewrite <- Hg.
  destruct (collect_from _ _ _) as [found|] eqn:Hfound; [|done].
  assert (∀ p, p ∈ sorted_set found ↔ matched args w p) as Hm.
  { intros p.
    rewrite elem_of_sorted_set, (collect_from_elem _ _ _ _ _ Hfound).
    unfold matched. split; [|by right].
    intros [Hp|Hp]; [by apply elem_of_nil in Hp|done]. }
  destruct (max_by _ _) as [longest|]; [|done].
  apply (scan_loop_cleans args _ d cfg w); try done.
  - apply sorted_set_NoDup.
  - by apply Hm.
  - intros anc v Hin. apply Hanc. by apply Hm.
Qed.

(** ** Decimal numerals *)

Lemma pretty_N_char_digit m :
  (m < 10)%N →
  is_ascii_digit (pretty_N_char m) = true
  ∧ digit_value (pretty_N_char m) = Z.of_N m.
Proof.
  intros Hm.
  assert (m = 0 ∨ m = 1 ∨ m = 2 ∨ m = 3 ∨ m = 4 ∨ m = 5 ∨ m = 6 ∨ m = 7
          ∨ m = 8 ∨ m = 9)%N as H by lia.
  repeat (destruct H as [->|H]; [done|]). by subst.
Qed.

Lemma pretty_N_go_digits x s :
  str_forall is_ascii_digit s = true →
  str_forall is_ascii_digit (pretty_N_go x s) = true
  ∧ decimal_value 0 (pretty_N_go x s) = decimal_value (Z.of_N x) s
  ∧ (String.length s ≤ String.length (pretty_N_go x s))%nat.
Proof.
  revert s. induction (N.lt_wf_0 x) as [x _ IH]; intros s Hs.
  assert (x = 0 ∨ 0 < x)%N as [->|Hx] by lia.
  { by rewrite pretty_N_go_0. }
  rewrite pretty_N_go_step by done.
  destruct (pretty_N_char_digit (x `mod` 10)%N) as [Hd Hv].
  { by apply N.mod_lt. }
  destruct (IH (x `div` 10)%N ltac:(by apply N.div_lt)
              (String (pretty_N_char (x `mod` 10)) s)) as (H1 & H2 & H3).
  { simpl. by rewrite Hd, Hs. }
  split_and!; [done| |simpl in H3; lia].
  rewrite H2. simpl. rewrite Hv. f_equal.
  rewrite N2Z.inj_div, N2Z.inj_mod. pose proof (Z.div_mod (Z.of_N x) 10). lia.
Qed.

Lemma str_of_int_digits z :
  0 ≤ z →
  str_forall is_ascii_digit (str_of_int z) = true
  ∧ str_of_int z ≠ EmptyString
  ∧ decimal_value 0 (str_of_int z) = z.
Proof.
  intros Hz. unfold str_of_int, pretty, pretty_Z.
  destruct z as [|p|p]; [done| |lia].
  unfold pretty, pretty_positive, pretty, pretty_N.
  rewrite decide_False by done.
  assert (0 < N.pos p)%N as Hp by lia.
  rewrite pretty_N_go_step by done.
  destruct (pretty_N_char_digit (N.pos p `mod` 10)%N) as [Hd Hv].
  { by apply N.mod_lt. }
  destruct (pretty_N_go_digits (N.pos p `div` 10)%N
              (String (pretty_N_char (N.pos p `mod` 10)) EmptyString))
    as (H1 & H2 & H3).
  { simpl. by rewrite Hd. }
  split_and!; [done| |].
  - intros Heq. rewrite Heq in H3. simpl in H3. lia.
  - rewrite H2. simpl. rewrite Hv.
    rewrite N2Z.inj_div, N2Z.inj_mod.
    pose proof (Z.div_mod (Z.of_N (N.pos p)) 10). simpl in *. lia.
Qed.

Lemma str_forall_impl (p q : ascii → bool) s :
  (∀ c, p c = true → q c = true) →
  str_forall p s = true → str_forall q s = true.
Proof.
  intros Hpq. induction s as [|c s IH]; [done|]. simpl.
  intros [Hc Hs]%andb_true_iff. by rewrite (Hpq c Hc), IH.
Qed.

Lemma str_of_int_numeric z :
  0 ≤ z →
  isnumeric (str_of_int z) = true ∧ int_of_str (str_of_int z) = Ok z.
Proof.
  intros Hz. destruct (str_of_int_digits z Hz) as (Hd & Hne & Hv).
  assert (String.eqb (str_of_int z) EmptyString = false) as Hnb.
  { by apply String.eqb_neq. }
  unfold isnumeric, int_of_str. rewrite Hnb, Hd, Hv. split; [|done].
  simpl. apply (str_forall_impl is_ascii_digit); [|done].
  intros c Hc. unfold char_isnumeric. by rewrite Hc.
Qed.

(** ** The names of the outputs of an epoch *)

Lemma str_split_cons sep s t :
  str_forall (fun c => negb (Ascii.eqb c sep)) s = true →
  str_split sep (s +:+ String sep t) = s :: str_split sep t.
Proof.
  induction s as [|c s IH]; intros Hs.
  - change (EmptyString +:+ String sep t) with (String sep t).
    simpl. by rewrite Ascii.eqb_refl.
  - change (String c s +:+ String sep t) with (String c (s +:+ String sep t)).
    simpl in *. apply andb_true_iff in Hs as [Hc Hs].
    apply negb_true_iff in Hc. rewrite Hc, (IH Hs). done.
Qed.

Lemma digits_no_dot s :
  str_forall is_ascii_digit s = true →
  str_forall (fun c => negb (Ascii.eqb c ".")) s = true.
Proof.
  apply str_forall_impl. intros c Hc.
  destruct (Ascii.eqb_spec c ".") as [->|]; done.
Qed.

Lemma epoch_file_split stem e ext :
  0 ≤ e →
  str_forall (fun c => negb (Ascii.eqb c ".")) stem = true →
  list_index (str_split "." (epoch_file stem e (String "." ext))) 1
  = Ok (str_of_int e).
Proof.
  intros He Hstem. unfold epoch_file.
  assert (stem +:+ ("." +:+ str_of_int e) +:+ String "." ext
          = stem +:+ String "." (str_of_int e +:+ String "." ext)) as ->.
  { reflexivity. }
  rewrite str_split_cons by done.
  rewrite str_split_cons; [done|].
  apply digits_no_dot. by apply str_of_int_digits.
Qed.

Lemma epoch_file_epoch stem e ext z :
  0 ≤ e →
  str_forall (fun c => negb (Ascii.eqb c ".")) stem = true →
  epoch_of (epoch_file stem e (String "." ext)) z ↔ z = e.
Proof.
  intros He Hstem. unfold epoch_of. rewrite epoch_file_split by done.
  destruct (str_of_int_numeric e He) as [Hn Hi]. split.
  - intros (tok & [= <-] & _ & Hz). congruence.
  - intros ->. by exists (str_of_int e).
Qed.

Lemma append_assoc' s t u : (s +:+ t) +:+ u = s +:+ (t +:+ u).
Proof.
  induction s as [|c s IH]; [done|].
  change (String c s +:+ t) with (String c (s +:+ t)).
  change (String c (s +:+ t) +:+ u) with (String c ((s +:+ t) +:+ u)).
  by rewrite IH.
Qed.

Lemma epoch_file_label stem e ext :
  stem ∈ out_labels → has_label (epoch_file stem e ext).
Proof.
  intros Hin. exists stem. split; [done|]. unfold epoch_file.
  rewrite append_assoc', <- (append_assoc' stem "."). apply prefix_append.
Qed.

Lemma listed_elem name files : listed name files = true ↔ name ∈ files.
Proof.
  unfold listed. rewrite existsb_exists. split.
  - intros (x & Hx%list_elem_of_In & ->%String.eqb_eq). done.
  - intros H. exists name. split; [by apply list_elem_of_In|apply String.eqb_refl].
Qed.

(** the condition of the rule, for an output of epoch [e] *)
Lemma outside_rule_epoch_file n l ent stem e ext :
  0 ≤ e → stem ∈ out_labels →
  d_name ent = epoch_file stem e (String "." ext) →
  is_regular ent →
  outside_rule n l ent ↔ e mod n ≠ 0 ∧ ¬ in_analysis_set l e.
Proof.
  intros He Hstem Hname Hreg.
  assert (str_forall (fun c => negb (Ascii.eqb c ".")) stem = true) as Hnd.
  { unfold out_labels in Hstem.
    repeat (apply elem_of_cons in Hstem as [->|Hstem]; [done|]).
    by apply elem_of_nil in Hstem. }
  unfold outside_rule. rewrite Hname. split.
  - intros (_ & _ & z & Hz & Hm & Ha).
    apply epoch_file_epoch in Hz as ->; done.
  - intros [Hm Ha]. split_and!; [done|by apply epoch_file_label|].
    exists e. split_and!; [by apply epoch_file_epoch|done|done].
Qed.

(** ** The fixture after a cleaning *)

Lemma epoch_cleaned_valid self e w :
  1 ≤ e < epochs self →
  epoch_cleaned self (Some e) w
  = Ok (negb (epoch_present self (out_files self w) ("." +:+ str_of_int e))).
Proof.
  intros He. unfold epoch_cleaned, epoch_present, epoch_truthy.
  assert ((e =? 0) = false) as -> by (apply Z.eqb_neq; lia).
  assert ((0 <=? e) = true) as -> by (apply Z.leb_le; lia).
  assert ((e <? epochs self) = true) as -> by (apply Z.ltb_lt; lia).
  cbn [negb andb]. cbv zeta.
  destruct (String.eqb_spec (train_cmd self) "train_nn") as [Hnn|Hnn].
  - rewrite Hnn. cbn [String.eqb Ascii.eqb Bool.eqb andb orb].
    rewrite orb_false_r.
    by destruct (listed _ _), (listed _ _).
  - destruct (String.eqb (train_cmd self) "train_vae");
      cbn [andb orb]; rewrite ?orb_false_r;
      by destruct (listed _ _); try destruct (listed _ _).
Qed.

Lemma names_sublist (l1 l2 : list dirent) :
  l1 `sublist_of` l2 → names l1 `sublist_of` names l2.
Proof. apply fmap_sublist. Qed.

Lemma NoDup_names_inj l e1 e2 :
  NoDup (names l) → e1 ∈ l → e2 ∈ l → d_name e1 = d_name e2 → e1 = e2.
Proof.
  intros Hnd H1 H2 Hn.
  apply lookup_entry_elem in H1 as H1'; [|done].
  apply lookup_entry_elem in H2 as H2'; [|done].
  rewrite Hn in H1'. destruct e1, e2; simpl in *. congruence.
Qed.

(** Property X18. [clean_dir] and the fixture agree: in a training
    directory that holds [weights.e.pkl] for an epoch [1 <= e <
    self.epochs], the outputs of that epoch being regular files, after
    [clean_dir] has returned [epoch_cleaned(e)] holds if and only if [e]
    is not a multiple of the modulus and is not an analysis epoch. *)
Theorem clean_dir_then_epoch_cleaned (w : world) (d : path) (ns_ : Namespace)
    (w' : world) (self : TrainDir) (fw : fxworld) (e : Z) :
  NoDup (names (w_iterdir w d)) →
  dry_run ns_ = false →
  clean_dir d (ArgsNamespace ns_) w = (w', Ok tt) →
  out_files self fw = names (w_iterdir w' d) →
  1 ≤ e < epochs self →
  (∀ ent, ent ∈ w_iterdir w d → d_name ent ∈ epoch_files e → is_regular ent) →
  epoch_file "weights" e ".pkl" ∈ names (w_iterdir w d) →
  epoch_cleaned self (Some e) fw = Ok true
  ↔ e mod every_n_epochs ns_ ≠ 0 ∧ ¬ in_analysis_set (w_iterdir w d) e.
Proof.
  intros Hnd Hdry Hrun Hfiles He Hreg Hw.
  pose proof (clean_dir_rule w d ns_ w' Hnd Hdry Hrun) as Hrule.
  destruct (clean_dir_only_removes w d _ w' _ Hnd Hrun) as [_ Hsub].
  assert (∃ D, w_iterdir w' d = survivors D (w_iterdir w d)) as [D HD].
  { apply clean_dir_wet_ok in Hrun as (A & _ & _ & ->); [|done..].
    eexists. cbn [log w_iterdir]. apply unlink_all_iterdir_d. }
  set (l := w_iterdir w d) in *. set (l' := w_iterdir w' d) in *.
  (* the fate of one output of the epoch *)
  assert (∀ stem ext,
    stem ∈ out_labels →
    epoch_file stem e (String "." ext) ∈ epoch_files e →
    (epoch_file stem e (String "." ext) ∈ names l' ↔
     epoch_file stem e (String "." ext) ∈ names l
     ∧ ¬ (e mod every_n_epochs ns_ ≠ 0 ∧ ¬ in_analysis_set l e))) as Hfate.
  { intros stem ext Hstem Hin. split.
    - intros Hn'. split.
      { eapply elem_of_sublist; [exact Hn'|]. by apply names_sublist. }
      apply elem_of_names in Hn' as (ent & Hent & Hname).
      assert (ent ∈ l) as Hl by (by eapply elem_of_sublist).
      intros Hout. eapply (outside_rule_epoch_file _ l ent) in Hout;
        [|lia|done|done|apply Hreg; [done|by rewrite Hname]].
      by apply Hrule in Hout.
    - intros [Hn Hkeep]. apply elem_of_names in Hn as (ent & Hent & Hname).
      apply elem_of_names. exists ent. split; [|done].
      rewrite HD. apply survivors_keep; [done|]. intros Hdoomed.
      apply Hkeep.
      eapply (outside_rule_epoch_file _ l ent);
        [lia|done|done|apply Hreg; [done|by rewrite Hname]|].
      apply Hrule; [done|]. rewrite HD.
      intros [Hk _]%list_elem_of_filter. done. }
  rewrite epoch_cleaned_valid by done. rewrite Hfiles.
  unfold epoch_present.
  change ("weights" +:+ ("." +:+ str_of_int e) +:+ ".pkl")
    with (epoch_file "weights" e ".pkl").
  change ("reconstruct" +:+ ("." +:+ str_of_int e) +:+ ".mrc")
    with (epoch_file "reconstruct" e ".mrc").
  change ("z" +:+ ("." +:+ str_of_int e) +:+ ".pkl")
    with (epoch_file "z" e ".pkl").
  pose proof (Hfate "weights" "pkl" ltac:(repeat first [left|right]) ltac:(repeat first [left|right])) as Fw.
  pose proof (Hfate "reconstruct" "mrc" ltac:(repeat first [left|right]) ltac:(repeat first [left|right])) as Fr.
  pose proof (Hfate "z" "pkl" ltac:(repeat first [left|right]) ltac:(repeat first [left|right])) as Fz.
  rewrite <- listed_elem in Fw, Fr, Fz.
  split.
  - intros [= Hc]. apply negb_true_iff in Hc.
    apply orb_false_iff in Hc as [Hc _]. apply orb_false_iff in Hc as [Hc _].
    destruct (decide (e mod every_n_epochs ns_ ≠ 0)) as [Hm|Hm].
    + split; [done|]. intros Ha.
      assert (listed (epoch_file "weights" e ".pkl") (names l') = true) as Hl.
      { apply Fw. split; [done|]. tauto. }
      congruence.
    + assert (listed (epoch_file "weights" e ".pkl") (names l') = true) as Hl.
      { apply Fw. split; [done|]. tauto. }
      congruence.
  - intros Hout. f_equal. apply negb_true_iff.
    assert (∀ name, (listed name (names l') = true ↔
                     name ∈ names l
                     ∧ ¬ (e mod every_n_epochs ns_ ≠ 0 ∧ ¬ in_analysis_set l e)) →
                    listed name (names l') = false) as Hno.
    { intros name F. destruct (listed name (names l')); [|done].
      destruct (proj1 F eq_refl) as [_ Hk]. done. }
    rewrite (Hno _ Fw), (Hno _ Fr), (Hno _ Fz).
    by rewrite !andb_false_r.
Qed.

(** ** [all_files_present] *)

Lemma any_of_ok {A} (f : A → result bool) (g : A → bool) l :
  (∀ x, x ∈ l → f x = Ok (g x)) → any_of f l = Ok (existsb g l).
Proof.
  induction l as [|x l IH]; intros H; [done|]. simpl.
  rewrite (H x) by left. destruct (g x); [done|].
  apply IH. intros. apply H. by right.
Qed.

Lemma epoch_cleaned_in_range self epoch w :
  epoch ∈ map Some (range (epochs self)) ++ [None] →
  epoch_cleaned self epoch w
  = Ok (negb (epoch_present self (out_files self w) (label_of epoch))).
Proof.
  unfold label_of.
  rewrite elem_of_app, list_elem_of_fmap, list_elem_of_singleton.
  intros [(e & -> & He)| ->]; [|apply epoch_cleaned_none].
  unfold range in He. apply elem_of_seqZ in He.
  destruct (Z.eqb_spec e 0) as [->|Hne].
  - apply epoch_cleaned_none.
  - apply epoch_cleaned_valid. lia.
Qed.

Lemma all_files_present_eq self w :
  all_files_present self w
  = Ok (negb (existsb
                (fun epoch =>
                   negb (epoch_present self (out_files self w) (label_of epoch)))
                (map Some (range (epochs self)) ++ [None]))).
Proof.
  unfold all_files_present.
  by rewrite (any_of_ok _ _ _ (fun x H => epoch_cleaned_in_range self x w H)).
Qed.

Lemma all_files_present_intro self w :
  epoch_present self (out_files self w) EmptyString = true →
  (∀ e, 1 ≤ e < epochs self →
     epoch_present self (out_files self w) ("." +:+ str_of_int e) = true) →
  all_files_present self w = Ok true.
Proof.
  intros Hbase Hall. rewrite all_files_present_eq. f_equal.
  apply negb_true_iff.
  destruct (existsb _ _) eqn:Hex; [|done]. exfalso.
  apply existsb_exists in Hex as (epoch & Hin%list_elem_of_In & Hc).
  apply negb_true_iff in Hc.
  rewrite elem_of_app, list_elem_of_fmap, list_elem_of_singleton in Hin.
  destruct Hin as [(e & -> & He)| ->]; [|simpl in Hc; congruence].
  unfold range in He. apply elem_of_seqZ in He. unfold label_of in Hc.
  destruct (Z.eqb_spec e 0) as [->|Hne]; [congruence|].
  rewrite Hall in Hc by lia. done.
Qed.

(** Property X19. [all_files_present] never raises, and it holds if
    and only if, for the unnumbered outputs and for every epoch from 1
    to [self.epochs - 1], at least one of the files that
    [epoch_cleaned] looks for is listed: the weights alone are
    enough. *)
Theorem all_files_present_any_file (self : TrainDir) (w : fxworld) :
  (∃ b, all_files_present self w = Ok b)
  ∧ (all_files_present self w = Ok true
     ↔ epoch_present self (out_files self w) EmptyString = true
       ∧ ∀ e, 1 ≤ e < epochs self →
           epoch_present self (out_files self w) ("." +:+ str_of_int e) = true).
Proof.
  split; [rewrite all_files_present_eq; by eexists|].
  split; [|intros [Hbase Hall]; by apply all_files_present_intro].
  rewrite all_files_present_eq. intros [= Hex]. apply negb_true_iff in Hex.
  assert (∀ epoch, epoch ∈ map Some (range (epochs self)) ++ [None] →
            epoch_present self (out_files self w) (label_of epoch) = true)
    as Hall.
  { intros epoch Hin. apply negb_false_iff.
    destruct (negb _) eqn:Hc; [|done].
    rewrite <- Hex. symmetry. apply existsb_exists. exists epoch.
    split; [by apply list_elem_of_In|done]. }
  split.
  - apply (Hall None). rewrite elem_of_app, list_elem_of_singleton. by right.
  - intros e He. specialize (Hall (Some e)). unfold label_of in Hall.
    assert ((e =? 0) = false) as Hz by (apply Z.eqb_neq; lia).
    rewrite Hz in Hall. apply Hall.
    rewrite elem_of_app, list_elem_of_fmap. left. exists e. split; [done|].
    apply elem_of_seqZ. lia.
Qed.

(** ** [train_load_epoch] *)

Lemma str_contains_here x t : str_contains x (x +:+ t) = true.
Proof.
  destruct (x +:+ t) as [|c r] eqn:E; cbn [str_contains];
    rewrite <- E, prefix_append; done.
Qed.

Lemma str_contains_append_l x a t :
  str_contains x t = true → str_contains x (a +:+ t) = true.
Proof.
  intros H. induction a as [|c a IH]; [exact H|].
  change (String c a +:+ t) with (String c (a +:+ t)).
  cbn [str_contains]. rewrite IH. apply orb_true_r.
Qed.

Lemma prefix_append_r x s b :
  String.prefix x s = true → String.prefix x (s +:+ b) = true.
Proof.
  revert s. induction x as [|a x IH]; intros s.
  { intros _. by destruct (s +:+ b). }
  destruct s as [|c s]; [done|].
  change (String c s +:+ b) with (String c (s +:+ b)).
  cbn [String.prefix]. destruct (ascii_dec a c); [apply IH|done].
Qed.

Lemma str_contains_append_r x t b :
  str_contains x t = true → str_contains x (t +:+ b) = true.
Proof.
  induction t as [|c t IH].
  - cbn [str_contains]. rewrite orb_false_r. intros Hp.
    apply (prefix_append_r x EmptyString b) in Hp.
    change (EmptyString +:+ b) with b in *.
    destruct b; cbn [str_contains]; by rewrite Hp.
  - change (String c t +:+ b) with (String c (t +:+ b)).
    cbn [str_contains]. intros [Hp|Hc]%orb_true_iff.
    + apply (prefix_append_r x (String c t) b) in Hp.
      change (String c t +:+ b) with (String c (t +:+ b)) in Hp.
      by rewrite Hp.
    + rewrite (IH Hc). apply orb_true_r.
Qed.

(** Property X20. With [load_epoch] in range, [train_load_epoch]
    launches one command, which asks for [train_epochs] epochs and
    loads [weights.<load_epoch>.pkl] of the output directory. If the
    output of the command lacks [) Finished in ], [AssertionError] is
    raised and the object is unchanged; otherwise [self.epochs] is set
    to [train_epochs], also when the last assertion then fails, and the
    call returns if and only if [all_files_present] holds. *)
Theorem train_load_epoch_outcome (self : TrainDir)
    (load_epoch train_epochs : Z) (w : fxworld) :
  0 ≤ load_epoch < epochs self →
  ∃ cmd out err w',
    run_command cmd w = (w', (out, err))
    ∧ str_contains ("-n=" +:+ str_of_int train_epochs +:+ " ") cmd = true
    ∧ str_contains
        ("--load " +:+ os_path_join (outdir self)
                         ("weights." +:+ str_of_int load_epoch +:+ ".pkl"))
        cmd = true
    ∧ (str_contains ") Finished in " out = false →
       train_load_epoch self load_epoch train_epochs w
       = (self, w', Raise AssertionError))
    ∧ (str_contains ") Finished in " out = true →
       ∃ r, train_load_epoch self load_epoch train_epochs w
            = (set_epochs self train_epochs, w', r)
         ∧ (r = Ok tt
            ↔ all_files_present (set_epochs self train_epochs) w' = Ok true)).
Proof.
  intros Hrange. unfold train_load_epoch.
  assert (negb ((0 <=? load_epoch) && (load_epoch <? epochs self)) = false) as ->.
  { apply negb_false_iff, andb_true_iff.
    split; [apply Z.leb_le|apply Z.ltb_lt]; lia. }
  cbv zeta.
  set (base := "cryodrgn " +:+ _).
  set (cmd := if String.eqb (train_cmd self) "train_vae" then _ else _).
  destruct (run_command cmd w) as [w' [out err]] eqn:Hrun.
  exists cmd, out, err, w'. split; [done|].
  assert (∀ x, str_contains x base = true → str_contains x cmd = true) as Hcmd.
  { intros x Hx. unfold cmd.
    destruct (String.eqb (train_cmd self) "train_vae");
      [by apply str_contains_append_r|].
    destruct (String.eqb (train_cmd self) "train_nn");
      [by apply str_contains_append_r|done]. }
  split_and!.
  - apply Hcmd. unfold base.
    do 9 apply str_contains_append_l.
    change (" --no-amp -n=" +:+ ?t) with (" --no-amp " +:+ ("-n=" +:+ t)).
    apply str_contains_append_l.
    match goal with
    | |- str_contains ?x ("-n=" +:+ (?a +:+ (" " +:+ ?r))) = true =>
        replace ("-n=" +:+ (a +:+ (" " +:+ r))) with (x +:+ r)
          by (by rewrite !append_assoc')
    end.
    apply str_contains_here.
  - apply Hcmd. unfold base.
    do 12 apply str_contains_append_l.
    match goal with
    | |- str_contains ?x ("--load " +:+ (?a +:+ ?r)) = true =>
        replace ("--load " +:+ (a +:+ r)) with (x +:+ r)
          by (by rewrite append_assoc')
    end.
    apply str_contains_here.
  - intros ->. reflexivity.
  - intros ->. cbn [negb].
    destruct (all_files_present _ w') as [[|]|e]; eexists; (split; [reflexivity|]);
      split; congruence.
Qed.

(** ** The constructor, [replace_files] and [parse_request] *)

Lemma for_each_copy os src dst files l l' :
  copy_lists os src dst files →
  for_each files
    (fun f => shutil_copy os (os_path_join src f) (os_path_join dst f)) l
  = (l', Ok tt) →
  (∀ f, f ∈ files → f ∈ l' dst) ∧ ∀ g, g ∈ l dst → g ∈ l' dst.
Proof.
  revert l. induction files as [|f files IH]; intros l Hcopy; simpl.
  { intros [= <-]. split; [|done]. intros f Hf. by apply elem_of_nil in Hf. }
  destruct (shutil_copy _ _ _ l) as [l1|] eqn:Hf; [|done].
  intros Hrest. destruct (Hcopy f l l1 ltac:(left) Hf) as [Hin Hkeep].
  destruct (IH l1) as [Hall Hkeep']; [|done|].
  { intros g l2 l3 Hg. apply Hcopy. by right. }
  split.
  - intros g [->|Hg]%elem_of_cons; [by apply Hkeep'|by apply Hall].
  - intros g Hg. by apply Hkeep', Hkeep.
Qed.

Lemma listed_mono files files' name :
  (∀ g, g ∈ files → g ∈ files') →
  listed name files = true → listed name files' = true.
Proof. rewrite !listed_elem. auto. Qed.

Lemma epoch_present_mono self files files' lbl :
  (∀ g, g ∈ files → g ∈ files') →
  epoch_present self files lbl = true → epoch_present self files' lbl = true.
Proof.
  intros Hsub. unfold epoch_present.
  rewrite !orb_true_iff, !andb_true_iff.
  intros [[H|[? H]]|[? H]]; apply (listed_mono _ _ _ Hsub) in H; tauto.
Qed.

(** Property X21. When [replace_files] returns, [shutil.copy] listing
    what it copies, every file of the cache is listed in the output
    directory, and so is what was listed there before; so that
    [all_files_present] holds if the cache has a file for every
    epoch, whatever had been cleaned. *)
Theorem replace_files_restores (os : fxos) (self : TrainDir) (w w' : fxworld) :
  copy_lists os (orig_cache self) (outdir self)
    (fx_listdir w (orig_cache self)) →
  replace_files os self w = (w', Ok tt) →
  (∀ f, f ∈ fx_listdir w (orig_cache self) → f ∈ out_files self w')
  ∧ (∀ g, g ∈ out_files self w → g ∈ out_files self w')
  ∧ (epoch_present self (fx_listdir w (orig_cache self)) EmptyString = true →
     (∀ e, 1 ≤ e < epochs self →
        epoch_present self (fx_listdir w (orig_cache self))
          ("." +:+ str_of_int e) = true) →
     all_files_present self w' = Ok true).
Proof.
  intros Hcopy. unfold replace_files.
  destruct (for_each _ _ _) as [l r] eqn:Hloop. intros [= <- ->].
  destruct (for_each_copy _ _ _ _ _ _ Hcopy Hloop) as [Hall Hkeep].
  unfold out_files. cbn [set_listdir fx_listdir].
  split_and!; [done|done|].
  intros Hbase Hep. apply all_files_present_intro.
  - eapply epoch_present_mono; [exact Hall|exact Hbase].
  - intros e He. eapply epoch_present_mono; [exact Hall|by apply Hep].
Qed.

(** Property X22. For a dataset other than [toy] and [hand],
    [TrainDir(...)] raises [ValueError] before anything is launched or
    written. *)
Theorem init_unknown_dataset (os : fxos) (dataset train_cmd : string)
    (epochs : Z) (seed : option Z) (out_lbl : option string) (w : fxworld) :
  dataset ≠ "toy" → dataset ≠ "hand" →
  __init__ os dataset train_cmd epochs seed out_lbl w = (w, Raise ValueError).
Proof.
  intros Ht Hh. unfold __init__.
  apply String.eqb_neq in Ht, Hh. by rewrite Ht, Hh.
Qed.

(** [seed] and [out_lbl] are tested for truth: the seed 0 is no seed,
    the empty label is no label, and no label stands for
    [<dataset>_<train_cmd>]. *)
Lemma init_falsy_arguments (os : fxos) (dataset train_cmd : string)
    (epochs : Z) (seed : option Z) (out_lbl : option string) (w : fxworld) :
  __init__ os dataset train_cmd epochs (Some 0) out_lbl w
  = __init__ os dataset train_cmd epochs None out_lbl w
  ∧ __init__ os dataset train_cmd epochs seed (Some EmptyString) w
    = __init__ os dataset train_cmd epochs seed None w
  ∧ __init__ os dataset train_cmd epochs seed None w
    = __init__ os dataset train_cmd epochs seed
        (Some (dataset +:+ "_" +:+ train_cmd)) w.
Proof.
  split_and!; [reflexivity|reflexivity|].
  unfold __init__. cbn [lbl_truthy str_join].
  destruct (String.eqb_spec (dataset +:+ "_" +:+ train_cmd) EmptyString) as [E|];
    [|reflexivity].
  cbn [negb]. by rewrite E.
Qed.

(** Property X23. When [TrainDir(...)] returns an object, one command
    was launched, its output contained [) Finished in ],
    [all_files_present] held when it ended, the object has the epochs
    asked for and its cache is [orig_cache] inside of the output
    directory; and, [shutil.copy] listing what it copies, every file
    that the output directory listed when the command ended is listed
    in the cache. *)
Theorem init_caches_outputs (os : fxos) (dataset train_cmd : string)
    (epochs : Z) (seed : option Z) (out_lbl : option string)
    (w w' : fxworld) (self : TrainDir) :
  __init__ os dataset train_cmd epochs seed out_lbl w = (w', Ok self) →
  ∃ cmd out err w1,
    run_command cmd w = (w1, (out, err))
    ∧ fx_launched w' = cmd :: fx_launched w
    ∧ str_contains ") Finished in " out = true
    ∧ all_files_present self w1 = Ok true
    ∧ Conftest.epochs self = epochs
    ∧ orig_cache self = os_path_join (outdir self) "orig_cache"
    ∧ (copy_lists os (outdir self) (orig_cache self) (out_files self w1) →
       ∀ f, f ∈ out_files self w1 → f ∈ fx_listdir w' (orig_cache self)).
Proof.
  unfold __init__.
  destruct (if String.eqb dataset "toy" then _ else _) as [[particles_ poses_]|];
    [|done].
  cbv zeta.
  set (lbl := match out_lbl with Some _ => _ | None => _ end).
  set (self0 := Build_TrainDir _ _ _ _ _ _ _ _).
  set (cmd := match seed with Some _ => _ | None => _ end).
  destruct (run_command cmd w) as [w1 [out err]] eqn:Hrun.
  destruct (str_contains ") Finished in " out) eqn:Hfin; [|done]. cbn [negb].
  destruct (all_files_present self0 w1) as [[|]|] eqn:Hall; [|done..].
  destruct (os_makedirs _ _ _) as [l0|]; [|done].
  destruct (for_each _ _ l0) as [l r] eqn:Hloop.
  destruct r as [[]|]; [|done]. intros [= <- <-].
  exists cmd, out, err, w1. split_and!; try done.
  - cbn [set_listdir fx_launched]. unfold run_command in Hrun.
    destruct (fx_exec w cmd (fx_listdir w)) as [outs listdir'].
    by injection Hrun as <- _.
  - intros Hcopy. cbn [set_listdir fx_listdir].
    by apply (for_each_copy _ _ _ _ _ _ Hcopy Hloop).
Qed.

(** Property X24. [parse_request] is idempotent; its result has the
    keys [dataset], [train_cmd], [epochs], [seed] and [out_lbl], in
    that order; and it depends on the request through these first four
    keys only. *)
Theorem parse_request_idempotent {V} `{PyAny V} (req req' : pydict V) :
  parse_request (parse_request req) = parse_request req
  ∧ map fst (parse_request req)
    = ["dataset"; "train_cmd"; "epochs"; "seed"; "out_lbl"]
  ∧ ((∀ k, k ∈ ["dataset"; "train_cmd"; "epochs"; "seed"] →
        dict_get req' k = dict_get req k) →
     parse_request req' = parse_request req).
Proof.
  split_and!.
  - unfold parse_request.
    destruct (dict_get req "dataset"), (dict_get req "train_cmd"),
      (dict_get req "epochs"), (dict_get req "seed"); reflexivity.
  - unfold parse_request.
    destruct (dict_get req "dataset"), (dict_get req "train_cmd"),
      (dict_get req "epochs"), (dict_get req "seed"); reflexivity.
  - intros Hsame. unfold parse_request.
    rewrite !Hsame by (repeat first [left|right]). reflexivity.
Qed.

(** ** Instances of the further properties *)

Lemma ex_mixed_decimal : decimal_epochs (w_iterdir ex_mixed ["run"]) = true.
Proof. vm_compute. reflexivity. Defined.

Lemma clean_dir_touches_checkpoints_only_witness :
  NoDup (names (w_iterdir ex_mixed ["run"]))
  ∧ (∀ q, q ≠ ["run"] →
       w_iterdir (clean_dir ["run"] (ArgsNamespace (ex_args 5 false)) ex_mixed).1 q
       = w_iterdir ex_mixed q)
  ∧ ∀ e, e ∈ w_iterdir ex_mixed ["run"] → ¬ checkpoint e →
      e ∈ w_iterdir (clean_dir ["run"] (ArgsNamespace (ex_args 5 false))
                       ex_mixed).1 ["run"].
Proof.
  split; [exact ex_mixed_NoDup|].
  destruct (clean_dir_touches_checkpoints_only ex_mixed ["run"]
              (ArgsNamespace (ex_args 5 false)) _ _ ex_mixed_NoDup
              (surjective_pairing _)) as (Hout & _ & _ & Hkeep).
  split; [exact Hout|exact Hkeep].
Defined.

Lemma clean_dir_reports_count_witness :
  NoDup (names (w_iterdir ex_mixed ["run"]))
  ∧ dry_run (ex_args 5 false) = false
  ∧ ∃ w',
      clean_dir ["run"] (ArgsNamespace (ex_args 5 false)) ex_mixed = (w', Ok tt)
      ∧ ∃ doomed : list string,
          w_trace w'
          = EvPrint (removed_line (Z.of_nat (length doomed)))
            :: map (fun n => EvRemove (child ["run"] n)) (rev doomed)
               ++ w_trace ex_mixed
          ∧ NoDup doomed
          ∧ (length (w_iterdir w' ["run"]) + length doomed
             = length (w_iterdir ex_mixed ["run"]))%nat.
Proof.
  split; [exact ex_mixed_NoDup|]. split; [reflexivity|].
  destruct (clean_dir_returns ex_mixed ["run"] (ex_args 5 false)
              ex_mixed_NoDup eq_refl ltac:(discriminate) ex_mixed_decimal)
    as [w' Hw'].
  exists w'. split; [exact Hw'|].
  exact (clean_dir_reports_count ex_mixed ["run"] (ex_args 5 false) w'
           ex_mixed_NoDup eq_refl Hw').
Defined.

Lemma clean_dir_commutes_witness :
  NoDup (names (w_iterdir ex_mixed ["run"]))
  ∧ ∃ w1 w2 w12 w21,
      clean_dir ["run"] (ArgsNamespace (ex_args 5 false)) ex_mixed = (w1, Ok tt)
      ∧ clean_dir ["run"] (ArgsNamespace (ex_args 2 false)) ex_mixed = (w2, Ok tt)
      ∧ clean_dir ["run"] (ArgsNamespace (ex_args 2 false)) w1 = (w12, Ok tt)
      ∧ clean_dir ["run"] (ArgsNamespace (ex_args 5 false)) w2 = (w21, Ok tt)
      ∧ (∀ q, w_iterdir w12 q = w_iterdir w21 q)
      ∧ ∀ e, e ∈ w_iterdir w12 ["run"]
             ↔ e ∈ w_iterdir w1 ["run"] ∧ e ∈ w_iterdir w2 ["run"].
Proof.
  split; [exact ex_mixed_NoDup|].
  destruct (clean_dir_returns ex_mixed ["run"] (ex_args 5 false)
              ex_mixed_NoDup eq_refl ltac:(discriminate) ex_mixed_decimal)
    as [w1 H1].
  destruct (clean_dir_returns ex_mixed ["run"] (ex_args 2 false)
              ex_mixed_NoDup eq_refl ltac:(discriminate) ex_mixed_decimal)
    as [w2 H2].
  destruct (clean_dir_commutes ex_mixed ["run"] (ex_args 5 false)
              (ex_args 2 false) w1 w2 ex_mixed_NoDup eq_refl eq_refl H1 H2)
    as (w12 & w21 & H12 & H21 & Hsame & Hboth).
  exists w1, w2, w12, w21.
  split; [exact H1|]. split; [exact H2|]. split; [exact H12|].
  split; [exact H21|]. split; [exact Hsame|exact Hboth].
Defined.

Lemma clean_dir_divisor_after_multiple_witness :
  NoDup (names (w_iterdir ex_mixed ["run"]))
  ∧ (every_n_epochs (ex_args 5 false) | every_n_epochs (ex_args 10 false))
  ∧ ∃ w1,
      clean_dir ["run"] (ArgsNamespace (ex_args 10 false)) ex_mixed = (w1, Ok tt)
      ∧ clean_dir ["run"] (ArgsNamespace (ex_args 5 false)) w1
        = (log (EvPrint (removed_line 0)) w1, Ok tt).
Proof.
  assert (every_n_epochs (ex_args 5 false) | every_n_epochs (ex_args 10 false))
    as Hdiv by (exists 2; reflexivity).
  split; [exact ex_mixed_NoDup|]. split; [exact Hdiv|].
  destruct (clean_dir_returns ex_mixed ["run"] (ex_args 10 false)
              ex_mixed_NoDup eq_refl ltac:(discriminate) ex_mixed_decimal)
    as [w1 H1].
  exists w1. split; [exact H1|].
  exact (clean_dir_divisor_after_multiple ex_mixed ["run"] (ex_args 10 false)
           (ex_args 5 false) w1 ex_mixed_NoDup eq_refl eq_refl
           ltac:(discriminate) Hdiv H1).
Defined.

Lemma clean_dir_unit_modulus_witness :
  NoDup (names (w_iterdir ex_mixed ["run"]))
  ∧ (every_n_epochs (ex_args 1 false) = 1 ∨ every_n_epochs (ex_args 1 false) = -1)
  ∧ decimal_epochs (w_iterdir ex_mixed ["run"]) = true
  ∧ clean_dir ["run"] (ArgsNamespace (ex_args 1 false)) ex_mixed
    = (log (EvPrint (removed_line 0)) ex_mixed, Ok tt).
Proof.
  assert (every_n_epochs (ex_args 1 false) = 1
          ∨ every_n_epochs (ex_args 1 false) = -1) as H by (left; reflexivity).
  split; [exact ex_mixed_NoDup|]. split; [exact H|].
  split; [exact ex_mixed_decimal|].
  exact (clean_dir_unit_modulus ex_mixed ["run"] (ex_args 1 false)
           ex_mixed_NoDup eq_refl H ex_mixed_decimal).
Defined.

Lemma main_dry_run_changes_nothing_witness :
  dry_run (with_dry_run true (ex_scan_args ["**"] true)) = true
  ∧ w_iterdir (main (with_dry_run true (ex_scan_args ["**"] true))
                 (ex_scan_world [])).1
    = w_iterdir (ex_scan_world [])
  ∧ w_stdin (main (with_dry_run true (ex_scan_args ["**"] true))
               (ex_scan_world [])).1
    = w_stdin (ex_scan_world []).
Proof.
  split; [reflexivity|].
  exact (main_dry_run_changes_nothing
           (with_dry_run true (ex_scan_args ["**"] true)) (ex_scan_world [])
           eq_refl).
Defined.

Lemma main_force_never_prompts_witness :
  force (ex_scan_args ["**"] true) = true
  ∧ w_stdin (main (ex_scan_args ["**"] true) (ex_scan_world ["y"])).1
    = w_stdin (ex_scan_world ["y"])
  ∧ ∃ new,
      w_trace (main (ex_scan_args ["**"] true) (ex_scan_world ["y"])).1
      = new ++ w_trace (ex_scan_world ["y"])
      ∧ ∀ prompt answer, EvInput prompt answer ∉ new.
Proof.
  split; [reflexivity|].
  exact (main_force_never_prompts (ex_scan_args ["**"] true)
           (ex_scan_world ["y"]) eq_refl).
Defined.

Lemma main_declined_changes_no_file_witness :
  force (ex_scan_args ["**"] false) = false
  ∧ dry_run (ex_scan_args ["**"] false) = false
  ∧ Forall declines (w_stdin (ex_scan_world ["s"; "skip"]))
  ∧ w_iterdir (main (ex_scan_args ["**"] false) (ex_scan_world ["s"; "skip"])).1
    = w_iterdir (ex_scan_world ["s"; "skip"]).
Proof.
  assert (Forall declines (w_stdin (ex_scan_world ["s"; "skip"]))) as H.
  { constructor; [left; reflexivity|].
    constructor; [right; reflexivity|]. constructor. }
  split; [reflexivity|]. split; [reflexivity|]. split; [exact H|].
  exact (main_declined_changes_no_file (ex_scan_args ["**"] false)
           (ex_scan_world ["s"; "skip"]) eq_refl eq_refl H).
Defined.

Lemma main_spares_unrecognized_witness :
  (∀ v, (check_open_config ["b"] (ex_scan_world [])).2 = Ok v → truthy v = false)
  ∧ w_iterdir (main (ex_scan_args ["**"] true) (ex_scan_world [])).1 ["b"]
    = w_iterdir (ex_scan_world []) ["b"].
Proof.
  assert (∀ v, (check_open_config ["b"] (ex_scan_world [])).2 = Ok v
               → truthy v = false) as H.
  { intros v Hv. vm_compute in Hv. injection Hv as <-. reflexivity. }
  split; [exact H|].
  exact (main_spares_unrecognized (ex_scan_args ["**"] true) (ex_scan_world [])
           ["b"] H).
Defined.

Lemma main_spares_unmatched_witness :
  ¬ matched (ex_scan_args ["*.txt"] true) (ex_scan_world []) ["a"]
  ∧ w_iterdir (main (ex_scan_args ["*.txt"] true) (ex_scan_world [])).1 ["a"]
    = w_iterdir (ex_scan_world []) ["a"].
Proof.
  assert (¬ matched (ex_scan_args ["*.txt"] true) (ex_scan_world []) ["a"]) as H.
  { intros (g & ps & Hg & Hps & Hin & _). simpl in Hg.
    apply list_elem_of_singleton in Hg as ->.
    injection Hps as <-. apply list_elem_of_singleton in Hin. discriminate Hin. }
  split; [exact H|].
  exact (main_spares_unmatched (ex_scan_args ["*.txt"] true) (ex_scan_world [])
           ["a"] H).
Defined.

Lemma main_scan_order_witness :
  outglobs (ex_scan_args ["**"] true) ≠ []
  ∧ collect_dirs (outglobs (ex_scan_args ["**"] true)) (ex_scan_world [])
    = (ex_scan_world [], Ok [[]; ["b"]; ["a"]; ["a"; "sub"]])
  ∧ (∃ new,
       w_trace (main (ex_scan_args ["**"] true) (ex_scan_world [])).1
       = new ++ w_trace (ex_scan_world [])
       ∧ rev (map fst (scans new))
         `sublist_of` sorted_set [[]; ["b"]; ["a"]; ["a"; "sub"]])
  ∧ Sorted path_le (sorted_set [[]; ["b"]; ["a"]; ["a"; "sub"]]).
Proof.
  assert (outglobs (ex_scan_args ["**"] true) ≠ []) as H1 by discriminate.
  assert (collect_dirs (outglobs (ex_scan_args ["**"] true)) (ex_scan_world [])
          = (ex_scan_world [], Ok [[]; ["b"]; ["a"]; ["a"; "sub"]])) as H2.
  { vm_compute. reflexivity. }
  split; [exact H1|]. split; [exact H2|].
  destruct (main_scan_order (ex_scan_args ["**"] true) (ex_scan_world [])
              [[]; ["b"]; ["a"]; ["a"; "sub"]] H1 H2) as (Ht & Hs & _).
  split; [exact Ht|exact Hs].
Defined.

Lemma main_glob_error_witness :
  outglobs (ex_scan_args ["**"; "."] true) = ["**"] ++ "." :: []
  ∧ (∀ g', g' ∈ ["**"] → is_ok (w_glob ex_dot_world g') = true)
  ∧ w_glob ex_dot_world "." = Raise IndexError
  ∧ main (ex_scan_args ["**"; "."] true) ex_dot_world
    = (ex_dot_world, Raise IndexError).
Proof.
  assert (∀ g', g' ∈ ["**"] → is_ok (w_glob ex_dot_world g') = true) as H.
  { intros g' ->%list_elem_of_singleton. reflexivity. }
  split; [reflexivity|]. split; [exact H|]. split; [reflexivity|].
  exact (main_glob_error (ex_scan_args ["**"; "."] true) ex_dot_world
           ["**"] "." [] IndexError eq_refl H eq_refl).
Defined.

Lemma main_without_patterns_witness :
  outglobs (ex_scan_args [] true) = []
  ∧ decimal_epochs (w_iterdir ex_cwd_world (w_cwd ex_cwd_world)) = true
  ∧ main (ex_scan_args [] true) ex_cwd_world
    = (ex_cwd_world, Raise AttributeError).
Proof.
  assert (decimal_epochs (w_iterdir ex_cwd_world (w_cwd ex_cwd_world)) = true)
    as H by (vm_compute; reflexivity).
  split; [reflexivity|]. split; [exact H|].
  exact (main_without_patterns (ex_scan_args [] true) ex_cwd_world eq_refl H).
Defined.

Lemma prompt_dir_reports_unrecognized_witness :
  max_by path_len [[]; ["a"]; ["a"; "sub"]; ["b"]] = Ok ["a"; "sub"]
  ∧ ["b"] ∈ [[]; ["a"]; ["a"; "sub"]; ["b"]]
  ∧ truthy (PDict []) = false
  ∧ ∃ pad,
      String.length pad = Z.to_nat (path_len ["a"; "sub"] + 2)
      ∧ String.prefix (str_join EmptyString ["`"; path_str ["b"]; "`"]) pad
        = true
      ∧ _prompt_dir ["b"] (PDict []) (path_len ["a"; "sub"])
          (ex_scan_args ["**"] true) (ex_scan_world [])
        = (if 0 <? verbose (ex_scan_args ["**"] true)
           then log (EvPrint (pad +:+ "is not a cryoDRGN directory"))
                  (ex_scan_world [])
           else ex_scan_world [], Ok tt).
Proof.
  assert (["b"] ∈ [[]; ["a"]; ["a"; "sub"]; ["b"]]) as H.
  { do 3 right. left. }
  split; [reflexivity|]. split; [exact H|]. split; [reflexivity|].
  exact (prompt_dir_reports_unrecognized [[]; ["a"]; ["a"; "sub"]; ["b"]]
           ["a"; "sub"] ["b"] (PDict []) (ex_scan_args ["**"] true)
           (ex_scan_world []) eq_refl H eq_refl).
Defined.

Lemma ex_empty_config_selected : selected ex_empty_config "config.yaml".
Proof.
  exists 0%nat. split; [reflexivity|]. split; [by eexists|].
  intros j c' Hj. exfalso. lia.
Defined.

Lemma check_open_config_shape_errors_witness :
  selected (w_iterdir (ex_world ex_empty_config) ["run"]) "config.yaml"
  ∧ lookup_entry "config.yaml" (w_iterdir (ex_world ex_empty_config) ["run"])
    = Some (File (Ok PNone))
  ∧ check_open_config ["run"] (ex_world ex_empty_config)
    = (log (EvOpen (child ["run"] "config.yaml")) (ex_world ex_empty_config),
       Raise TypeError).
Proof.
  split; [exact ex_empty_config_selected|]. split; [reflexivity|].
  exact (proj1 (check_open_config_shape_errors (ex_world ex_empty_config)
                  ["run"] "config.yaml" PNone ex_empty_config_selected
                  eq_refl) (or_introl eq_refl)).
Defined.

Lemma ex_ten_epochs_decimal : decimal_epochs ex_ten_epochs = true.
Proof. vm_compute. reflexivity. Defined.

Lemma ex_ten_epochs_regular ent :
  ent ∈ w_iterdir (ex_world ex_ten_epochs) ["run"] →
  d_name ent ∈ epoch_files 3 → is_regular ent.
Proof.
  intros Hent _. change (ent ∈ ex_ten_epochs) in Hent.
  unfold ex_ten_epochs in Hent.
  apply list_elem_of_fmap in Hent as (e & -> & _). by eexists.
Defined.

Lemma clean_dir_then_epoch_cleaned_witness :
  NoDup (names (w_iterdir (ex_world ex_ten_epochs) ["run"]))
  ∧ 1 ≤ 3 < epochs ex_traindir
  ∧ epoch_file "weights" 3 ".pkl"
    ∈ names (w_iterdir (ex_world ex_ten_epochs) ["run"])
  ∧ ∃ w',
      clean_dir ["run"] (ArgsNamespace (ex_args 5 false)) (ex_world ex_ten_epochs)
      = (w', Ok tt)
      ∧ (epoch_cleaned ex_traindir (Some 3)
           (ex_fxworld (names (w_iterdir w' ["run"]))) = Ok true
         ↔ 3 mod every_n_epochs (ex_args 5 false) ≠ 0
           ∧ ¬ in_analysis_set (w_iterdir (ex_world ex_ten_epochs) ["run"]) 3).
Proof.
  assert (1 ≤ 3 < epochs ex_traindir) as Hr by (simpl; lia).
  assert (epoch_file "weights" 3 ".pkl"
          ∈ names (w_iterdir (ex_world ex_ten_epochs) ["run"])) as Hw.
  { apply (bool_decide_unpack _). vm_compute. exact I. }
  split; [exact ex_ten_epochs_NoDup|]. split; [exact Hr|]. split; [exact Hw|].
  destruct (clean_dir_returns (ex_world ex_ten_epochs) ["run"] (ex_args 5 false)
              ex_ten_epochs_NoDup eq_refl ltac:(discriminate)
              ex_ten_epochs_decimal) as [w' Hw'].
  exists w'. split; [exact Hw'|].
  exact (clean_dir_then_epoch_cleaned (ex_world ex_ten_epochs) ["run"]
           (ex_args 5 false) w' ex_traindir
           (ex_fxworld (names (w_iterdir w' ["run"]))) 3
           ex_ten_epochs_NoDup eq_refl Hw' eq_refl Hr ex_ten_epochs_regular Hw).
Defined.

Lemma train_load_epoch_outcome_witness :
  0 ≤ 3 < epochs ex_traindir
  ∧ ∃ cmd out err w',
      run_command cmd (ex_fxworld ["weights.pkl"]) = (w', (out, err))
      ∧ str_contains ("-n=" +:+ str_of_int 20 +:+ " ") cmd = true
      ∧ (str_contains ") Finished in " out = false →
         train_load_epoch ex_traindir 3 20 (ex_fxworld ["weights.pkl"])
         = (ex_traindir, w', Raise AssertionError)).
Proof.
  assert (0 ≤ 3 < epochs ex_traindir) as Hr by (simpl; lia).
  split; [exact Hr|].
  destruct (train_load_epoch_outcome ex_traindir 3 20
              (ex_fxworld ["weights.pkl"]) Hr)
    as (cmd & out & err & w' & Hrun & Hn & _ & Hfail & _).
  exists cmd, out, err, w'.
  split; [exact Hrun|]. split; [exact Hn|exact Hfail].
Defined.

Lemma ex_cached_copy :
  copy_lists ex_fxos (orig_cache ex_traindir) (outdir ex_traindir)
    (fx_listdir ex_cached_world (orig_cache ex_traindir)).
Proof.
  intros f l l' Hf Hcopy.
  change (f ∈ ["weights.pkl"; "weights.1.pkl"]) in Hf.
  apply elem_of_cons in Hf as [->|Hf];
    [|apply list_elem_of_singleton in Hf as ->];
    vm_compute in Hcopy; injection Hcopy as <-;
    (split; [left|intros g Hg; by right]).
Defined.

Lemma replace_files_restores_witness :
  copy_lists ex_fxos (orig_cache ex_traindir) (outdir ex_traindir)
    (fx_listdir ex_cached_world (orig_cache ex_traindir))
  ∧ ∃ w',
      replace_files ex_fxos ex_traindir ex_cached_world = (w', Ok tt)
      ∧ (∀ f, f ∈ fx_listdir ex_cached_world (orig_cache ex_traindir) →
           f ∈ out_files ex_traindir w')
      ∧ (∀ g, g ∈ out_files ex_traindir ex_cached_world →
           g ∈ out_files ex_traindir w').
Proof.
  split; [exact ex_cached_copy|].
  eexists. split; [reflexivity|].
  destruct (replace_files_restores ex_fxos ex_traindir ex_cached_world _
              ex_cached_copy eq_refl) as (Hall & Hkeep & _).
  split; [exact Hall|exact Hkeep].
Defined.

Lemma init_unknown_dataset_witness :
  "cat" ≠ "toy" ∧ "cat" ≠ "hand"
  ∧ __init__ ex_fxos "cat" "train_nn" 10 None None ex_train_world
    = (ex_train_world, Raise ValueError).
Proof.
  assert ("cat" ≠ "toy") as H1 by discriminate.
  assert ("cat" ≠ "hand") as H2 by discriminate.
  split; [exact H1|]. split; [exact H2|].
  exact (init_unknown_dataset ex_fxos "cat" "train_nn" 10 None None
           ex_train_world H1 H2).
Defined.

Lemma init_caches_outputs_witness :
  ∃ w' self,
    __init__ ex_fxos "hand" "train_nn" 2 None None ex_train_world
    = (w', Ok self)
    ∧ ∃ cmd out err w1,
        run_command cmd ex_train_world = (w1, (out, err))
        ∧ fx_launched w' = cmd :: fx_launched ex_train_world
        ∧ all_files_present self w1 = Ok true
        ∧ ∀ f, f ∈ out_files self w1 → f ∈ fx_listdir w' (orig_cache self).
Proof.
  eexists _, _. split; [reflexivity|].
  destruct (init_caches_outputs ex_fxos "hand" "train_nn" 2 None None
              ex_train_world _ _ eq_refl)
    as (cmd & out & err & w1 & Hrun & Hl & _ & Hall & _ & _ & Hcache).
  exists cmd, out, err, w1.
  split; [exact Hrun|]. split; [exact Hl|]. split; [exact Hall|].
  apply Hcache.
  assert (w1 = (run_command cmd ex_train_world).1) as -> by (by rewrite Hrun).
  intros f l l' Hf Hcopy.
  change (f ∈ ["weights.pkl"; "weights.1.pkl"]) in Hf.
  apply elem_of_cons in Hf as [->|Hf];
    [|apply list_elem_of_singleton in Hf as ->];
    vm_compute in Hcopy; injection Hcopy as <-;
    (split; [left|intros g Hg; by right]).
Defined.

Lemma ex_scan_matched_a :
  matched (ex_scan_args ["**"] true) (ex_scan_world []) ["a"].
Proof.
  exists "**", [[]; ["b"]; ["a"]; ["a"; "sub"]].
  split; [left|]. split; [reflexivity|]. split; [do 2 right; left|reflexivity].
Defined.

Lemma ex_scan_ancestors anc v :
  matched (ex_scan_args ["**"] true) (ex_scan_world []) anc →
  descendant anc ["a"] →
  (check_open_config anc (ex_scan_world [])).2 = Ok v → truthy v = false.
Proof.
  intros (g & ps & Hg & Hps & Hin & _) (rest & Hrest & Heq) Hv.
  simpl in Hg. apply list_elem_of_singleton in Hg as ->.
  injection Hps as <-.
  repeat (apply elem_of_cons in Hin as [->|Hin]).
  - vm_compute in Hv. injection Hv as <-. reflexivity.
  - discriminate Heq.
  - injection Heq as <-. done.
  - discriminate Heq.
  - by apply elem_of_nil in Hin.
Defined.

Lemma main_force_cleans_recognized_witness :
  force (ex_scan_args ["**"] true) = true
  ∧ dry_run (ex_scan_args ["**"] true) = false
  ∧ matched (ex_scan_args ["**"] true) (ex_scan_world []) ["a"]
  ∧ (check_open_config ["a"] (ex_scan_world [])).2 = Ok ex_good_config
  ∧ (main (ex_scan_args ["**"] true) (ex_scan_world [])).2 = Ok tt
  ∧ w_iterdir (main (ex_scan_args ["**"] true) (ex_scan_world [])).1 ["a"]
    = w_iterdir (clean_dir ["a"] (ArgsNamespace (ex_scan_args ["**"] true))
                   (ex_scan_world [])).1 ["a"].
Proof.
  assert ((check_open_config ["a"] (ex_scan_world [])).2 = Ok ex_good_config)
    as Hcfg by (vm_compute; reflexivity).
  assert ((main (ex_scan_args ["**"] true) (ex_scan_world [])).2 = Ok tt)
    as Hok by (vm_compute; reflexivity).
  assert (NoDup (names (w_iterdir (ex_scan_world []) ["a"]))) as Hnd.
  { apply (bool_decide_unpack _). vm_compute. exact I. }
  split; [reflexivity|]. split; [reflexivity|].
  split; [exact ex_scan_matched_a|]. split; [exact Hcfg|]. split; [exact Hok|].
  exact (main_force_cleans_recognized (ex_scan_args ["**"] true)
           (ex_scan_world []) ["a"] ex_good_config eq_refl eq_refl Hnd
           ex_scan_matched_a Hcfg eq_refl ex_scan_ancestors Hok).
Defined.
